(** * wg-portal: the peer / user reconciliation engine (package [server])

    A shallow embedding of the lifecycle operations of the portal server
    ([PrepareNewPeer], [CreatePeer], [UpdatePeer], [DeletePeer],
    [RestoreWireGuardInterface], [WriteWireGuardConfigFile], [CreateUser],
    [UpdateUser], [DeleteUser], [CreateUserDefaultPeer]).

    The server owns no state of its own: it sequences calls to the peer
    repository, the user repository, the WireGuard interface controller and
    the file system.  Every operation is a computation in a state-and-error
    monad over a [World] that holds those stores, together with the oracles
    that decide which collaborator calls fail, what the random source
    returns, what the clock shows and how far a failing file write got, and
    a chronological trace of the collaborator calls that were issued. *)

From Stdlib Require Import ZArith.
From stdpp Require Import base tactics option list strings pretty gmap fin_maps.

(** ** Data model *)

(** [time.Time], as nanoseconds since the epoch. *)
Definition time_Time := Z.

(** A [*time.Time].  Go compares pointers by the variable they point to, so a
    pointer is the address of its variable; the variables of this program are
    never written after their initialisation, so the pointer carries the value
    it reads. *)
Record TimePtr := mkTimePtr { ptr_addr : nat; ptr_val : time_Time }.

(** [error] values: a root cause, wrapped by [errors.Wrap], [errors.WithMessage]
    and [errors.WithMessagef] with the message of the step that failed. *)
Inductive error :=
| Cause (msg : string)
| Wrap (msg : string) (cause : error).

(** Modelled from the spec: [wgtypes.PeerConfig] as the interface controller
    sees it (section 6: public key, preshared key, allowed-IPs list). *)
Record PeerConfig := mkPeerConfig {
  cfg_PublicKey : string;
  cfg_PresharedKey : string;
  cfg_AllowedIPs : list string;
}.

(** Modelled from the spec: the fields of [wireguard.Peer] that the server
    reads or writes.  [Peer] is the live interface's view of the peer
    ([*wgtypes.Peer]), [None] when the interface does not know the peer;
    [DeactivatedAt] is a [*time.Time], [None] for an active peer. *)
Record Peer := mkPeer {
  Peer_live : option PeerConfig;
  IsNew : bool;
  DeviceName : string;
  Identifier : string;
  Email : string;
  UID : string;
  AllowedIPsStr : string;
  IPs : list string;
  IPsStr : string;
  PrivateKey : string;
  PublicKey : string;
  PresharedKey : string;
  DeactivatedAt : option TimePtr;
  CreatedBy : string;
  UpdatedBy : string;
}.

(** The zero value [wireguard.Peer{}]. *)
Definition Peer_zero : Peer :=
  mkPeer None false "" "" "" "" "" [] "" "" "" "" None "" "".

(** Field assignments [peer.F = v]. *)
Definition set_Peer_live (v : option PeerConfig) (p : Peer) : Peer :=
  mkPeer v (IsNew p) (DeviceName p) (Identifier p) (Email p) (UID p)
    (AllowedIPsStr p) (IPs p) (IPsStr p) (PrivateKey p) (PublicKey p)
    (PresharedKey p) (DeactivatedAt p) (CreatedBy p) (UpdatedBy p).
Definition set_IsNew (v : bool) (p : Peer) : Peer :=
  mkPeer (Peer_live p) v (DeviceName p) (Identifier p) (Email p) (UID p)
    (AllowedIPsStr p) (IPs p) (IPsStr p) (PrivateKey p) (PublicKey p)
    (PresharedKey p) (DeactivatedAt p) (CreatedBy p) (UpdatedBy p).
Definition set_DeviceName (v : string) (p : Peer) : Peer :=
  mkPeer (Peer_live p) (IsNew p) v (Identifier p) (Email p) (UID p)
    (AllowedIPsStr p) (IPs p) (IPsStr p) (PrivateKey p) (PublicKey p)
    (PresharedKey p) (DeactivatedAt p) (CreatedBy p) (UpdatedBy p).
Definition set_Identifier (v : string) (p : Peer) : Peer :=
  mkPeer (Peer_live p) (IsNew p) (DeviceName p) v (Email p) (UID p)
    (AllowedIPsStr p) (IPs p) (IPsStr p) (PrivateKey p) (PublicKey p)
    (PresharedKey p) (DeactivatedAt p) (CreatedBy p) (UpdatedBy p).
Definition set_Email (v : string) (p : Peer) : Peer :=
  mkPeer (Peer_live p) (IsNew p) (DeviceName p) (Identifier p) v (UID p)
    (AllowedIPsStr p) (IPs p) (IPsStr p) (PrivateKey p) (PublicKey p)
    (PresharedKey p) (DeactivatedAt p) (CreatedBy p) (UpdatedBy p).
Definition set_UID (v : string) (p : Peer) : Peer :=
  mkPeer (Peer_live p) (IsNew p) (DeviceName p) (Identifier p) (Email p) v
    (AllowedIPsStr p) (IPs p) (IPsStr p) (PrivateKey p) (PublicKey p)
    (PresharedKey p) (DeactivatedAt p) (CreatedBy p) (UpdatedBy p).
Definition set_AllowedIPsStr (v : string) (p : Peer) : Peer :=
  mkPeer (Peer_live p) (IsNew p) (DeviceName p) (Identifier p) (Email p) (UID p)
    v (IPs p) (IPsStr p) (PrivateKey p) (PublicKey p)
    (PresharedKey p) (DeactivatedAt p) (CreatedBy p) (UpdatedBy p).
Definition set_IPs (v : list string) (p : Peer) : Peer :=
  mkPeer (Peer_live p) (IsNew p) (DeviceName p) (Identifier p) (Email p) (UID p)
    (AllowedIPsStr p) v (IPsStr p) (PrivateKey p) (PublicKey p)
    (PresharedKey p) (DeactivatedAt p) (CreatedBy p) (UpdatedBy p).
Definition set_IPsStr (v : string) (p : Peer) : Peer :=
  mkPeer (Peer_live p) (IsNew p) (DeviceName p) (Identifier p) (Email p) (UID p)
    (AllowedIPsStr p) (IPs p) v (PrivateKey p) (PublicKey p)
    (PresharedKey p) (DeactivatedAt p) (CreatedBy p) (UpdatedBy p).
Definition set_PrivateKey (v : string) (p : Peer) : Peer :=
  mkPeer (Peer_live p) (IsNew p) (DeviceName p) (Identifier p) (Email p) (UID p)
    (AllowedIPsStr p) (IPs p) (IPsStr p) v (PublicKey p)
    (PresharedKey p) (DeactivatedAt p) (CreatedBy p) (UpdatedBy p).
Definition set_PublicKey (v : string) (p : Peer) : Peer :=
  mkPeer (Peer_live p) (IsNew p) (DeviceName p) (Identifier p) (Email p) (UID p)
    (AllowedIPsStr p) (IPs p) (IPsStr p) (PrivateKey p) v
    (PresharedKey p) (DeactivatedAt p) (CreatedBy p) (UpdatedBy p).
Definition set_PresharedKey (v : string) (p : Peer) : Peer :=
  mkPeer (Peer_live p) (IsNew p) (DeviceName p) (Identifier p) (Email p) (UID p)
    (AllowedIPsStr p) (IPs p) (IPsStr p) (PrivateKey p) (PublicKey p)
    v (DeactivatedAt p) (CreatedBy p) (UpdatedBy p).
Definition set_DeactivatedAt (v : option TimePtr) (p : Peer) : Peer :=
  mkPeer (Peer_live p) (IsNew p) (DeviceName p) (Identifier p) (Email p) (UID p)
    (AllowedIPsStr p) (IPs p) (IPsStr p) (PrivateKey p) (PublicKey p)
    (PresharedKey p) v (CreatedBy p) (UpdatedBy p).

(** Modelled from the spec: the fields of [wireguard.Device] that the server
    reads: its name, its address pools and the allowed-IPs string handed to
    its peers. *)
Record Device := mkDevice {
  dev_DeviceName : string;
  dev_IPs : list string;
  dev_AllowedIPsStr : string;
}.

(** The zero value [wireguard.Device{}]. *)
Definition Device_zero : Device := mkDevice "" [] "".

(** [gorm.DeletedAt]: a nullable time; [gorm.DeletedAt{}] has [Valid = false]. *)
Record DeletedAtT := mkDeletedAt { del_Time : time_Time; del_Valid : bool }.

Definition DeletedAt_zero : DeletedAtT := mkDeletedAt 0%Z false.

(** Modelled from the spec: the fields of [users.User] that the server reads
    or writes. *)
Record User := mkUser {
  usr_Email : string;
  usr_Firstname : string;
  usr_Lastname : string;
  usr_DeletedAt : DeletedAtT;
}.

Definition set_usr_DeletedAt (v : DeletedAtT) (u : User) : User :=
  mkUser (usr_Email u) (usr_Firstname u) (usr_Lastname u) v.

(** The part of [common.Config] that the server consults:
    [config.WG.ConfigDirectoryPath] and [config.Core.CreateDefaultPeer]. *)
Record Config := mkConfig {
  ConfigDirectoryPath : string;
  CreateDefaultPeer : bool;
}.

(** ** Collaborator calls, and the world they act on *)

(** The calls that can fail or change a store.  The failure oracle of the
    world is indexed by them, and the trace records them. *)
Inductive Call :=
| WgAddPeer (device : string) (cfg : PeerConfig)
| WgUpdatePeer (device : string) (cfg : PeerConfig)
| WgRemovePeer (device : string) (pubKey : string)
| DbCreatePeer (p : Peer)
| DbUpdatePeer (p : Peer)
| DbDeletePeer (p : Peer)
| DbCreateUser (u : User)
| DbUpdateUser (u : User)
| DbDeleteUser (u : User)
| FsAccess (dir : string)
| FsWriteFile (path : string) (data : string)
| LogError (msg : string).

(** A call and its outcome: [None] on success, the error it returned. *)
Definition Event : Type := Call * option error.

Record World := mkWorld {
  config : Config;
  (** the device repository *)
  w_devices : list Device;
  (** the peer repository, keyed by public key *)
  w_peers : gmap string Peer;
  (** the user repository, keyed by email, soft-deleted records included *)
  w_users : gmap string User;
  (** the live interfaces: (device, public key) to the configured peer *)
  w_live : gmap (string * string) PeerConfig;
  (** the files written so far *)
  w_files : gmap string string;
  (** oracle: does the call issued at step [n] fail, and with which error *)
  w_fault : nat → Call → option error;
  (** oracle: the key read from the random source at step [n] *)
  w_rand : nat → option string;
  (** oracle: the wall clock at step [n] *)
  w_clock : nat → time_Time;
  (** oracle: how far a failing [ioutil.WriteFile] issued at step [n] got:
      [None] when the file could not be opened, [Some k] when it was opened
      and [k] bytes reached it *)
  w_short : nat → option nat;
  (** number of oracle consultations so far *)
  w_step : nat;
  (** the next unused address for a [time.Time] variable *)
  w_next_addr : nat;
  (** the collaborator calls issued so far, oldest first *)
  w_trace : list Event;
}.

Definition set_peers (v : gmap string Peer) (w : World) : World :=
  mkWorld (config w) (w_devices w) v (w_users w) (w_live w) (w_files w)
    (w_fault w) (w_rand w) (w_clock w) (w_short w) (w_step w) (w_next_addr w) (w_trace w).
Definition set_users (v : gmap string User) (w : World) : World :=
  mkWorld (config w) (w_devices w) (w_peers w) v (w_live w) (w_files w)
    (w_fault w) (w_rand w) (w_clock w) (w_short w) (w_step w) (w_next_addr w) (w_trace w).
Definition set_live (v : gmap (string * string) PeerConfig) (w : World) : World :=
  mkWorld (config w) (w_devices w) (w_peers w) (w_users w) v (w_files w)
    (w_fault w) (w_rand w) (w_clock w) (w_short w) (w_step w) (w_next_addr w) (w_trace w).
Definition set_files (v : gmap string string) (w : World) : World :=
  mkWorld (config w) (w_devices w) (w_peers w) (w_users w) (w_live w) v
    (w_fault w) (w_rand w) (w_clock w) (w_short w) (w_step w) (w_next_addr w) (w_trace w).
Definition set_step (v : nat) (w : World) : World :=
  mkWorld (config w) (w_devices w) (w_peers w) (w_users w) (w_live w) (w_files w)
    (w_fault w) (w_rand w) (w_clock w) (w_short w) v (w_next_addr w) (w_trace w).
Definition set_next_addr (v : nat) (w : World) : World :=
  mkWorld (config w) (w_devices w) (w_peers w) (w_users w) (w_live w) (w_files w)
    (w_fault w) (w_rand w) (w_clock w) (w_short w) (w_step w) v (w_trace w).
Definition set_trace (v : list Event) (w : World) : World :=
  mkWorld (config w) (w_devices w) (w_peers w) (w_users w) (w_live w) (w_files w)
    (w_fault w) (w_rand w) (w_clock w) (w_short w) (w_step w) (w_next_addr w) v.

(** ** The monad of server operations *)

(** What a Go call yields: its value, the [error] it returns, or a panic. *)
Inductive result (A : Type) :=
| Ok (a : A)
| Err (e : error)
| Panic (msg : string).
Arguments Ok {A} a.
Arguments Err {A} e.
Arguments Panic {A} msg.

Definition M (A : Type) : Type := World → result A * World.

#[global] Instance M_ret : MRet M := λ A a w, (Ok a, w).

#[global] Instance M_bind : MBind M := λ A B f m w,
  match m w with
  | (Ok a, w') => f a w'
  | (Err e, w') => (Err e, w')
  | (Panic msg, w') => (Panic msg, w')
  end.

(** [return err]. *)
Definition fail {A} (e : error) : M A := λ w, (Err e, w).

(** A runtime panic (nil pointer dereference). *)
Definition panic {A} (msg : string) : M A := λ w, (Panic msg, w).

(** Read the current world. *)
Definition get_world : M World := λ w, (Ok w, w).

(** [if err := m; err != nil { return errors.WithMessage(err, msg) }]. *)
Definition with_message {A} (msg : string) (m : M A) : M A := λ w,
  match m w with
  | (Err e, w') => (Err (Wrap msg e), w')
  | r => r
  end.

(** A collaborator call [c]: the oracle decides whether it fails; the call
    and its outcome are recorded; [effect] is what it does to the stores when
    it succeeds. *)
Definition call (c : Call) (effect : World → World) : M unit := λ w,
  let o := w_fault w (w_step w) c in
  let w1 := set_trace (w_trace w ++ [(c, o)]) (set_step (S (w_step w)) w) in
  match o with
  | Some e => (Err e, w1)
  | None => (Ok tt, effect w1)
  end.

(** Statements of a Go block that does not return a value. *)
Definition skip : M unit := mret tt.

(** [for _, x := range l { body }]. *)
Fixpoint for_each {A} (l : list A) (body : A → M unit) : M unit :=
  match l with
  | [] => skip
  | x :: rest => body x;; for_each rest body
  end.

(** [if err := m; err != nil { handler }], with no [return] in the handler. *)
Definition on_error (m : M unit) (handler : error → M unit) : M unit := λ w,
  match m w with
  | (Err e, w') => handler e w'
  | r => r
  end.

(** [err.Error()] as [github.com/pkg/errors] prints a wrapped error. *)
Fixpoint error_string (e : error) : string :=
  match e with
  | Cause msg => msg
  | Wrap msg cause => msg +:+ ": " +:+ error_string cause
  end.

(** [time.Now()]. *)
Definition time_Now : M time_Time := λ w,
  (Ok (w_clock w (w_step w)), set_step (S (w_step w)) w).

(** A new [time.Time] variable holding [t]; the result is its address. *)
Definition new_var (t : time_Time) : M TimePtr := λ w,
  (Ok (mkTimePtr (w_next_addr w) t), set_next_addr (S (w_next_addr w)) w).

(** [p == q] on [*time.Time]: both nil, or the same variable. *)
Definition ptr_eqb (p q : option TimePtr) : bool :=
  match p, q with
  | None, None => true
  | Some a, Some b => Nat.eqb (ptr_addr a) (ptr_addr b)
  | _, _ => false
  end.

(** [wgtypes.GenerateKey()] and [wgtypes.GeneratePrivateKey()], as strings:
    both read the random source and fail when it does. *)
Definition wgtypes_GenerateKey : M string := λ w,
  let w1 := set_step (S (w_step w)) w in
  match w_rand w (w_step w) with
  | Some k => (Ok k, w1)
  | None => (Err (Cause "failed to read random bytes"), w1)
  end.

Definition wgtypes_GeneratePrivateKey : M string := wgtypes_GenerateKey.

(** [logrus.Errorf]. *)
Definition logrus_Errorf (msg : string) : M unit := λ w,
  (Ok tt, set_trace (w_trace w ++ [(LogError msg, None)]) w).

(** ** The collaborators *)

(** Functions of the libraries and of the packages [common] and [wireguard]
    whose results the server only passes on. *)
Class Primitives := {
  (** [common.ListToString] *)
  ListToString : list string → string;
  (** [fmt.Sprintf("%x", md5.Sum([]byte(s)))] *)
  md5_hex : string → string;
  (** [key.PublicKey().String()] of the private key with that string *)
  PublicKeyOf : string → string;
  (** the allocator's query [PeerManager.GetAvailableIp(device, pool)], a
      function of the repository's contents (section 4.1) *)
  GetAvailableIp : gmap string Peer → string → string → error + string;
  (** the renderer [Device.GetConfigFile(peers)] *)
  GetConfigFile : Device → list Peer → error + string;
  (** [path.Join(dir, file)] *)
  path_Join : string → string → string;
}.

#[global] Instance TimePtr_eq_dec : EqDecision TimePtr.
Proof. solve_decision. Defined.

(** Modelled from the spec: [Peer.GetConfig()], the configuration pushed to
    the interface controller (section 6). *)
Definition GetConfig (p : Peer) : PeerConfig :=
  mkPeerConfig (PublicKey p) (PresharedKey p) (IPs p).

(** Modelled from the spec: [PeerManager.GetDevice(name)] of the device
    repository; the zero device when there is none of that name. *)
Definition GetDevice (w : World) (device : string) : Device :=
  default Device_zero
    (find (λ d, bool_decide (dev_DeviceName d = device)) (w_devices w)).

(** Modelled from the spec: the repository fills the live view of a peer it
    returns from the interface of the peer's device (section 6, [ListPeers]
    "used implicitly by restore/update-decision logic"). *)
Definition populatePeerData (w : World) (p : Peer) : Peer :=
  set_Peer_live (w_live w !! (DeviceName p, PublicKey p)) p.

(** Modelled from the spec: [PeerManager.GetPeerByKey(key)].  The lookup in
    the repository is [FindPeer]; the Go method returns a [Peer] value, the
    zero peer when the key is absent. *)
Definition FindPeer (w : World) (key : string) : option Peer :=
  populatePeerData w <$> w_peers w !! key.

Definition GetPeerByKey (w : World) (key : string) : Peer :=
  default Peer_zero (FindPeer w key).

(** Modelled from the spec: [PeerManager.GetActivePeers(device)], the peers
    of the device whose [DeactivatedAt] is null. *)
Definition GetActivePeers (w : World) (device : string) : list Peer :=
  populatePeerData w <$>
    filter (λ p, DeviceName p = device ∧ DeactivatedAt p = None)
      (snd <$> map_to_list (w_peers w)).

(** Modelled from the spec: [PeerManager.GetPeersByMail(email)]. *)
Definition GetPeersByMail (w : World) (email : string) : list Peer :=
  populatePeerData w <$>
    filter (λ p, Email p = email) (snd <$> map_to_list (w_peers w)).

(** Modelled from the spec: [UserManager.GetUserUnscoped(email)] sees
    soft-deleted records, [UserManager.GetUser(email)] does not. *)
Definition GetUserUnscoped (w : World) (email : string) : option User :=
  w_users w !! email.

Definition GetUser (w : World) (email : string) : option User :=
  match w_users w !! email with
  | Some u => if del_Valid (usr_DeletedAt u) then None else Some u
  | None => None
  end.

Definition query {A} (f : World → A) : M A := λ w, (Ok (f w), w).

(** Modelled from the spec: the interface controller (section 6).  [AddPeer]
    configures the peer on the device, [UpdatePeer] replaces the configuration
    of a peer that is there, [RemovePeer] takes the peer off the device. *)
Definition wg_AddPeer (device : string) (cfg : PeerConfig) : M unit :=
  call (WgAddPeer device cfg)
    (λ w, set_live (<[(device, cfg_PublicKey cfg) := cfg]> (w_live w)) w).

Definition wg_UpdatePeer (device : string) (cfg : PeerConfig) : M unit :=
  call (WgUpdatePeer device cfg)
    (λ w, set_live (alter (λ _, cfg) (device, cfg_PublicKey cfg) (w_live w)) w).

Definition wg_RemovePeer (device : string) (pubKey : string) : M unit :=
  call (WgRemovePeer device pubKey)
    (λ w, set_live (delete (device, pubKey) (w_live w)) w).

(** Modelled from the spec: the writes of the peer repository, keyed by the
    public key of the record (sections 2 and 6). *)
Definition peers_CreatePeer (p : Peer) : M unit :=
  call (DbCreatePeer p) (λ w, set_peers (<[PublicKey p := p]> (w_peers w)) w).

Definition peers_UpdatePeer (p : Peer) : M unit :=
  call (DbUpdatePeer p) (λ w, set_peers (<[PublicKey p := p]> (w_peers w)) w).

Definition peers_DeletePeer (p : Peer) : M unit :=
  call (DbDeletePeer p) (λ w, set_peers (delete (PublicKey p) (w_peers w)) w).

(** Modelled from the spec: the writes of the user repository, keyed by
    email; [DeleteUser] is a soft delete (sections 3 and 6). *)
Definition users_CreateUser (u : User) : M unit :=
  call (DbCreateUser u) (λ w, set_users (<[usr_Email u := u]> (w_users w)) w).

Definition users_UpdateUser (u : User) : M unit :=
  call (DbUpdateUser u) (λ w, set_users (<[usr_Email u := u]> (w_users w)) w).

Definition users_DeleteUser (u : User) : M unit :=
  call (DbDeleteUser u)
    (λ w, set_users
            (alter (set_usr_DeletedAt (mkDeletedAt (w_clock w (w_step w)) true))
               (usr_Email u) (w_users w)) w).

(** Modelled from the spec: [UserManager.GetOrCreateUser(email)],
    get-or-create by email (section 4.2). *)
Definition users_GetOrCreateUser (email : string) : M User := λ w,
  match GetUserUnscoped w email with
  | Some u => (Ok u, w)
  | None =>
      let u := mkUser email "" "" DeletedAt_zero in
      (users_CreateUser u;; mret u) w
  end.

(** [syscall.Access(dir, syscall.O_RDWR)]. *)
Definition syscall_Access (dir : string) : M unit :=
  call (FsAccess dir) (λ w, w).

(** [ioutil.WriteFile(path, data, 0644)]: [os.OpenFile] with
    [O_WRONLY|O_CREATE|O_TRUNC], then [f.Write(data)], then [f.Close()], and
    the first error of the three is returned.  When the file cannot be
    opened it stays as it was.  Once it is opened it is truncated, so a
    failure of the write or of the close leaves it with the bytes of [data]
    that were written: a prefix of [data], all of it when only the close
    failed. *)
Definition ioutil_WriteFile (path data : string) : M unit := λ w,
  let c := FsWriteFile path data in
  let o := w_fault w (w_step w) c in
  let w1 := set_trace (w_trace w ++ [(c, o)]) (set_step (S (w_step w)) w) in
  match o with
  | None => (Ok tt, set_files (<[path := data]> (w_files w1)) w1)
  | Some e =>
      match w_short w (w_step w) with
      | None => (Err e, w1)
      | Some k =>
          (Err e, set_files (<[path := String.substring 0 k data]> (w_files w1)) w1)
      end
  end.

(** A pure call that returns a value or an error. *)
Definition lift_sum {A} (r : error + A) : M A := λ w,
  match r with
  | inl e => (Err e, w)
  | inr a => (Ok a, w)
  end.

(** ** The server operations *)

Section Server.
Context `{Primitives}.

Definition peers_GetAvailableIp (device pool : string) : M string := λ w,
  lift_sum (GetAvailableIp (w_peers w) device pool) w.

(** The allocation loop of [PrepareNewPeer] and [CreatePeer]:
    [for i := range dev.IPs { freeIP, err := GetAvailableIp(device, dev.IPs[i]); ... ; peer.IPs[i] = freeIP }]. *)
Fixpoint allocate_IPs (device : string) (pools : list string) : M (list string) :=
  match pools with
  | [] => mret []
  | pool :: rest =>
      freeIP ← with_message "failed to get available IP addresses"
                 (peers_GetAvailableIp device pool);
      ips ← allocate_IPs device rest;
      mret (freeIP :: ips)
  end.

(** [WriteWireGuardConfigFile] writes the configuration file for the physical
    WireGuard interface. *)
Definition WriteWireGuardConfigFile (device : string) : M unit :=
  s ← get_world;
  let dir := ConfigDirectoryPath (config s) in
  if bool_decide (dir = "") then skip (* writing disabled *)
  else
    with_message "failed to check WireGuard config access rights"
      (syscall_Access dir);;
    dev ← query (λ w, GetDevice w device);
    activePeers ← query (λ w, GetActivePeers w device);
    cfg ← with_message "failed to get config file"
            (lift_sum (GetConfigFile dev activePeers));
    let filePath := path_Join dir (dev_DeviceName dev +:+ ".conf") in
    with_message "failed to write WireGuard config file"
      (ioutil_WriteFile filePath cfg).

(** [PrepareNewPeer] initiates a new peer for the given WireGuard device. *)
Definition PrepareNewPeer (device : string) : M Peer :=
  dev ← query (λ w, GetDevice w device);
  let peer := Peer_zero in
  let peer := set_IsNew true peer in
  let peer := set_AllowedIPsStr (dev_AllowedIPsStr dev) peer in
  ips ← allocate_IPs device (dev_IPs dev);
  let peer := set_IPs ips peer in
  let peer := set_IPsStr (ListToString (IPs peer)) peer in
  psk ← with_message "failed to generate key" wgtypes_GenerateKey;
  key ← with_message "failed to generate private key" wgtypes_GeneratePrivateKey;
  let peer := set_PresharedKey psk peer in
  let peer := set_PrivateKey key peer in
  let peer := set_PublicKey (PublicKeyOf key) peer in
  let peer := set_UID ("u" +:+ md5_hex (PublicKey peer)) peer in
  mret peer.

(** [CreatePeer] creates the new peer in the database.  If the peer has no
    assigned ip addresses, a new one will be assigned automatically.  Also, if
    the private key is empty, a new key-pair will be generated.  This function
    also configures the new peer on the physical WireGuard interface if the
    peer is not deactivated. *)
Definition CreatePeer (device : string) (peer : Peer) : M unit :=
  dev ← query (λ w, GetDevice w device);
  let peer := set_AllowedIPsStr (dev_AllowedIPsStr dev) peer in
  peer ← (if bool_decide (IPs peer = []) then
            ips ← allocate_IPs device (dev_IPs dev);
            let peer := set_IPs ips peer in
            mret (set_IPsStr (ListToString (IPs peer)) peer)
          else mret peer);
  peer ← (if bool_decide (PrivateKey peer = "") then
            psk ← with_message "failed to generate key" wgtypes_GenerateKey;
            key ← with_message "failed to generate private key"
                    wgtypes_GeneratePrivateKey;
            let peer := set_PresharedKey psk peer in
            let peer := set_PrivateKey key peer in
            mret (set_PublicKey (PublicKeyOf key) peer)
          else mret peer);
  let peer := set_DeviceName (dev_DeviceName dev) peer in
  let peer := set_UID ("u" +:+ md5_hex (PublicKey peer)) peer in
  (* Create WireGuard interface *)
  (if bool_decide (DeactivatedAt peer = None) then
     with_message "failed to add WireGuard peer"
       (wg_AddPeer device (GetConfig peer))
   else skip);;
  (* Create in database *)
  with_message "failed to create peer" (peers_CreatePeer peer);;
  WriteWireGuardConfigFile device.

(** [CreatePeerByEmail] creates a new peer for the given email.  If no user
    with the specified email was found, a new one will be created. *)
Definition CreatePeerByEmail (device email identifierSuffix : string)
    (disabled : bool) : M unit :=
  user ← with_message ("failed to load/create related user " +:+ email)
           (users_GetOrCreateUser email);
  peer ← with_message "failed to prepare new peer" (PrepareNewPeer device);
  let peer := set_Email email peer in
  let peer := set_Identifier
                (usr_Firstname user +:+ " " +:+ usr_Lastname user +:+
                 " (" +:+ identifierSuffix +:+ ")") peer in
  now ← time_Now;
  now_addr ← new_var now;
  let peer := if disabled then set_DeactivatedAt (Some now_addr) peer
              else peer in
  CreatePeer device peer.

(** [UpdatePeer] updates the physical WireGuard interface and the database.
    The parameter [updateTime] is a variable of the call; [&updateTime] is
    its address. *)
Definition UpdatePeer (peer : Peer) (updateTime : time_Time) : M unit :=
  updateTime_addr ← new_var updateTime;
  currentPeer ← query (λ w, GetPeerByKey w (PublicKey peer));
  (* Update WireGuard device *)
  with_message "failed to update WireGuard peer"
    (if ptr_eqb (DeactivatedAt peer) (Some updateTime_addr) then
       wg_RemovePeer (DeviceName peer) (PublicKey peer)
     else if bool_decide (DeactivatedAt peer = None)
             && bool_decide (Peer_live currentPeer ≠ None) then
       wg_UpdatePeer (DeviceName peer) (GetConfig peer)
     else if bool_decide (DeactivatedAt peer = None)
             && bool_decide (Peer_live currentPeer = None) then
       wg_AddPeer (DeviceName peer) (GetConfig peer)
     else skip);;
  (* Update in database *)
  with_message "failed to update peer" (peers_UpdatePeer peer);;
  WriteWireGuardConfigFile (DeviceName peer).

(** [DeletePeer] removes the peer from the physical WireGuard interface and
    the database. *)
Definition DeletePeer (peer : Peer) : M unit :=
  (* Delete WireGuard peer *)
  with_message "failed to remove WireGuard peer"
    (wg_RemovePeer (DeviceName peer) (PublicKey peer));;
  (* Delete in database *)
  with_message "failed to remove peer" (peers_DeletePeer peer);;
  WriteWireGuardConfigFile (DeviceName peer).

(** [RestoreWireGuardInterface] restores the state of the physical WireGuard
    interface from the database. *)
Definition RestoreWireGuardInterface (device : string) : M unit :=
  activePeers ← query (λ w, GetActivePeers w device);
  for_each activePeers (λ p,
    if bool_decide (Peer_live p = None) then
      with_message "failed to add WireGuard peer"
        (wg_AddPeer device (GetConfig p))
    else skip);;
  skip.

(** [DeleteUser] removes the user from the database.  Also, if the user has
    linked WireGuard peers, they will be deactivated. *)
Definition DeleteUser (user : User) : M unit :=
  currentUser ← query (λ w, GetUserUnscoped w (usr_Email user));
  (* Update in database *)
  with_message "failed to delete user in manager" (users_DeleteUser user);;
  (* If user was active, disable it's peers *)
  match currentUser with
  | None => panic "invalid memory address or nil pointer dereference"
  | Some currentUser =>
      if negb (del_Valid (usr_DeletedAt currentUser)) then
        peers ← query (λ w, GetPeersByMail w (usr_Email user));
        for_each peers (λ peer,
          now ← time_Now;
          now_addr ← new_var now;
          let peer := set_DeactivatedAt (Some now_addr) peer in
          on_error (UpdatePeer peer now) (λ err,
            logrus_Errorf ("failed to update deactivated peer " +:+
              PublicKey peer +:+ " for " +:+ usr_Email user +:+ ": " +:+
              error_string err)))
      else skip
  end;;
  skip.

(** [UpdateUser] updates the user in the database.  If the user is marked as
    deleted, it will get remove from the database.  Also, if the user is
    re-enabled, all it's linked WireGuard peers will be activated again. *)
Definition UpdateUser (user : User) : M unit :=
  if del_Valid (usr_DeletedAt user) then DeleteUser user
  else
    currentUser ← query (λ w, GetUserUnscoped w (usr_Email user));
    (* Update in database *)
    with_message "failed to update user in manager" (users_UpdateUser user);;
    (* If user was deleted (disabled), reactivate it's peers *)
    match currentUser with
    | None => panic "invalid memory address or nil pointer dereference"
    | Some currentUser =>
        if del_Valid (usr_DeletedAt currentUser) then
          peers ← query (λ w, GetPeersByMail w (usr_Email user));
          for_each peers (λ peer,
            now ← time_Now;
            let peer := set_DeactivatedAt None peer in
            on_error (UpdatePeer peer now) (λ err,
              logrus_Errorf ("failed to update (re)activated peer " +:+
                PublicKey peer +:+ " for " +:+ usr_Email user +:+ ": " +:+
                error_string err)))
        else skip
    end;;
    skip.

(** [CreateUserDefaultPeer]: a default peer for a user who has none. *)
Definition CreateUserDefaultPeer (email device : string) : M unit :=
  (* Check if user is active, if not, quit *)
  existingUser ← query (λ w, GetUser w email);
  match existingUser with
  | None => skip
  | Some existingUser =>
      s ← get_world;
      (* Check if user already has a peer setup, if not, create one *)
      if CreateDefaultPeer (config s) then
        peers ← query (λ w, GetPeersByMail w email);
        if bool_decide (length peers = 0) then (* Create default vpn peer *)
          with_message ("failed to automatically create vpn peer for " +:+ email)
            (CreatePeer device
               (mkPeer None false "" 
                  (usr_Firstname existingUser +:+ " " +:+
                   usr_Lastname existingUser +:+ " (Default)")
                  (usr_Email existingUser) "" "" [] "" "" "" "" None
                  (usr_Email existingUser) (usr_Email existingUser)))
        else skip
      else skip
  end.

(** [CreateUser] creates the user in the database and optionally adds a
    default WireGuard peer for the user. *)
Definition CreateUser (user : User) (device : string) : M unit :=
  if bool_decide (usr_Email user = "") then
    fail (Cause "cannot create user with empty email address")
  else
    (* Check if user already exists, if so re-enable *)
    existingUser ← query (λ w, GetUserUnscoped w (usr_Email user));
    match existingUser with
    | Some _ =>
        (* reset deleted flag to enable that user again *)
        let user := set_usr_DeletedAt DeletedAt_zero user in
        UpdateUser user
    | None =>
        (* Create user in database *)
        with_message "failed to create user in manager" (users_CreateUser user);;
        (* Check if user already has a peer setup, if not, create one *)
        CreateUserDefaultPeer (usr_Email user) device
    end.

End Server.

(** * Vocabulary of the statements *)

(** The collaborator calls issued between two worlds. *)
Definition new_events (w w' : World) : list Event :=
  drop (length (w_trace w)) (w_trace w').

(** What no operation writes: the configuration, the device repository and
    the oracles. *)
Definition same_env (w w' : World) : Prop :=
  config w' = config w ∧ w_devices w' = w_devices w ∧
  w_fault w' = w_fault w ∧ w_rand w' = w_rand w ∧ w_clock w' = w_clock w ∧
  w_short w' = w_short w.

(** Calls to the file system. *)
Definition is_fs_call (c : Call) : bool :=
  match c with
  | FsAccess _ | FsWriteFile _ _ => true
  | _ => false
  end.

(** The repository is keyed by the public key of its records. *)
Definition keyed_by_PublicKey (peers : gmap string Peer) : Prop :=
  ∀ k p, peers !! k = Some p → PublicKey p = k.

Section Phases.
Context `{Primitives}.

(** [CreatePeer] runs in two phases.  First the peer is completed: allowed
    IPs, addresses, keys, device name and UID. *)
Definition CreatePeer_draft (device : string) (peer : Peer) : M Peer :=
  dev ← query (λ w, GetDevice w device);
  let peer := set_AllowedIPsStr (dev_AllowedIPsStr dev) peer in
  peer ← (if bool_decide (IPs peer = []) then
            ips ← allocate_IPs device (dev_IPs dev);
            let peer := set_IPs ips peer in
            mret (set_IPsStr (ListToString (IPs peer)) peer)
          else mret peer);
  peer ← (if bool_decide (PrivateKey peer = "") then
            psk ← with_message "failed to generate key" wgtypes_GenerateKey;
            key ← with_message "failed to generate private key"
                    wgtypes_GeneratePrivateKey;
            let peer := set_PresharedKey psk peer in
            let peer := set_PrivateKey key peer in
            mret (set_PublicKey (PublicKeyOf key) peer)
          else mret peer);
  let peer := set_DeviceName (dev_DeviceName dev) peer in
  let peer := set_UID ("u" +:+ md5_hex (PublicKey peer)) peer in
  mret peer.

(** Then the completed peer is pushed to the interface, persisted, and the
    configuration file is rewritten. *)
Definition CreatePeer_commit (device : string) (peer : Peer) : M unit :=
  (if bool_decide (DeactivatedAt peer = None) then
     with_message "failed to add WireGuard peer"
       (wg_AddPeer device (GetConfig peer))
   else skip);;
  with_message "failed to create peer" (peers_CreatePeer peer);;
  WriteWireGuardConfigFile device.

(** The addresses [ips] are those the allocator returns for [pools], one per
    pool and in the order of the pools. *)
Definition allocated (peers : gmap string Peer) (device : string)
    (pools ips : list string) : Prop :=
  Forall2 (λ pool ip, GetAvailableIp peers device pool = inr ip) pools ips.

(** What [CreatePeer_draft] yields from [peer] in world [w]. *)
Definition drafted (device : string) (peer : Peer) (w : World) (p : Peer) : Prop :=
  let dev := GetDevice w device in
  AllowedIPsStr p = dev_AllowedIPsStr dev ∧
  DeviceName p = dev_DeviceName dev ∧
  UID p = "u" +:+ md5_hex (PublicKey p) ∧
  DeactivatedAt p = DeactivatedAt peer ∧
  Email p = Email peer ∧ Identifier p = Identifier peer ∧
  (if bool_decide (IPs peer = []) then
     allocated (w_peers w) device (dev_IPs dev) (IPs p) ∧
     IPsStr p = ListToString (IPs p)
   else IPs p = IPs peer ∧ IPsStr p = IPsStr peer) ∧
  (if bool_decide (PrivateKey peer = "") then
     ∃ psk key,
       w_rand w (w_step w) = Some psk ∧ w_rand w (S (w_step w)) = Some key ∧
       PresharedKey p = psk ∧ PrivateKey p = key ∧ PublicKey p = PublicKeyOf key
   else PrivateKey p = PrivateKey peer ∧ PublicKey p = PublicKey peer ∧
        PresharedKey p = PresharedKey peer).

(** The completion of [peer] by [CreatePeer] fails in [w]: the peer has no
    addresses and the allocation fails for a pool of the device, or the peer
    has no private key and the random source fails for one of the two
    keys. *)
Definition preparation_fails (device : string) (peer : Peer) (w : World) : Prop :=
  (IPs peer = [] ∧
   ∃ pool e, pool ∈ dev_IPs (GetDevice w device) ∧
             GetAvailableIp (w_peers w) device pool = inl e) ∨
  (PrivateKey peer = "" ∧
   (w_rand w (w_step w) = None ∨ w_rand w (S (w_step w)) = None)).

(** The step at which [CreatePeer] issues its first collaborator call in
    [w]: the two key generations, if any, come before it. *)
Definition first_call_step (peer : Peer) (w : World) : nat :=
  if bool_decide (PrivateKey peer = "") then S (S (w_step w)) else w_step w.

(** The rewrite of the configuration file of [device] cannot fail in [w]:
    writing is disabled, or the file system accepts every call and the
    renderer renders the device whatever its peers. *)
Definition config_file_writable (device : string) (w : World) : Prop :=
  ConfigDirectoryPath (config w) = "" ∨
  ((∀ n c, is_fs_call c = true → w_fault w n c = None) ∧
   ∀ peers, ∃ cfg, GetConfigFile (GetDevice w device) peers = inr cfg).

(** The three ways [CreatePeer_commit] of peer [p] can go: the interface
    push fails; the repository write fails after the push; both succeed and
    the configuration file is rewritten. *)
Definition commit_outcome (device : string) (p : Peer) (w w' : World)
    (r : result unit) (evs : list Event) : Prop :=
  let add := WgAddPeer device (GetConfig p) in
  let pushed := if bool_decide (DeactivatedAt p = None)
                then [(add, None)] else [] in
  let live_after := if bool_decide (DeactivatedAt p = None)
                    then <[(device, PublicKey p) := GetConfig p]> (w_live w)
                    else w_live w in
  (DeactivatedAt p = None ∧
   ∃ e, evs = [(add, Some e)] ∧
        r = Err (Wrap "failed to add WireGuard peer" e) ∧
        w_peers w' = w_peers w ∧ w_live w' = w_live w ∧
        ∃ n, w_fault w n add = Some e) ∨
  (∃ e, evs = pushed ++ [(DbCreatePeer p, Some e)] ∧
        r = Err (Wrap "failed to create peer" e) ∧
        w_peers w' = w_peers w ∧ w_live w' = live_after ∧
        ∃ n, w_fault w n (DbCreatePeer p) = Some e) ∨
  (∃ fs, evs = pushed ++ [(DbCreatePeer p, None)] ++ fs ∧
         Forall (λ ev, is_fs_call ev.1 = true) fs ∧
         (r = Ok tt ∨ ∃ e, r = Err e) ∧
         w_peers w' = <[PublicKey p := p]> (w_peers w) ∧
         w_live w' = live_after).

(** What a successful call of the interface controller does to the live
    peers. *)
Definition wg_effect (c : Call) (live : gmap (string * string) PeerConfig)
    : gmap (string * string) PeerConfig :=
  match c with
  | WgAddPeer d cfg => <[(d, cfg_PublicKey cfg) := cfg]> live
  | WgUpdatePeer d cfg => alter (λ _, cfg) (d, cfg_PublicKey cfg) live
  | WgRemovePeer d k => delete (d, k) live
  | _ => live
  end.

(** The call of the interface controller that [UpdatePeer] decides on. *)
Definition UpdatePeer_call (peer : Peer) (updateTime : time_Time) (w : World)
    : option Call :=
  if ptr_eqb (DeactivatedAt peer) (Some (mkTimePtr (w_next_addr w) updateTime))
  then Some (WgRemovePeer (DeviceName peer) (PublicKey peer))
  else if bool_decide (DeactivatedAt peer = None) then
    if bool_decide (Peer_live (GetPeerByKey w (PublicKey peer)) ≠ None)
    then Some (WgUpdatePeer (DeviceName peer) (GetConfig peer))
    else Some (WgAddPeer (DeviceName peer) (GetConfig peer))
  else None.

(** The three ways [UpdatePeer] can go once it has decided on the call [c]
    of the interface controller (or on none): that call fails; the
    repository write fails after it; both succeed and the configuration file
    is rewritten. *)
Definition update_outcome (peer : Peer) (c : option Call) (w w' : World)
    (r : result unit) (evs : list Event) : Prop :=
  let called := match c with Some c => [(c, None)] | None => [] end in
  let live_after := match c with
                    | Some c => wg_effect c (w_live w)
                    | None => w_live w
                    end in
  (∃ c0 e, c = Some c0 ∧ evs = [(c0, Some e)] ∧
           r = Err (Wrap "failed to update WireGuard peer" e) ∧
           w_peers w' = w_peers w ∧ w_live w' = w_live w ∧
           ∃ n, w_fault w n c0 = Some e) ∨
  (∃ e, evs = called ++ [(DbUpdatePeer peer, Some e)] ∧
        r = Err (Wrap "failed to update peer" e) ∧
        w_peers w' = w_peers w ∧ w_live w' = live_after ∧
        ∃ n, w_fault w n (DbUpdatePeer peer) = Some e) ∨
  (∃ fs, evs = called ++ [(DbUpdatePeer peer, None)] ++ fs ∧
         Forall (λ ev, is_fs_call ev.1 = true) fs ∧
         (r = Ok tt ∨ ∃ e, r = Err e) ∧
         w_peers w' = <[PublicKey peer := peer]> (w_peers w) ∧
         w_live w' = live_after).

End Phases.

(** ** Sample worlds *)

(** Sample library functions: symbolic keys and digests, an allocator that
    hands out the first address of a pool not yet assigned on the device. *)
Definition demo_allocator (peers : gmap string Peer) (device pool : string)
    : error + string :=
  let ip := pool +:+ "#" +:+ pretty (size peers) in
  inr ip.

#[local] Instance demo : Primitives := {|
  ListToString := λ l, foldr (λ s acc, s +:+ ";" +:+ acc) "" l;
  md5_hex := λ s, "md5(" +:+ s +:+ ")";
  PublicKeyOf := λ s, "pub(" +:+ s +:+ ")";
  GetAvailableIp := demo_allocator;
  GetConfigFile := λ d ps, inr ("[Interface] " +:+ dev_DeviceName d);
  path_Join := λ a b, a +:+ "/" +:+ b;
|}.

(** An allocator whose pools are exhausted. *)
Definition demo_exhausted : Primitives := {|
  ListToString := ListToString;
  md5_hex := md5_hex;
  PublicKeyOf := PublicKeyOf;
  GetAvailableIp := λ _ _ _, inl (Cause "no more available ip addresses");
  GetConfigFile := GetConfigFile;
  path_Join := path_Join;
|}.

(** One device [wg0] with one pool, empty repositories, an empty interface,
    collaborators that never fail, and a random source that alternates
    between two keys. *)
Definition demo_world : World := {|
  config := mkConfig "/etc/wireguard" true;
  w_devices := [mkDevice "wg0" ["10.0.0.0/24"] "10.0.0.0/24"];
  w_peers := ∅;
  w_users := ∅;
  w_live := ∅;
  w_files := ∅;
  w_fault := λ _ _, None;
  w_rand := λ n, Some (if Nat.even n then "K0" else "K1");
  w_clock := λ n, Z.of_nat (1000 + n);
  w_short := λ _, None;
  w_step := 0;
  w_next_addr := 0;
  w_trace := [];
|}.

Definition set_fault (f : nat → Call → option error) (w : World) : World :=
  mkWorld (config w) (w_devices w) (w_peers w) (w_users w) (w_live w) (w_files w)
    f (w_rand w) (w_clock w) (w_short w) (w_step w) (w_next_addr w) (w_trace w).

Definition set_rand (f : nat → option string) (w : World) : World :=
  mkWorld (config w) (w_devices w) (w_peers w) (w_users w) (w_live w) (w_files w)
    (w_fault w) f (w_clock w) (w_short w) (w_step w) (w_next_addr w) (w_trace w).

Definition set_short (f : nat → option nat) (w : World) : World :=
  mkWorld (config w) (w_devices w) (w_peers w) (w_users w) (w_live w) (w_files w)
    (w_fault w) (w_rand w) (w_clock w) f (w_step w) (w_next_addr w) (w_trace w).

(** The interface controller refuses every [AddPeer]. *)
Definition AddPeer_fails (n : nat) (c : Call) : option error :=
  match c with
  | WgAddPeer _ _ => Some (Cause "operation not permitted")
  | _ => None
  end.

(** An active peer of [wg0] with its own key pair. *)
Definition demo_peer (name : string) : Peer := {|
  Peer_live := None; IsNew := false; DeviceName := "wg0";
  Identifier := name; Email := name +:+ "@example.org"; UID := "";
  AllowedIPsStr := ""; IPs := []; IPsStr := "";
  PrivateKey := "priv-" +:+ name; PublicKey := "pub-" +:+ name;
  PresharedKey := "psk-" +:+ name; DeactivatedAt := None;
  CreatedBy := ""; UpdatedBy := "";
|}.

(** A peer managed elsewhere: a public key and no private key. *)
Definition foreign_peer : Peer := {|
  Peer_live := None; IsNew := false; DeviceName := "";
  Identifier := "laptop"; Email := "bob@example.org"; UID := "";
  AllowedIPsStr := ""; IPs := []; IPsStr := "";
  PrivateKey := ""; PublicKey := "pub-foreign";
  PresharedKey := ""; DeactivatedAt := None;
  CreatedBy := ""; UpdatedBy := "";
|}.

(** ** Vocabulary for [RestoreWireGuardInterface] *)

(** The body of the loop of [RestoreWireGuardInterface]. *)
Definition restore_step (device : string) (p : Peer) : M unit :=
  if bool_decide (Peer_live p = None) then
    with_message "failed to add WireGuard peer"
      (wg_AddPeer device (GetConfig p))
  else skip.

(** The peers of a list that the interface does not know. *)
Definition absent (l : list Peer) : list Peer :=
  filter (λ p, Peer_live p = None) l.

(** The successful [AddPeer] calls for the peers of a list, in order. *)
Definition added (device : string) (l : list Peer) : list Event :=
  (λ q, (WgAddPeer device (GetConfig q), None)) <$> l.

(** The live peers once the peers of a list are added to the device. *)
Definition live_with (device : string) (l : list Peer)
    (live : gmap (string * string) PeerConfig)
    : gmap (string * string) PeerConfig :=
  foldl (λ m q, <[(device, PublicKey q) := GetConfig q]> m) live l.

(** The reading of [RestoreWireGuardInterface] as idempotent whatever the
    interface controller answers: a second run leaves the live peers of the
    first, and after one run every active peer that was absent is live. *)
Definition restore_idempotent (device : string) (w : World) : Prop :=
  let w1 := (RestoreWireGuardInterface device w).2 in
  let w2 := (RestoreWireGuardInterface device w1).2 in
  w_live w2 = w_live w1 ∧
  ∀ p, p ∈ GetActivePeers w device → Peer_live p = None →
       is_Some (w_live w1 !! (device, PublicKey p)).

(** The repository holds the active peer [alice] of [wg0]; the interface is
    empty. *)
Definition alice : Peer := demo_peer "alice".

Definition world_alice_offline : World :=
  set_peers {[ "pub-alice" := alice ]} demo_world.

(** The same repository, with [alice] on the live interface of [wg0]. *)
Definition world_alice_live : World :=
  set_live {[ ("wg0", "pub-alice") := GetConfig alice ]} world_alice_offline.

(** The user [bob], and his record once soft-deleted. *)
Definition bob : User := mkUser "bob@example.org" "Bob" "Builder" DeletedAt_zero.

Definition bob_deleted : User :=
  mkUser "bob@example.org" "Bob" "Builder" (mkDeletedAt 900%Z true).

(** The peer of [bob], deactivated at time 900 through the variable at
    address 0. *)
Definition bob_peer : Peer :=
  set_DeactivatedAt (Some (mkTimePtr 0 900%Z)) (demo_peer "bob").

(** [bob] is soft-deleted; the repository holds his deactivated peer; the
    interface is empty. *)
Definition world_bob_deleted : World :=
  set_users {[ "bob@example.org" := bob_deleted ]}
    (set_peers {[ "pub-bob" := bob_peer ]} (set_next_addr 1 demo_world)).

(** [bob] is active; the repository holds his active peer, which is live on
    [wg0]. *)
Definition world_bob_active : World :=
  set_users {[ "bob@example.org" := bob ]}
    (set_live {[ ("wg0", "pub-bob") := GetConfig (demo_peer "bob") ]}
       (set_peers {[ "pub-bob" := demo_peer "bob" ]} demo_world)).

(** A peer that comes with an address and its keys. *)
Definition carol : Peer := set_IPs ["10.0.0.9/32"] (demo_peer "carol").

(** The peer repository refuses every [CreatePeer]. *)
Definition DbCreatePeer_fails (n : nat) (c : Call) : option error :=
  match c with
  | DbCreatePeer _ => Some (Cause "database is locked")
  | _ => None
  end.

(** The interface controller refuses every [RemovePeer]. *)
Definition RemovePeer_fails (n : nat) (c : Call) : option error :=
  match c with
  | WgRemovePeer _ _ => Some (Cause "operation not permitted")
  | _ => None
  end.

(** The file system refuses every write. *)
Definition WriteFile_fails (n : nat) (c : Call) : option error :=
  match c with
  | FsWriteFile _ _ => Some (Cause "no space left on device")
  | _ => None
  end.

(** The configuration file of [wg0] exists, and a write to it fails after
    five bytes. *)
Definition world_disk_full : World :=
  set_short (λ _, Some 5)
    (set_fault WriteFile_fails
       (set_files {[ "/etc/wireguard/wg0.conf" := "[Interface] old" ]}
          demo_world)).

(** The interface controller refuses the call issued at step 0 and accepts
    the later ones. *)
Definition fails_once (n : nat) (c : Call) : option error :=
  match n with
  | 0 => Some (Cause "device or resource busy")
  | _ => None
  end.

(** ** Vocabulary for the user operations *)


(** Calls that create a user record. *)
Definition is_user_create (c : Call) : bool :=
  match c with
  | DbCreateUser _ => true
  | _ => false
  end.

(** Calls to the interface controller. *)
Definition is_wg_call (c : Call) : bool :=
  match c with
  | WgAddPeer _ _ | WgUpdatePeer _ _ | WgRemovePeer _ _ => true
  | _ => false
  end.

(** The call of the interface controller that [UpdatePeer] issues for an
    active peer: an update in place when the repository's view of the peer
    is live, an add otherwise. *)
Definition active_call (peer : Peer) (w : World) : Call :=
  if bool_decide (Peer_live (GetPeerByKey w (PublicKey peer)) ≠ None)
  then WgUpdatePeer (DeviceName peer) (GetConfig peer)
  else WgAddPeer (DeviceName peer) (GetConfig peer).

(** Calls that take a peer off an interface. *)
Definition is_remove (c : Call) : bool :=
  match c with
  | WgRemovePeer _ _ => true
  | _ => false
  end.

(** Neither the interface controller nor the repository ever fails a call
    that pushes or persists the peer [p]. *)
Definition calls_succeed (w : World) (p : Peer) : Prop :=
  ∀ n, w_fault w n (WgAddPeer (DeviceName p) (GetConfig p)) = None ∧
       w_fault w n (WgUpdatePeer (DeviceName p) (GetConfig p)) = None ∧
       w_fault w n (DbUpdatePeer p) = None.

(** The record that the repository holds under the key of [q], if any, is
    a record of the same device and key. *)
Definition row_matches (w : World) (q : Peer) : Prop :=
  ∀ row, w_peers w !! PublicKey q = Some row →
         DeviceName row = DeviceName q ∧ PublicKey row = PublicKey q.

Section Statements.
Context `{Primitives}.

(** The reading of [CreatePeer] under which a peer that comes with a public
    key and no private key keeps its public key: whatever the run pushes or
    persists carries the public key of the input. *)
Definition keeps_supplied_key (device : string) (peer : Peer) (w : World) : Prop :=
  let '(r, w') := CreatePeer device peer w in
  (∀ p o, (DbCreatePeer p, o) ∈ new_events w w' → PublicKey p = PublicKey peer) ∧
  (∀ d c o, (WgAddPeer d c, o) ∈ new_events w w' → cfg_PublicKey c = PublicKey peer).

(** [CreatePeerByEmail] once the user is loaded or created. *)
Definition CreatePeerByEmail_tail (device email identifierSuffix : string)
    (disabled : bool) (user : User) : M unit :=
  peer ← with_message "failed to prepare new peer" (PrepareNewPeer device);
  let peer := set_Email email peer in
  let peer := set_Identifier
                (usr_Firstname user +:+ " " +:+ usr_Lastname user +:+
                 " (" +:+ identifierSuffix +:+ ")") peer in
  now ← time_Now;
  now_addr ← new_var now;
  let peer := if disabled then set_DeactivatedAt (Some now_addr) peer
              else peer in
  CreatePeer device peer.

(** The body of the reactivation loop of [UpdateUser]. *)
Definition reactivate_step (email : string) (peer : Peer) : M unit :=
  now ← time_Now;
  let peer := set_DeactivatedAt None peer in
  on_error (UpdatePeer peer now) (λ err,
    logrus_Errorf ("failed to update (re)activated peer " +:+
      PublicKey peer +:+ " for " +:+ email +:+ ": " +:+
      error_string err)).

(** The body of the deactivation loop of [DeleteUser]. *)
Definition deactivate_step (email : string) (peer : Peer) : M unit :=
  now ← time_Now;
  now_addr ← new_var now;
  let peer := set_DeactivatedAt (Some now_addr) peer in
  on_error (UpdatePeer peer now) (λ err,
    logrus_Errorf ("failed to update deactivated peer " +:+
      PublicKey peer +:+ " for " +:+ email +:+ ": " +:+
      error_string err)).

End Statements.

(** * Properties of the server operations *)

Lemma same_env_refl w : same_env w w.
Proof. by repeat split. Qed.

Lemma same_env_trans w1 w2 w3 : same_env w1 w2 → same_env w2 w3 → same_env w1 w3.
Proof. unfold same_env. intros (?&?&?&?&?&?) (?&?&?&?&?&?). repeat split; congruence. Qed.

Lemma new_events_app w w' evs :
  w_trace w' = w_trace w ++ evs → new_events w w' = evs.
Proof. unfold new_events. intros ->. apply drop_app_length. Qed.

Lemma new_events_refl w : new_events w w = [].
Proof. unfold new_events. by rewrite drop_all. Qed.

(** Close a goal [w_trace w' = w_trace w ++ ?evs] on an explicit trace. *)
Ltac trace_ext :=
  simpl; rewrite <- ?app_assoc;
  first [ reflexivity | symmetry; apply app_nil_r ].

(** Case analysis on [Hin : ev ∈ e1 :: ... :: en :: fs], where [fs] holds
    file-system calls only. *)
Ltac elem_cases Hin :=
  repeat (apply elem_of_cons in Hin as [Hin|Hin]; [simplify_eq; try done|]);
  try (by apply not_elem_of_nil in Hin);
  try (match goal with
       | Hfs : Forall (λ ev, is_fs_call ev.1 = true) ?fs |- _ =>
           apply (proj1 (Forall_forall _ _) Hfs) in Hin; done
       end).

Ltac unfold_monad :=
  unfold with_message, on_error, call, query, get_world, lift_sum, skip, fail,
    panic, mbind, M_bind, mret, M_ret in *.

Section Properties.
Context `{Primitives}.

(** ** [WriteWireGuardConfigFile] *)

(** Writing the configuration file touches no repository and no interface,
    calls the file system only, and does not panic. *)
Lemma WriteWireGuardConfigFile_frame device w :
  let '(r, w') := WriteWireGuardConfigFile device w in
  same_env w w' ∧ w_peers w' = w_peers w ∧ w_live w' = w_live w ∧
  w_users w' = w_users w ∧ w_next_addr w' = w_next_addr w ∧
  (∃ evs, w_trace w' = w_trace w ++ evs ∧
          Forall (λ ev, is_fs_call ev.1 = true) evs) ∧
  (∀ msg, r ≠ Panic msg).
Proof.
  unfold WriteWireGuardConfigFile, syscall_Access, ioutil_WriteFile.
  unfold_monad.
  repeat (case_match; simplify_eq/=);
    (repeat split; try done;
     [eexists; split; [trace_ext | repeat constructor]]).
Qed.

(** The rewrite of the configuration file succeeds when it cannot fail. *)
Lemma WriteWireGuardConfigFile_succeeds device w :
  config_file_writable device w →
  (WriteWireGuardConfigFile device w).1 = Ok tt.
Proof.
  unfold config_file_writable, WriteWireGuardConfigFile, syscall_Access,
    ioutil_WriteFile.
  unfold_monad. cbv beta iota zeta. intros [Hdir | [Hfs Hren]].
  - by rewrite bool_decide_eq_true_2.
  - case_bool_decide; [done|]. rewrite Hfs by done. simpl.
    unfold GetDevice at 1. simpl. fold (GetDevice w device).
    match goal with |- context [GetConfigFile _ ?ps] =>
      destruct (Hren ps) as [cfg ->] end.
    simpl. by rewrite Hfs.
Qed.

(** A collaborator call followed by the rewrite of the configuration file,
    as [CreatePeer], [UpdatePeer] and [DeletePeer] end. *)
Lemma call_then_WriteWireGuardConfigFile msg c eff device w :
  let o := w_fault w (w_step w) c in
  let w0 := set_trace (w_trace w ++ [(c, o)]) (set_step (S (w_step w)) w) in
  let '(r, w') :=
    (with_message msg (call c eff);; WriteWireGuardConfigFile device) w in
  match o with
  | Some e => r = Err (Wrap msg e) ∧ w' = w0
  | None =>
      same_env (eff w0) w' ∧ w_peers w' = w_peers (eff w0) ∧
      w_live w' = w_live (eff w0) ∧ w_users w' = w_users (eff w0) ∧
      w_next_addr w' = w_next_addr (eff w0) ∧
      (∃ fs, w_trace w' = w_trace (eff w0) ++ fs ∧
             Forall (λ ev, is_fs_call ev.1 = true) fs) ∧
      (∀ m, r ≠ Panic m) ∧
      (config_file_writable device (eff w0) → r = Ok tt)
  end.
Proof.
  intros o w0. subst o w0.
  unfold mbind, M_bind, with_message, call. cbv beta iota zeta.
  destruct (w_fault w (w_step w) c) as [e|] eqn:E; [done|].
  match goal with |- context [WriteWireGuardConfigFile device ?w1] =>
    pose proof (WriteWireGuardConfigFile_frame device w1) as HW;
    pose proof (WriteWireGuardConfigFile_succeeds device w1) as HS;
    destruct (WriteWireGuardConfigFile device w1) as [r w'] end.
  destruct HW as (Henv & Hp & Hl & Hu & Hn & Hfs & Hnp). simpl in HS.
  split_and!; done.
Qed.

(** ** The allocation loop *)

(** The loop reads the repository and writes nothing. *)
Lemma allocate_IPs_world device pools w :
  (allocate_IPs device pools w).2 = w.
Proof.
  induction pools as [|pool rest IH]; [done|].
  simpl. unfold peers_GetAvailableIp. unfold_monad.
  destruct (GetAvailableIp _ _ _); [done|].
  destruct (allocate_IPs device rest w) as [[ips|e|msg] w1]; simpl in *; by subst.
Qed.

(** It yields one address per pool, in pool order, or the wrapped error of
    the first pool whose allocation fails. *)
Lemma allocate_IPs_result device pools w :
  match (allocate_IPs device pools w).1 with
  | Ok ips => allocated (w_peers w) device pools ips
  | Err e =>
      ∃ pool e0, pool ∈ pools ∧ GetAvailableIp (w_peers w) device pool = inl e0 ∧
                 e = Wrap "failed to get available IP addresses" e0
  | Panic _ => False
  end.
Proof.
  induction pools as [|pool rest IH]; [by constructor|].
  simpl. unfold peers_GetAvailableIp. unfold_monad.
  destruct (GetAvailableIp (w_peers w) device pool) as [e0|ip] eqn:E.
  - exists pool, e0. split; [left|done].
  - pose proof (allocate_IPs_world device rest w) as Hw.
    destruct (allocate_IPs device rest w) as [[ips|e|msg] w1]; simpl in *; subst.
    + by constructor.
    + destruct IH as (pool' & e0 & Hin & Hf & ->).
      exists pool', e0. split; [by right|done].
    + done.
Qed.

Lemma allocate_IPs_ok_iff device pools w :
  (∃ ips, (allocate_IPs device pools w).1 = Ok ips) ↔
  Forall (λ pool, ∃ ip, GetAvailableIp (w_peers w) device pool = inr ip) pools.
Proof.
  induction pools as [|pool rest IH].
  { split; [by constructor | by exists []]. }
  simpl. unfold peers_GetAvailableIp. unfold_monad.
  rewrite Forall_cons.
  destruct (GetAvailableIp (w_peers w) device pool) as [e0|ip] eqn:E.
  - split; [by intros [? ?] | by intros [[? ?] _]].
  - pose proof (allocate_IPs_world device rest w) as Hw.
    destruct (allocate_IPs device rest w) as [[ips|e|msg] w1]; simpl in *; subst.
    + split; [intros _; split; [by eexists|apply IH; by eexists] | by eexists].
    + split; [by intros [? ?] | intros [_ [? ?]%IH]; done].
    + split; [by intros [? ?] | intros [_ [? ?]%IH]; done].
Qed.

Lemma allocated_length peers device pools ips :
  allocated peers device pools ips → length ips = length pools.
Proof. intros Ha. symmetry. exact (Forall2_length _ _ _ Ha). Qed.

Lemma allocated_pool peers device pools ips pool :
  allocated peers device pools ips → pool ∈ pools →
  ∃ ip, GetAvailableIp peers device pool = inr ip.
Proof.
  induction 1 as [|q ip pools ips Hq _ IH]; intros Hin.
  - by apply not_elem_of_nil in Hin.
  - apply elem_of_cons in Hin as [->|Hin]; [by exists ip | by apply IH].
Qed.

(** ** [CreatePeer] *)

Lemma CreatePeer_phases device peer w :
  CreatePeer device peer w =
  (p ← CreatePeer_draft device peer; CreatePeer_commit device p) w.
Proof.
  unfold CreatePeer, CreatePeer_draft, CreatePeer_commit.
  unfold_monad.
  repeat (case_match; simplify_eq/=); try done; congruence.
Qed.

Lemma set_step_id w : set_step (w_step w) w = w.
Proof. by destruct w. Qed.

(** The first phase moves the step counter only, and does not panic. *)
Lemma CreatePeer_draft_spec device peer w :
  let '(r, w') := CreatePeer_draft device peer w in
  w' = set_step (w_step w') w ∧
  match r with
  | Ok p => drafted device peer w p
  | Err _ => True
  | Panic _ => False
  end.
Proof.
  unfold CreatePeer_draft, drafted, wgtypes_GeneratePrivateKey, wgtypes_GenerateKey.
  pose proof (allocate_IPs_world device (dev_IPs (GetDevice w device)) w) as Hw.
  pose proof (allocate_IPs_result device (dev_IPs (GetDevice w device)) w) as Hr.
  unfold_monad.
  repeat (case_match; simplify_eq/=);
    repeat match goal with
           | Heq : allocate_IPs _ _ _ = _ |- _ =>
               rewrite Heq in Hw, Hr; clear Heq
           end;
    simpl in *; subst;
    rewrite ?set_step_id; repeat split; eauto 10.
Qed.

(** The first phase succeeds unless the preparation fails, and then it has
    moved the step counter past the key generations. *)
Lemma CreatePeer_draft_outcome device peer w :
  let '(r, w') := CreatePeer_draft device peer w in
  (preparation_fails device peer w → ∃ e, r = Err e) ∧
  (¬ preparation_fails device peer w →
     ∃ p, r = Ok p ∧ w' = set_step (first_call_step peer w) w).
Proof.
  unfold CreatePeer_draft, preparation_fails, first_call_step,
    wgtypes_GeneratePrivateKey, wgtypes_GenerateKey.
  pose proof (allocate_IPs_world device (dev_IPs (GetDevice w device)) w) as Hw.
  pose proof (allocate_IPs_result device (dev_IPs (GetDevice w device)) w) as Hr.
  unfold_monad. cbv beta iota zeta. simpl.
  destruct (bool_decide (IPs peer = [])) eqn:Hips.
  - apply bool_decide_eq_true in Hips.
    destruct (allocate_IPs device (dev_IPs (GetDevice w device)) w)
      as [[ips|e|msg] wa]; simpl in Hw, Hr; subst wa; [| |done].
    + simpl. destruct (bool_decide (PrivateKey peer = "")) eqn:Hkey.
      * apply bool_decide_eq_true in Hkey.
        destruct (w_rand w (w_step w)) as [psk|] eqn:E1; simpl.
        -- destruct (w_rand w (S (w_step w))) as [key|] eqn:E2; simpl.
           ++ split.
              ** intros [(_ & pool & e & Hin & Hf) | (_ & [?|?])]; try done.
                 destruct (allocated_pool _ _ _ _ _ Hr Hin) as [ip Hip]. congruence.
              ** intros _. eexists. split; [done|]. by destruct w.
           ++ split; [by eexists|]. intros Hn. destruct Hn. right. auto.
        -- split; [by eexists|]. intros Hn. destruct Hn. right. auto.
      * apply bool_decide_eq_false in Hkey. split.
        -- intros [(_ & pool & e & Hin & Hf) | (? & _)]; try done.
           destruct (allocated_pool _ _ _ _ _ Hr Hin) as [ip Hip]. congruence.
        -- intros _. eexists. split; [done|]. by destruct w.
    + destruct Hr as (pool & e0 & Hin & Hf & ->).
      split; [by eexists|]. intros Hn. destruct Hn. left. eauto.
  - apply bool_decide_eq_false in Hips. simpl.
    destruct (bool_decide (PrivateKey peer = "")) eqn:Hkey.
    + apply bool_decide_eq_true in Hkey.
      destruct (w_rand w (w_step w)) as [psk|] eqn:E1; simpl.
      * destruct (w_rand w (S (w_step w))) as [key|] eqn:E2; simpl.
        -- split.
           ++ intros [(? & _) | (_ & [?|?])]; done.
           ++ intros _. eexists. split; [done|]. by destruct w.
        -- split; [by eexists|]. intros Hn. destruct Hn. right. auto.
      * split; [by eexists|]. intros Hn. destruct Hn. right. auto.
    + apply bool_decide_eq_false in Hkey. split.
      * intros [(? & _) | (? & _)]; done.
      * intros _. eexists. split; [done|]. by destruct w.
Qed.

(** The second phase, case by case. *)
Lemma CreatePeer_commit_spec device p w :
  let '(r, w') := CreatePeer_commit device p w in
  same_env w w' ∧ w_users w' = w_users w ∧ (∀ msg, r ≠ Panic msg) ∧
  ∃ evs, w_trace w' = w_trace w ++ evs ∧ commit_outcome device p w w' r evs.
Proof.
  unfold CreatePeer_commit, wg_AddPeer, peers_CreatePeer, commit_outcome.
  unfold_monad.
  destruct (bool_decide (DeactivatedAt p = None)) eqn:Hact;
    [apply bool_decide_eq_true in Hact|]; simpl.
  - destruct (w_fault w (w_step w) (WgAddPeer device (GetConfig p))) as [e|] eqn:E1.
    { repeat split; try done. eexists; split; [trace_ext|]. left. eauto 10. }
    destruct (w_fault w (S (w_step w)) (DbCreatePeer p)) as [e|] eqn:E2; simpl;
      rewrite E2.
    { repeat split; try done. eexists; split; [trace_ext|]. right; left. eauto 10. }
    match goal with |- context [WriteWireGuardConfigFile device ?w1] =>
      pose proof (WriteWireGuardConfigFile_frame device w1) as HW;
      destruct (WriteWireGuardConfigFile device w1) as [r w'] end.
    destruct HW as (Henv & Hp & Hl & Hu & _ & (fs & Ht & Hfs) & Hnp).
    simpl in *. repeat split; try (apply Henv || done).
    eexists; split; [rewrite Ht; trace_ext|]. right; right.
    exists fs. repeat split; try done.
    destruct r; [destruct a; by left | right; by eexists | by destruct (Hnp msg)].
  - destruct (w_fault w (w_step w) (DbCreatePeer p)) as [e|] eqn:E2.
    { repeat split; try done. eexists; split; [trace_ext|]. right; left. eauto 10. }
    match goal with |- context [WriteWireGuardConfigFile device ?w1] =>
      pose proof (WriteWireGuardConfigFile_frame device w1) as HW;
      destruct (WriteWireGuardConfigFile device w1) as [r w'] end.
    destruct HW as (Henv & Hp & Hl & Hu & _ & (fs & Ht & Hfs) & Hnp).
    simpl in *. repeat split; try (apply Henv || done).
    eexists; split; [rewrite Ht; trace_ext|]. right; right.
    exists fs. repeat split; try done.
    destruct r; [destruct a; by left | right; by eexists | by destruct (Hnp msg)].
Qed.

Lemma fs_call_elem (fs : list Event) c o :
  Forall (λ ev, is_fs_call ev.1 = true) fs → (c, o) ∈ fs → is_fs_call c = true.
Proof. intros Hfs Hin. by apply (proj1 (Forall_forall _ _) Hfs (c, o)). Qed.

(** [CreatePeer] as a whole: either the first phase fails, and then nothing
    was called and nothing changed, or the completed peer goes through the
    second phase. *)
Lemma CreatePeer_spec device peer w :
  let '(r, w') := CreatePeer device peer w in
  same_env w w' ∧ w_users w' = w_users w ∧ (∀ msg, r ≠ Panic msg) ∧
  (((∃ e, r = Err e) ∧ new_events w w' = [] ∧
    w_peers w' = w_peers w ∧ w_live w' = w_live w) ∨
   (∃ p, drafted device peer w p ∧
         commit_outcome device p w w' r (new_events w w'))).
Proof.
  rewrite CreatePeer_phases.
  pose proof (CreatePeer_draft_spec device peer w) as Hd.
  unfold mbind, M_bind.
  destruct (CreatePeer_draft device peer w) as [[p|e|msg] w1]; destruct Hd as [Hw1 Hd].
  - pose proof (CreatePeer_commit_spec device p w1) as Hc.
    destruct (CreatePeer_commit device p w1) as [r w'].
    destruct Hc as (Henv & Hu & Hnp & evs & Ht & Hc).
    rewrite Hw1 in Henv, Hu, Ht, Hc. simpl in *.
    repeat split; try (apply Henv || done).
    right. exists p. split; [done|]. by rewrite (new_events_app _ _ _ Ht).
  - rewrite Hw1. repeat split; try done. left.
    repeat split; eauto. unfold new_events. simpl. apply drop_all.
  - done.
Qed.

(** [CreatePeer] of an active peer, call by call.  When the preparation
    fails nothing is called.  Otherwise the first call is the [AddPeer] of
    the completed peer; the repository write is the second call, and it is
    issued only when the [AddPeer] succeeded. *)
Lemma CreatePeer_first_call device peer w :
  DeactivatedAt peer = None →
  let n := first_call_step peer w in
  let '(r, w') := CreatePeer device peer w in
  (preparation_fails device peer w →
     (∃ e, r = Err e) ∧ new_events w w' = [] ∧
     w_peers w' = w_peers w ∧ w_live w' = w_live w) ∧
  (¬ preparation_fails device peer w →
     ∃ p rest,
       drafted device peer w p ∧
       new_events w w' =
         (WgAddPeer device (GetConfig p),
          w_fault w n (WgAddPeer device (GetConfig p))) :: rest ∧
       match w_fault w n (WgAddPeer device (GetConfig p)) with
       | Some e =>
           rest = [] ∧ r = Err (Wrap "failed to add WireGuard peer" e) ∧
           w_peers w' = w_peers w ∧ w_live w' = w_live w
       | None =>
           w_live w' = <[(device, PublicKey p) := GetConfig p]> (w_live w) ∧
           ∃ fs,
             rest = (DbCreatePeer p, w_fault w (S n) (DbCreatePeer p)) :: fs ∧
             Forall (λ ev, is_fs_call ev.1 = true) fs ∧
             match w_fault w (S n) (DbCreatePeer p) with
             | Some e =>
                 fs = [] ∧ r = Err (Wrap "failed to create peer" e) ∧
                 w_peers w' = w_peers w
             | None =>
                 w_peers w' = <[PublicKey p := p]> (w_peers w) ∧
                 (config_file_writable device w → r = Ok tt)
             end
       end).
Proof.
  intros Hact n. subst n.
  rewrite CreatePeer_phases.
  pose proof (CreatePeer_draft_spec device peer w) as Hd.
  pose proof (CreatePeer_draft_outcome device peer w) as Ho.
  unfold mbind, M_bind.
  destruct (CreatePeer_draft device peer w) as [rd w1].
  destruct Hd as [Hw1 Hd]. destruct Ho as [Hfail Hok].
  destruct rd as [p|e|msg]; [| |done].
  2:{ split; [|by intros (? & ? & _)%Hok].
      intros _. rewrite Hw1. split_and!; eauto.
      unfold new_events. simpl. apply drop_all. }
  assert (¬ preparation_fails device peer w) as Hnf.
  { by intros [? ?]%Hfail. }
  destruct (Hok Hnf) as (? & [= <-] & ->). clear Hfail Hok Hw1.
  assert (DeactivatedAt p = None) as Hp.
  { destruct Hd as (_ & _ & _ & -> & _). done. }
  unfold CreatePeer_commit. rewrite bool_decide_eq_true_2 by done.
  set (w1 := set_step (first_call_step peer w) w).
  unfold mbind at 1. unfold M_bind at 1. unfold with_message at 1.
  unfold wg_AddPeer, call. cbv beta iota zeta.
  change (w_fault w1) with (w_fault w).
  change (w_step w1) with (first_call_step peer w).
  destruct (w_fault w (first_call_step peer w) (WgAddPeer device (GetConfig p)))
    as [e|] eqn:E1.
  { split; [done|]. intros _. exists p, []. subst w1. simpl.
    rewrite E1. split_and!; try done.
    unfold new_events. simpl. by rewrite drop_app_length. }
  unfold peers_CreatePeer.
  match goal with |- context [(?m ;; ?k) ?w2] =>
    pose proof (call_then_WriteWireGuardConfigFile
                  "failed to create peer" (DbCreatePeer p)
                  (λ w, set_peers (<[PublicKey p := p]> (w_peers w)) w)
                  device w2) as HT;
    destruct ((m ;; k) w2) as [r w'] end.
  cbv zeta in HT. subst w1. simpl in HT.
  split; [done|]. intros _. exists p. rewrite E1.
  destruct (w_fault w (S (first_call_step peer w)) (DbCreatePeer p))
    as [e|] eqn:E2.
  - destruct HT as [-> ->]. simpl. eexists. split; [done|]. split.
    { unfold new_events. simpl. rewrite <- app_assoc, drop_app_length. done. }
    split; [done|]. exists []. split_and!; done.
  - destruct HT as (Henv & HP & HL & _ & _ & (fs & Ht & Hfs) & _ & Hsucc).
    eexists. split; [done|]. split.
    { unfold new_events. rewrite Ht. simpl.
      rewrite <- !app_assoc, drop_app_length. done. }
    split; [done|]. exists fs. split_and!; done.
Qed.

(** C2.  An active peer handed to [CreatePeer] is pushed to the interface
    controller before the repository is written.  Unless the preparation of
    the peer fails, in which case nothing is called, the first call of the
    run is the [AddPeer] of the completed peer.  When that [AddPeer] returns
    an error it is the only call: [CreatePeer] returns the error wrapped,
    and the repository and the interface are unchanged.  When it succeeds,
    the peer is live and the next call is the repository write of the same
    peer, which leaves the repository unchanged when it fails and holding
    the peer when it succeeds; the run then returns [nil] when the
    configuration file can be rewritten.  In every run, a repository write
    comes right after a successful [AddPeer] of the same peer, and a failed
    [AddPeer] comes with no repository write. *)
Theorem CreatePeer_interface_gates_repository device peer w :
  DeactivatedAt peer = None →
  let n := first_call_step peer w in
  let '(r, w') := CreatePeer device peer w in
  (preparation_fails device peer w →
     (∃ e, r = Err e) ∧ new_events w w' = [] ∧
     w_peers w' = w_peers w ∧ w_live w' = w_live w) ∧
  (¬ preparation_fails device peer w →
     ∃ p rest,
       drafted device peer w p ∧
       new_events w w' =
         (WgAddPeer device (GetConfig p),
          w_fault w n (WgAddPeer device (GetConfig p))) :: rest ∧
       match w_fault w n (WgAddPeer device (GetConfig p)) with
       | Some e =>
           rest = [] ∧ r = Err (Wrap "failed to add WireGuard peer" e) ∧
           w_peers w' = w_peers w ∧ w_live w' = w_live w
       | None =>
           w_live w' = <[(device, PublicKey p) := GetConfig p]> (w_live w) ∧
           ∃ fs,
             rest = (DbCreatePeer p, w_fault w (S n) (DbCreatePeer p)) :: fs ∧
             Forall (λ ev, is_fs_call ev.1 = true) fs ∧
             match w_fault w (S n) (DbCreatePeer p) with
             | Some e =>
                 fs = [] ∧ r = Err (Wrap "failed to create peer" e) ∧
                 w_peers w' = w_peers w
             | None =>
                 w_peers w' = <[PublicKey p := p]> (w_peers w) ∧
                 (config_file_writable device w → r = Ok tt)
             end
       end) ∧
  (∀ p o, (DbCreatePeer p, o) ∈ new_events w w' →
     ∃ rest, new_events w w' =
       (WgAddPeer device (GetConfig p), None) :: (DbCreatePeer p, o) :: rest) ∧
  (∀ d c e, (WgAddPeer d c, Some e) ∈ new_events w w' →
     r = Err (Wrap "failed to add WireGuard peer" e) ∧
     w_peers w' = w_peers w ∧
     ∀ p o, (DbCreatePeer p, o) ∉ new_events w w').
Proof.
  intros Hact n. pose proof (CreatePeer_first_call device peer w Hact) as Hfirst.
  pose proof (CreatePeer_spec device peer w) as Hs.
  destruct (CreatePeer device peer w) as [r w'].
  destruct Hfirst as [Hprep Hpush].
  split; [exact Hprep|]. split; [exact Hpush|]. clear Hprep Hpush.
  destruct Hs as (_ & _ & _ & [(_ & -> & _) | (p & Hd & Hc)]).
  { split; intros; exfalso; eapply not_elem_of_nil; eauto. }
  assert (DeactivatedAt p = None) as Hp.
  { destruct Hd as (_ & _ & _ & -> & _). done. }
  unfold commit_outcome in Hc. rewrite bool_decide_eq_true_2 in Hc by done.
  destruct Hc as [(_ & e & -> & -> & Hpe & _)
                 | [(e & -> & -> & _) | (fs & -> & Hfs & _)]].
  - split.
    + intros q o Hin. apply list_elem_of_singleton in Hin. done.
    + intros d c e' Hin. apply list_elem_of_singleton in Hin. simplify_eq.
      repeat split; try done. intros q o Hq.
      apply list_elem_of_singleton in Hq. done.
  - split.
    + intros q o Hin. simpl in Hin.
      apply elem_of_cons in Hin as [?|Hin]; [done|].
      apply list_elem_of_singleton in Hin. simplify_eq. by eexists.
    + intros d c e' Hin. simpl in Hin.
      apply elem_of_cons in Hin as [?|Hin]; [done|].
      apply list_elem_of_singleton in Hin. done.
  - split.
    + intros q o Hin. simpl in Hin.
      apply elem_of_cons in Hin as [?|Hin]; [done|].
      apply elem_of_cons in Hin as [?|Hin]; [simplify_eq; by eexists|].
      by apply (fs_call_elem _ _ _ Hfs) in Hin.
    + intros d c e' Hin. simpl in Hin.
      apply elem_of_cons in Hin as [?|Hin]; [done|].
      apply elem_of_cons in Hin as [?|Hin]; [done|].
      by apply (fs_call_elem _ _ _ Hfs) in Hin.
Qed.

(** The events of the second phase concern the completed peer only. *)
Lemma commit_outcome_events device p w w' r evs :
  commit_outcome device p w w' r evs →
  (∀ q o, (DbCreatePeer q, o) ∈ evs → q = p) ∧
  (∀ d c o, (WgAddPeer d c, o) ∈ evs → d = device ∧ c = GetConfig p).
Proof.
  unfold commit_outcome.
  intros [(_ & e & -> & _) | [(e & -> & _) | (fs & -> & Hfs & _)]].
  - split; [intros q o Hin | intros d c o Hin];
      apply list_elem_of_singleton in Hin; by simplify_eq.
  - split; [intros q o Hin | intros d c o Hin];
      apply elem_of_app in Hin as [Hin|Hin];
      try (apply list_elem_of_singleton in Hin; by simplify_eq);
      case_bool_decide; try (by apply not_elem_of_nil in Hin);
      apply list_elem_of_singleton in Hin; by simplify_eq.
  - split; [intros q o Hin | intros d c o Hin];
      apply elem_of_app in Hin as [Hin|Hin];
      try (case_bool_decide; try (by apply not_elem_of_nil in Hin);
           apply list_elem_of_singleton in Hin; by simplify_eq);
      (apply elem_of_cons in Hin as [?|Hin]; [by simplify_eq|];
       by apply (fs_call_elem _ _ _ Hfs) in Hin).
Qed.

(** On success the completed peer is in the repository under its key. *)
Lemma commit_outcome_ok device p w w' evs :
  commit_outcome device p w w' (Ok tt) evs →
  w_peers w' = <[PublicKey p := p]> (w_peers w).
Proof.
  unfold commit_outcome.
  intros [(_ & e & _ & ? & _) | [(e & _ & ? & _) | (fs & _ & _ & _ & ? & _)]];
    done.
Qed.

(** C4, as amended.  When the private key of the peer handed to [CreatePeer]
    is empty, a preshared key and a private key are read from the random
    source, and the public key of the peer is replaced by the public key of
    the generated private key: every peer the run pushes to the interface
    controller or writes to the repository carries the generated keys, and
    on success the repository holds the peer under the generated public
    key. *)
Theorem CreatePeer_generated_key_identifies_peer device peer w :
  PrivateKey peer = "" →
  let '(r, w') := CreatePeer device peer w in
  (∀ p o, (DbCreatePeer p, o) ∈ new_events w w' →
     ∃ psk key, w_rand w (w_step w) = Some psk ∧
                w_rand w (S (w_step w)) = Some key ∧
                PresharedKey p = psk ∧ PrivateKey p = key ∧
                PublicKey p = PublicKeyOf key) ∧
  (∀ d c o, (WgAddPeer d c, o) ∈ new_events w w' →
     ∃ psk key, w_rand w (w_step w) = Some psk ∧
                w_rand w (S (w_step w)) = Some key ∧
                cfg_PresharedKey c = psk ∧ cfg_PublicKey c = PublicKeyOf key) ∧
  (r = Ok tt →
     ∃ key p, w_rand w (S (w_step w)) = Some key ∧ PrivateKey p = key ∧
              w_peers w' !! PublicKeyOf key = Some p).
Proof.
  intros Hpriv. pose proof (CreatePeer_spec device peer w) as Hs.
  destruct (CreatePeer device peer w) as [r w'].
  destruct Hs as (_ & _ & _ & [([e ->] & -> & _) | (p & Hd & Hc)]).
  { repeat split; try done; intros; exfalso; eapply not_elem_of_nil; eauto. }
  destruct Hd as (_ & _ & _ & _ & _ & _ & _ & Hk).
  rewrite bool_decide_eq_true_2 in Hk by done.
  destruct Hk as (psk & key & Hr1 & Hr2 & Hpsk & Hkey & Hpub).
  destruct (commit_outcome_events _ _ _ _ _ _ Hc) as [Hdb Hwg].
  repeat split.
  - intros q o ->%Hdb. eauto 10.
  - intros d c o [_ ->]%Hwg. exists psk, key. by rewrite <- Hpub.
  - intros ->. apply commit_outcome_ok in Hc. exists key, p.
    rewrite Hc, <- Hpub. by rewrite lookup_insert_eq.
Qed.

(** C10.  [CreatePeer] overwrites the [DeviceName] and [AllowedIPsStr] of
    its input with those of the device: the run does not depend on what the
    caller put there, every peer it writes to the repository and every
    configuration it pushes comes from a peer that carries the device's two
    values, and on success the repository holds such a peer. *)
Theorem CreatePeer_ignores_DeviceName_and_AllowedIPsStr device peer w :
  (∀ name allowed,
     CreatePeer device (set_DeviceName name (set_AllowedIPsStr allowed peer)) w =
     CreatePeer device peer w) ∧
  let dev := GetDevice w device in
  let '(r, w') := CreatePeer device peer w in
  (∀ p o, (DbCreatePeer p, o) ∈ new_events w w' →
     DeviceName p = dev_DeviceName dev ∧
     AllowedIPsStr p = dev_AllowedIPsStr dev) ∧
  (∀ d c o, (WgAddPeer d c, o) ∈ new_events w w' →
     d = device ∧
     ∃ p, c = GetConfig p ∧ DeviceName p = dev_DeviceName dev ∧
          AllowedIPsStr p = dev_AllowedIPsStr dev) ∧
  (r = Ok tt →
     ∃ p, w_peers w' !! PublicKey p = Some p ∧
          DeviceName p = dev_DeviceName dev ∧
          AllowedIPsStr p = dev_AllowedIPsStr dev).
Proof.
  split.
  { intros name allowed. rewrite !CreatePeer_phases.
    assert (CreatePeer_draft device
              (set_DeviceName name (set_AllowedIPsStr allowed peer)) w =
            CreatePeer_draft device peer w) as Heq.
    { destruct peer. unfold CreatePeer_draft. unfold_monad. cbn.
      repeat (case_match; simplify_eq/=); done. }
    unfold mbind, M_bind. by rewrite Heq. }
  intros dev. pose proof (CreatePeer_spec device peer w) as Hs.
  destruct (CreatePeer device peer w) as [r w'].
  destruct Hs as (_ & _ & _ & [([e ->] & -> & _) | (p & Hd & Hc)]).
  { repeat split; try done; intros; exfalso; eapply not_elem_of_nil; eauto. }
  destruct Hd as (Hallowed & Hname & _).
  destruct (commit_outcome_events _ _ _ _ _ _ Hc) as [Hdb Hwg].
  repeat split.
  - by apply Hdb in H0 as ->.
  - by apply Hdb in H0 as ->.
  - by apply Hwg in H0 as [-> _].
  - apply Hwg in H0 as [_ ->]. by exists p.
  - intros ->. apply commit_outcome_ok in Hc. exists p.
    rewrite Hc. by rewrite lookup_insert_eq.
Qed.

(** ** [PrepareNewPeer] *)

(** C7.  [PrepareNewPeer] writes no repository, calls no collaborator and
    leaves the world as it was up to the step counter.  It returns an error
    exactly when the allocation fails for some pool of the device or one of
    the two key generations fails.  Otherwise the draft has one address per
    pool of the device, each the allocator's answer for its pool, in pool
    order, a generated preshared key and key pair, and the UID of its public
    key. *)
Theorem PrepareNewPeer_spec device w :
  let dev := GetDevice w device in
  let '(r, w') := PrepareNewPeer device w in
  (w' = set_step (w_step w') w ∧
   w_peers w' = w_peers w ∧ w_live w' = w_live w ∧ w_users w' = w_users w ∧
   w_files w' = w_files w ∧ w_trace w' = w_trace w) ∧
  ((∃ e, r = Err e) ↔
   (∃ pool e, pool ∈ dev_IPs dev ∧ GetAvailableIp (w_peers w) device pool = inl e) ∨
   w_rand w (w_step w) = None ∨ w_rand w (S (w_step w)) = None) ∧
  (∀ msg, r ≠ Panic msg) ∧
  (∀ p, r = Ok p →
     length (IPs p) = length (dev_IPs dev) ∧
     allocated (w_peers w) device (dev_IPs dev) (IPs p) ∧
     IPsStr p = ListToString (IPs p) ∧
     AllowedIPsStr p = dev_AllowedIPsStr dev ∧
     ∃ psk key,
       w_rand w (w_step w) = Some psk ∧ w_rand w (S (w_step w)) = Some key ∧
       PresharedKey p = psk ∧ PrivateKey p = key ∧
       PublicKey p = PublicKeyOf key ∧ UID p = "u" +:+ md5_hex (PublicKey p)).
Proof.
  intros dev. subst dev.
  unfold PrepareNewPeer, wgtypes_GeneratePrivateKey, wgtypes_GenerateKey.
  pose proof (allocate_IPs_world device (dev_IPs (GetDevice w device)) w) as Hw.
  pose proof (allocate_IPs_result device (dev_IPs (GetDevice w device)) w) as Hr.
  unfold_monad. cbv beta iota zeta.
  destruct (allocate_IPs device (dev_IPs (GetDevice w device)) w)
    as [[ips|e|msg] wa]; simpl in Hw, Hr; subst wa; [| |done].
  - destruct (w_rand w (w_step w)) as [psk|] eqn:E1; simpl.
    + destruct (w_rand w (S (w_step w))) as [key|] eqn:E2; simpl.
      * split; [by destruct w|]. split.
        { split; [by intros [? ?]|].
          intros [(pool & e & Hin & Hf) | [?|?]]; try done.
          destruct (allocated_pool _ _ _ _ _ Hr Hin) as [ip Hip]. congruence. }
        split; [done|]. intros p [= <-]. simpl.
        split; [exact (allocated_length _ _ _ _ Hr)|]. eauto 12.
      * split; [by destruct w|]. split; [|done]. split; eauto.
    + split; [by destruct w|]. split; [|done]. split; eauto.
  - destruct Hr as (pool & e0 & Hin & Hf & ->).
    split; [by destruct w|]. split; [|done]. split; eauto 6.
Qed.

(** ** [DeletePeer] *)

(** [DeletePeer], call by call. *)
Lemma DeletePeer_steps peer w :
  let rm := WgRemovePeer (DeviceName peer) (PublicKey peer) in
  let del := DbDeletePeer peer in
  let '(r, w') := DeletePeer peer w in
  ∃ rest,
    new_events w w' = (rm, w_fault w (w_step w) rm) :: rest ∧
    match w_fault w (w_step w) rm with
    | Some e =>
        rest = [] ∧ r = Err (Wrap "failed to remove WireGuard peer" e) ∧
        w_peers w' = w_peers w ∧ w_live w' = w_live w
    | None =>
        w_live w' = delete (DeviceName peer, PublicKey peer) (w_live w) ∧
        ∃ fs,
          rest = (del, w_fault w (S (w_step w)) del) :: fs ∧
          Forall (λ ev, is_fs_call ev.1 = true) fs ∧
          match w_fault w (S (w_step w)) del with
          | Some e =>
              fs = [] ∧ r = Err (Wrap "failed to remove peer" e) ∧
              w_peers w' = w_peers w
          | None =>
              w_peers w' = delete (PublicKey peer) (w_peers w) ∧
              (config_file_writable (DeviceName peer) w → r = Ok tt)
          end
    end.
Proof.
  intros rm del. subst rm del.
  unfold DeletePeer.
  unfold mbind at 1. unfold M_bind at 1. unfold with_message at 1.
  unfold wg_RemovePeer, call. cbv beta iota zeta.
  destruct (w_fault w (w_step w) (WgRemovePeer (DeviceName peer) (PublicKey peer)))
    as [e|] eqn:E1.
  { exists []. simpl. split_and!; try done.
    unfold new_events. simpl. by rewrite drop_app_length. }
  unfold peers_DeletePeer.
  match goal with |- context [(?m ;; ?k) ?w2] =>
    pose proof (call_then_WriteWireGuardConfigFile
                  "failed to remove peer" (DbDeletePeer peer)
                  (λ w, set_peers (delete (PublicKey peer) (w_peers w)) w)
                  (DeviceName peer) w2) as HT;
    destruct ((m ;; k) w2) as [r w'] end.
  cbv zeta in HT. simpl in HT.
  destruct (w_fault w (S (w_step w)) (DbDeletePeer peer)) as [e|] eqn:E2.
  - destruct HT as [-> ->]. simpl. eexists. split.
    { unfold new_events. simpl. rewrite <- app_assoc, drop_app_length. done. }
    split; [done|]. exists []. split_and!; done.
  - destruct HT as (Henv & HP & HL & _ & _ & (fs & Ht & Hfs) & _ & Hsucc).
    eexists. split.
    { unfold new_events. rewrite Ht. simpl.
      rewrite <- !app_assoc, drop_app_length. done. }
    split; [done|]. exists fs. split_and!; done.
Qed.

(** C3.  [DeletePeer] removes the peer from the interface controller first
    and only then deletes it from the repository.  The first call of every
    run is the [RemovePeer] of the peer.  When it returns an error it is the
    only call: [DeletePeer] returns the error wrapped, and neither the
    repository nor the interface changed.  When it succeeds, the peer is off
    the interface and the next call is the repository delete of the peer,
    which leaves the repository unchanged when it fails and without the
    record when it succeeds; the run then returns [nil] when the
    configuration file can be rewritten.  When [DeletePeer] returns [nil],
    the peer is on neither store, and [GetPeerByKey] finds no record for its
    key. *)
Theorem DeletePeer_interface_then_repository peer w :
  let rm := WgRemovePeer (DeviceName peer) (PublicKey peer) in
  let del := DbDeletePeer peer in
  let '(r, w') := DeletePeer peer w in
  (∃ rest,
    new_events w w' = (rm, w_fault w (w_step w) rm) :: rest ∧
    match w_fault w (w_step w) rm with
    | Some e =>
        rest = [] ∧ r = Err (Wrap "failed to remove WireGuard peer" e) ∧
        w_peers w' = w_peers w ∧ w_live w' = w_live w
    | None =>
        w_live w' = delete (DeviceName peer, PublicKey peer) (w_live w) ∧
        ∃ fs,
          rest = (del, w_fault w (S (w_step w)) del) :: fs ∧
          Forall (λ ev, is_fs_call ev.1 = true) fs ∧
          match w_fault w (S (w_step w)) del with
          | Some e =>
              fs = [] ∧ r = Err (Wrap "failed to remove peer" e) ∧
              w_peers w' = w_peers w
          | None =>
              w_peers w' = delete (PublicKey peer) (w_peers w) ∧
              (config_file_writable (DeviceName peer) w → r = Ok tt)
          end
    end) ∧
  (∀ q o, (DbDeletePeer q, o) ∈ new_events w w' →
     q = peer ∧
     ∃ rest, new_events w w' = (rm, None) :: (DbDeletePeer peer, o) :: rest) ∧
  (∀ d k e, (WgRemovePeer d k, Some e) ∈ new_events w w' →
     r = Err (Wrap "failed to remove WireGuard peer" e) ∧
     w_peers w' = w_peers w ∧ w_live w' = w_live w ∧
     ∀ q o, (DbDeletePeer q, o) ∉ new_events w w') ∧
  (r = Ok tt →
     w_live w' !! (DeviceName peer, PublicKey peer) = None ∧
     w_peers w' !! PublicKey peer = None ∧
     FindPeer w' (PublicKey peer) = None ∧
     GetPeerByKey w' (PublicKey peer) = Peer_zero).
Proof.
  intros rm del. pose proof (DeletePeer_steps peer w) as Hsteps.
  cbv zeta in Hsteps. subst rm del.
  destruct (DeletePeer peer w) as [r w'].
  split; [exact Hsteps|].
  destruct Hsteps as (rest & -> & Hsteps).
  destruct (w_fault w (w_step w) (WgRemovePeer (DeviceName peer) (PublicKey peer)))
    as [e|].
  { destruct Hsteps as (-> & -> & Hp & Hl).
    split; [|split]; [intros q o Hin | intros d k e' Hin | done].
    - elem_cases Hin.
    - elem_cases Hin. repeat split; try done. intros q o Hq. elem_cases Hq. }
  destruct Hsteps as (Hl & fs & -> & Hfs & Hsteps).
  split; [|split]; [intros q o Hin | intros d k e' Hin | intros ->].
  - elem_cases Hin. split; [done | by eexists].
  - elem_cases Hin.
  - destruct (w_fault w (S (w_step w)) (DbDeletePeer peer)) as [e|].
    { by destruct Hsteps as (_ & [=] & _). }
    destruct Hsteps as [Hp _].
    unfold GetPeerByKey, FindPeer. rewrite Hl, Hp, !lookup_delete_eq. done.
Qed.

(** ** [UpdatePeer] *)

(** After the interface call (if any), [UpdatePeer] writes the repository
    and rewrites the configuration file. *)
Lemma UpdatePeer_tail peer w1 :
  let '(r, w') :=
    (with_message "failed to update peer" (peers_UpdatePeer peer);;
     WriteWireGuardConfigFile (DeviceName peer)) w1 in
  same_env w1 w' ∧ w_users w' = w_users w1 ∧ (∀ msg, r ≠ Panic msg) ∧
  w_next_addr w' = w_next_addr w1 ∧ w_live w' = w_live w1 ∧
  ((∃ e, w_trace w' = w_trace w1 ++ [(DbUpdatePeer peer, Some e)] ∧
         r = Err (Wrap "failed to update peer" e) ∧
         w_peers w' = w_peers w1 ∧
         w_fault w1 (w_step w1) (DbUpdatePeer peer) = Some e) ∨
   (∃ fs, w_trace w' = w_trace w1 ++ [(DbUpdatePeer peer, None)] ++ fs ∧
          Forall (λ ev, is_fs_call ev.1 = true) fs ∧
          (r = Ok tt ∨ ∃ e, r = Err e) ∧
          w_peers w' = <[PublicKey peer := peer]> (w_peers w1))).
Proof.
  unfold peers_UpdatePeer. unfold_monad. cbv beta iota zeta.
  destruct (w_fault w1 (w_step w1) (DbUpdatePeer peer)) as [e|] eqn:E.
  { repeat split; try done. left. exists e. repeat split; done. }
  match goal with |- context [WriteWireGuardConfigFile ?d ?w2] =>
    pose proof (WriteWireGuardConfigFile_frame d w2) as HW;
    destruct (WriteWireGuardConfigFile d w2) as [r w'] end.
  destruct HW as (Henv & Hp & Hl & Hu & Hn & (fs & Ht & Hfs) & Hnp). simpl in *.
  repeat split; try (apply Henv || done).
  right. exists fs. repeat split; try done.
  - rewrite Ht. by rewrite <- app_assoc.
  - destruct r as [[]| |]; [by left | right; by eexists | by destruct (Hnp msg)].
Qed.

Lemma UpdatePeer_spec peer updateTime w :
  let '(r, w') := UpdatePeer peer updateTime w in
  same_env w w' ∧ w_users w' = w_users w ∧ (∀ msg, r ≠ Panic msg) ∧
  w_next_addr w' = S (w_next_addr w) ∧
  ∃ evs, w_trace w' = w_trace w ++ evs ∧
         update_outcome peer (UpdatePeer_call peer updateTime w) w w' r evs.
Proof.
  unfold UpdatePeer, new_var.
  pose (w0 := set_next_addr (S (w_next_addr w)) w).
  assert (∀ c : Call,
    let '(r, w') :=
      (with_message "failed to update WireGuard peer"
         (call c (λ v, set_live (wg_effect c (w_live v)) v));;
       with_message "failed to update peer" (peers_UpdatePeer peer);;
       WriteWireGuardConfigFile (DeviceName peer)) w0 in
    same_env w w' ∧ w_users w' = w_users w ∧ (∀ msg, r ≠ Panic msg) ∧
    w_next_addr w' = S (w_next_addr w) ∧
    ∃ evs, w_trace w' = w_trace w ++ evs ∧
           update_outcome peer (Some c) w w' r evs) as Hcall.
  { intros c. unfold mbind at 1. unfold M_bind at 1. unfold with_message at 1.
    unfold call. cbv beta iota zeta.
    destruct (w_fault w0 (w_step w0) c) as [e|] eqn:E.
    { subst w0. simpl in *. repeat split; try done.
      eexists. split; [reflexivity|]. left. exists c, e. eauto 10. }
    match goal with |- context [(?m ;; ?k) ?w1] =>
      pose proof (UpdatePeer_tail peer w1) as HT;
      destruct ((m ;; k) w1) as [r w'] end.
    destruct HT as (Henv & Hu & Hnp & Hn & Hl & HT). subst w0. simpl in *.
    repeat split; try (apply Henv || done).
    destruct HT as [(e & Ht & -> & Hp & Hf) | (fs & Ht & Hfs & Hr & Hp)].
    - eexists. split; [rewrite Ht; trace_ext|]. right; left.
      exists e. repeat split; eauto.
    - eexists. split; [rewrite Ht; trace_ext|]. right; right.
      exists fs. repeat split; eauto. }
  assert (
    let '(r, w') :=
      (with_message "failed to update WireGuard peer" skip;;
       with_message "failed to update peer" (peers_UpdatePeer peer);;
       WriteWireGuardConfigFile (DeviceName peer)) w0 in
    same_env w w' ∧ w_users w' = w_users w ∧ (∀ msg, r ≠ Panic msg) ∧
    w_next_addr w' = S (w_next_addr w) ∧
    ∃ evs, w_trace w' = w_trace w ++ evs ∧
           update_outcome peer None w w' r evs) as Hnone.
  { unfold mbind at 1. unfold M_bind at 1. unfold with_message at 1.
    unfold skip, mret, M_ret. cbv beta iota zeta.
    pose proof (UpdatePeer_tail peer w0) as HT.
    match goal with |- context [(?m ;; ?k) w0] =>
      destruct ((m ;; k) w0) as [r w'] end.
    destruct HT as (Henv & Hu & Hnp & Hn & Hl & HT). subst w0. simpl in *.
    repeat split; try (apply Henv || done).
    destruct HT as [(e & Ht & -> & Hp & Hf) | (fs & Ht & Hfs & Hr & Hp)].
    - eexists. split; [rewrite Ht; trace_ext|]. right; left.
      exists e. repeat split; eauto.
    - eexists. split; [rewrite Ht; trace_ext|]. right; right.
      exists fs. repeat split; eauto. }
  unfold UpdatePeer_call.
  change (GetPeerByKey w (PublicKey peer)) with (GetPeerByKey w0 (PublicKey peer)).
  unfold mbind at 1. unfold M_bind at 1. cbv beta iota zeta. fold w0.
  unfold mbind at 1. unfold M_bind at 1. unfold query at 1. cbv beta iota zeta.
  destruct (ptr_eqb _ _).
  { exact (Hcall (WgRemovePeer (DeviceName peer) (PublicKey peer))). }
  destruct (bool_decide (DeactivatedAt peer = None)); simpl; [|exact Hnone].
  destruct (bool_decide (Peer_live (GetPeerByKey w0 (PublicKey peer)) ≠ None)) eqn:Eb.
  { exact (Hcall (WgUpdatePeer (DeviceName peer) (GetConfig peer))). }
  assert (bool_decide (Peer_live (GetPeerByKey w0 (PublicKey peer)) = None) = true) as ->.
  { apply bool_decide_eq_true. apply bool_decide_eq_false in Eb.
    by destruct (Peer_live _); [destruct Eb|]. }
  exact (Hcall (WgAddPeer (DeviceName peer) (GetConfig peer))).
Qed.

(** ** [RestoreWireGuardInterface] *)

Lemma RestoreWireGuardInterface_loop device w :
  RestoreWireGuardInterface device w =
  (for_each (GetActivePeers w device) (restore_step device);; skip) w.
Proof. reflexivity. Qed.

Lemma live_with_snoc device l q live :
  live_with device (l ++ [q]) live =
  <[(device, PublicKey q) := GetConfig q]> (live_with device l live).
Proof. unfold live_with. by rewrite foldl_app. Qed.

Lemma live_with_keeps device l live key :
  is_Some (live !! key) → is_Some (live_with device l live !! key).
Proof.
  revert live. induction l as [|q l IH]; intros live Hk; [done|].
  simpl. apply IH. destruct (decide ((device, PublicKey q) = key)) as [<-|Hne].
  - rewrite lookup_insert_eq. by eexists.
  - by rewrite lookup_insert_ne.
Qed.

Lemma live_with_elem device l live q :
  q ∈ l → is_Some (live_with device l live !! (device, PublicKey q)).
Proof.
  revert live. induction l as [|q' l IH]; intros live Hin.
  - by apply not_elem_of_nil in Hin.
  - apply elem_of_cons in Hin as [->|Hin]; simpl.
    + apply live_with_keeps. rewrite lookup_insert_eq. by eexists.
    + by apply IH.
Qed.

Lemma live_with_other device l live d k :
  k ∉ PublicKey <$> l → live_with device l live !! (d, k) = live !! (d, k).
Proof.
  revert live. induction l as [|q l IH]; intros live Hk; [done|].
  simpl in *. apply not_elem_of_cons in Hk as [Hne Hk].
  rewrite IH by done. apply lookup_insert_ne. congruence.
Qed.

(** The loop adds the absent peers in order and stops at the first
    [AddPeer] that fails. *)
Lemma restore_loop_spec device l w :
  let '(r, w') := for_each l (restore_step device) w in
  same_env w w' ∧ w_peers w' = w_peers w ∧ w_users w' = w_users w ∧
  ((r = Ok tt ∧
    w_trace w' = w_trace w ++ added device (absent l) ∧
    w_live w' = live_with device (absent l) (w_live w)) ∨
   (∃ l1 p l2 e,
      l = l1 ++ p :: l2 ∧ Peer_live p = None ∧
      r = Err (Wrap "failed to add WireGuard peer" e) ∧
      w_trace w' = w_trace w ++ added device (absent l1) ++
                   [(WgAddPeer device (GetConfig p), Some e)] ∧
      w_live w' = live_with device (absent l1) (w_live w))).
Proof.
  revert w. induction l as [|p l IH]; intros w.
  { simpl. repeat split; try done. left. by rewrite app_nil_r. }
  simpl. unfold mbind, M_bind, restore_step at 1, absent.
  rewrite filter_cons.
  destruct (decide (Peer_live p = None)) as [Hp|Hp].
  - rewrite bool_decide_eq_true_2 by done.
    unfold wg_AddPeer, with_message, call.
    destruct (w_fault w (w_step w) (WgAddPeer device (GetConfig p))) as [e|] eqn:E.
    + repeat split; try done. right. exists [], p, l, e. by repeat split.
    + match goal with |- context [for_each l _ ?w1] =>
        specialize (IH w1); destruct (for_each l (restore_step device) w1)
          as [r w'] end.
      destruct IH as (Henv & Hpe & Hu & IH). simpl in *.
      repeat split; try (apply Henv || done).
      destruct IH as [(-> & Ht & Hl) | (l1 & q & l2 & e & -> & Hq & -> & Ht & Hl)].
      * left. repeat split; [by rewrite Ht, <- app_assoc | done].
      * right. exists (p :: l1), q, l2, e. unfold absent. rewrite filter_cons.
        rewrite decide_True by done. simpl.
        repeat split; [done | by rewrite Ht, <- app_assoc | done].
  - rewrite bool_decide_eq_false_2 by done.
    unfold skip at 1. unfold mret, M_ret.
    specialize (IH w). unfold absent in IH.
    destruct (for_each l (restore_step device) w) as [r w'].
    destruct IH as (Henv & Hpe & Hu & IH).
    repeat split; try (apply Henv || done).
    destruct IH as [(-> & Ht & Hl) | (l1 & q & l2 & e & -> & Hq & -> & Ht & Hl)].
    * left. by repeat split.
    * right. exists (p :: l1), q, l2, e. unfold absent. rewrite filter_cons.
      rewrite decide_False by done. by repeat split.
Qed.

(** When the interface knows every peer of the list, the loop does nothing. *)
Lemma restore_loop_present device l w :
  Forall (λ p, Peer_live p ≠ None) l →
  for_each l (restore_step device) w = (Ok tt, w).
Proof.
  induction 1 as [|p l Hp _ IH]; [done|].
  simpl. unfold mbind, M_bind, restore_step at 1.
  rewrite bool_decide_eq_false_2 by done.
  unfold skip at 1. unfold mret, M_ret. cbv beta iota. exact IH.
Qed.

(** The active peers of a device, as the repository returns them. *)
Lemma GetActivePeers_elem w device p :
  p ∈ GetActivePeers w device →
  DeviceName p = device ∧ DeactivatedAt p = None ∧
  Peer_live p = w_live w !! (device, PublicKey p) ∧
  ∃ k p0, w_peers w !! k = Some p0 ∧ p = populatePeerData w p0.
Proof.
  unfold GetActivePeers. intros Hin.
  apply list_elem_of_fmap in Hin as (p0 & -> & Hin).
  apply list_elem_of_filter in Hin as [[Hd Ha] Hin].
  apply list_elem_of_fmap in Hin as ([k p1] & -> & Hin).
  apply elem_of_map_to_list in Hin. simpl in *.
  repeat split; try done.
  - by rewrite <- Hd.
  - by exists k, p1.
Qed.

(** C9.  [RestoreWireGuardInterface] is not best-effort.  When an [AddPeer]
    of the run fails, the run returns that error wrapped, and the peer [p] it
    failed for splits the list of active peers: the calls of the run are the
    successful [AddPeer]s of the absent peers before [p] and the failed one,
    so none is issued for the peers after [p], the live peers are those
    before the run plus the absent peers before [p], and an absent peer after
    [p] whose key is not among theirs is still absent. *)
Theorem RestoreWireGuardInterface_stops_at_first_failure device w :
  let '(r, w') := RestoreWireGuardInterface device w in
  ∀ d c e, (WgAddPeer d c, Some e) ∈ new_events w w' →
    r = Err (Wrap "failed to add WireGuard peer" e) ∧
    ∃ l1 p l2,
      GetActivePeers w device = l1 ++ p :: l2 ∧
      Peer_live p = None ∧ d = device ∧ c = GetConfig p ∧
      new_events w w' =
        added device (absent l1) ++ [(WgAddPeer device (GetConfig p), Some e)] ∧
      w_live w' = live_with device (absent l1) (w_live w) ∧
      ∀ q, q ∈ l2 → Peer_live q = None →
           PublicKey q ∉ PublicKey <$> absent l1 →
           w_live w' !! (device, PublicKey q) = None.
Proof.
  rewrite RestoreWireGuardInterface_loop. unfold mbind, M_bind.
  pose proof (restore_loop_spec device (GetActivePeers w device) w) as Hs.
  destruct (for_each (GetActivePeers w device) (restore_step device) w) as [r w1].
  destruct Hs as (_ & _ & _ & [(-> & Ht & Hl) | (l1 & p & l2 & e & Hl12 & Hp & -> & Ht & Hl)]).
  - unfold skip, mret, M_ret. intros d c e Hin.
    rewrite (new_events_app _ _ _ Ht) in Hin. unfold added in Hin.
    apply list_elem_of_fmap in Hin as (q & [=] & _).
  - intros d c e' Hin. rewrite (new_events_app _ _ _ Ht) in *.
    apply elem_of_app in Hin as [Hin|Hin].
    { unfold added in Hin. apply list_elem_of_fmap in Hin as (q & [=] & _). }
    apply list_elem_of_singleton in Hin. simplify_eq.
    split; [done|]. exists l1, p, l2. repeat split; try done.
    intros q Hq Hqa Hk. rewrite Hl, live_with_other by done.
    assert (q ∈ GetActivePeers w device) as Hqin.
    { rewrite Hl12. apply elem_of_app. right. by right. }
    apply GetActivePeers_elem in Hqin as (_ & _ & Hlive & _). congruence.
Qed.

(** C5, as amended.  When a run of [RestoreWireGuardInterface] returns no
    error, every active peer of the device is on the live interface, and a
    second run returns no error and changes nothing. *)
Theorem RestoreWireGuardInterface_idempotent_on_success device w :
  let '(r, w') := RestoreWireGuardInterface device w in
  r = Ok tt →
  (∀ p, p ∈ GetActivePeers w device →
        is_Some (w_live w' !! (device, PublicKey p))) ∧
  RestoreWireGuardInterface device w' = (Ok tt, w').
Proof.
  rewrite RestoreWireGuardInterface_loop. unfold mbind, M_bind.
  pose proof (restore_loop_spec device (GetActivePeers w device) w) as Hs.
  destruct (for_each (GetActivePeers w device) (restore_step device) w) as [r w1].
  destruct Hs as (_ & Hpe & _ & [(-> & Ht & Hl) | (l1 & p & l2 & e & _ & _ & -> & _)]);
    [|done].
  unfold skip, mret, M_ret. intros _.
  assert (∀ p, p ∈ GetActivePeers w device →
               is_Some (w_live w1 !! (device, PublicKey p))) as Hall.
  { intros p Hin. rewrite Hl.
    destruct (Peer_live p) as [cfg|] eqn:Hp.
    - apply live_with_keeps.
      apply GetActivePeers_elem in Hin as (_ & _ & Hlive & _).
      rewrite <- Hlive, Hp. by eexists.
    - apply live_with_elem. unfold absent. by apply list_elem_of_filter. }
  split; [done|].
  rewrite RestoreWireGuardInterface_loop. unfold mbind, M_bind.
  rewrite restore_loop_present; [done|].
  apply Forall_forall. intros q Hq.
  pose proof Hq as Hq'. apply GetActivePeers_elem in Hq' as (Hd & Ha & Hlive & k & q0 & Hk & ->).
  assert (populatePeerData w q0 ∈ GetActivePeers w device) as Hin.
  { unfold GetActivePeers. apply list_elem_of_fmap. exists q0. split; [done|].
    apply list_elem_of_filter. split; [done|].
    apply list_elem_of_fmap. exists (k, q0). split; [done|].
    apply elem_of_map_to_list. by rewrite <- Hpe. }
  apply Hall in Hin. simpl in *. rewrite Hlive.
  destruct Hin as [cfg Hcfg]. by rewrite Hcfg.
Qed.

(** ** [UpdateUser]: the reactivation of the peers of a user *)

Lemma wg_effect_other c live d k :
  (∀ d' cfg, c = WgAddPeer d' cfg → cfg_PublicKey cfg ≠ k) →
  (∀ d' cfg, c = WgUpdatePeer d' cfg → cfg_PublicKey cfg ≠ k) →
  (∀ d' k', c = WgRemovePeer d' k' → k' ≠ k) →
  wg_effect c live !! (d, k) = live !! (d, k).
Proof.
  intros Ha Hu Hr. destruct c; simpl; try done.
  - apply lookup_insert_ne. intros [= -> Hk]. by eapply Ha.
  - apply lookup_alter_ne. intros [= -> Hk]. by eapply Hu.
  - apply lookup_delete_ne. intros [= -> Hk]. by eapply Hr.
Qed.

(** Reactivating the peer [q] never returns an error: a failure is logged.
    It touches the records and the live peers of the key of [q] only, takes
    no peer off an interface, and when the calls for [q] succeed, [q] ends
    up active in the repository and live on its device. *)
Lemma reactivate_step_spec email q v :
  let q' := set_DeactivatedAt None q in
  let '(r, v') := reactivate_step email q v in
  r = Ok tt ∧ same_env v v' ∧ w_users v' = w_users v ∧
  (∃ evs, w_trace v' = w_trace v ++ evs ∧
          Forall (λ ev, is_user_create ev.1 = false ∧ is_remove ev.1 = false) evs) ∧
  (∀ k, k ≠ PublicKey q → w_peers v' !! k = w_peers v !! k) ∧
  (∀ d k, k ≠ PublicKey q → w_live v' !! (d, k) = w_live v !! (d, k)) ∧
  (∀ key, is_Some (w_live v !! key) → is_Some (w_live v' !! key)) ∧
  (calls_succeed v q' →
     w_peers v' !! PublicKey q = Some q' ∧
     (row_matches v q →
      w_live v' !! (DeviceName q, PublicKey q) = Some (GetConfig q'))).
Proof.
  intros q'. unfold reactivate_step, time_Now. unfold mbind, M_bind.
  cbv beta iota zeta. fold q'.
  set (v1 := set_step (S (w_step v)) v).
  set (t := w_clock v (w_step v)).
  pose proof (UpdatePeer_spec q' t v1) as Hs.
  unfold on_error, logrus_Errorf.
  destruct (UpdatePeer q' t v1) as [ru vu].
  destruct Hs as (Henv & Hu & Hnp & _ & evs & Ht & Hout).
  assert (UpdatePeer_call q' t v1 =
          Some (if bool_decide (Peer_live (GetPeerByKey v (PublicKey q)) ≠ None)
                then WgUpdatePeer (DeviceName q) (GetConfig q')
                else WgAddPeer (DeviceName q) (GetConfig q'))) as Hcall.
  { unfold UpdatePeer_call. simpl.
    change (GetPeerByKey v1 (PublicKey q)) with (GetPeerByKey v (PublicKey q)).
    by destruct (bool_decide _). }
  rewrite Hcall in Hout. clear Hcall.
  set (c := if bool_decide (Peer_live (GetPeerByKey v (PublicKey q)) ≠ None)
            then WgUpdatePeer (DeviceName q) (GetConfig q')
            else WgAddPeer (DeviceName q) (GetConfig q')) in *.
  assert (is_user_create c = false ∧ is_remove c = false) as Hc.
  { subst c. by destruct (bool_decide _). }
  assert (∀ live d k, k ≠ PublicKey q → wg_effect c live !! (d, k) = live !! (d, k))
    as Hother.
  { intros live d k Hk. apply wg_effect_other; subst c q';
      destruct (bool_decide _); intros; simplify_eq; simpl; congruence. }
  assert (∀ live key, is_Some (live !! key) → is_Some (wg_effect c live !! key))
    as Hgrow.
  { intros live key Hk. subst c. destruct (bool_decide _); simpl.
    - destruct (decide ((DeviceName q, PublicKey q) = key)) as [<-|Hne].
      + rewrite lookup_alter_eq. destruct Hk as [? ->]. by eexists.
      + by rewrite lookup_alter_ne.
    - destruct (decide ((DeviceName q, PublicKey q) = key)) as [<-|Hne].
      + rewrite lookup_insert_eq. by eexists.
      + by rewrite lookup_insert_ne. }
  assert (calls_succeed v q' → w_fault v1 = w_fault v →
          ∀ n e, w_fault v1 n c = Some e → False) as Hnofail.
  { intros Hcs Hf n e. rewrite Hf. destruct (Hcs n) as (Ha & Hup & _).
    subst c q'. simpl in *. destruct (bool_decide _); congruence. }
  assert (∀ fs : list Event,
            Forall (λ ev, is_fs_call ev.1 = true) fs →
            Forall (λ ev, is_user_create ev.1 = false ∧ is_remove ev.1 = false) fs)
    as Hfs_ok.
  { intros fs Hfs. eapply Forall_impl; [exact Hfs|].
    intros [[] o]; simpl; done. }
  destruct Hout as [(c0 & e & [= <-] & -> & -> & Hp & Hl & n & Hf)
                   | [(e & -> & -> & Hp & Hl & n & Hf)
                     | (fs & -> & Hfs & Hr & Hp & Hl)]].
  - (* the interface call failed *)
    simpl. subst v1. simpl in *. repeat split; try (apply Henv || done).
    + eexists. split; [rewrite Ht; trace_ext|]. repeat constructor; apply Hc.
    + intros. by rewrite Hp.
    + intros. by rewrite Hl.
    + intros. by rewrite Hl.
    + exfalso. by eapply Hnofail.
    + intros _. exfalso. eapply (Hnofail H0); [done|]. exact Hf.
  - (* the repository write failed *)
    simpl. subst v1. simpl in *. repeat split; try (apply Henv || done).
    + eexists. split; [rewrite Ht; trace_ext|]. repeat constructor; apply Hc.
    + intros. by rewrite Hp.
    + intros. rewrite Hl. by apply Hother.
    + intros. rewrite Hl. by apply Hgrow.
    + exfalso. destruct (H0 n) as (_ & _ & Hdb). congruence.
    + intros _. exfalso. destruct (H0 n) as (_ & _ & Hdb). congruence.
  - (* both succeeded *)
    subst v1. simpl in *.
    assert (row_matches v q →
            w_live vu !! (DeviceName q, PublicKey q) = Some (GetConfig q'))
      as Hlive.
    { intros Hrow. rewrite Hl. subst c. case_bool_decide as Hpres; simpl.
      - rewrite lookup_alter_eq.
        unfold GetPeerByKey, FindPeer in Hpres.
        destruct (w_peers v !! PublicKey q) as [row|] eqn:Erow; [|done].
        simpl in Hpres. destruct (Hrow row Erow) as [Hd Hk].
        rewrite Hd, Hk in Hpres.
        by destruct (w_live v !! (DeviceName q, PublicKey q)).
      - apply lookup_insert_eq. }
    destruct Hr as [->|[e ->]]; simpl.
    + repeat split; try (apply Henv || done).
      * eexists. split; [rewrite Ht; trace_ext|].
        constructor; [apply Hc|]. constructor; [done|]. by apply Hfs_ok.
      * intros. rewrite Hp. by apply lookup_insert_ne.
      * intros. rewrite Hl. by apply Hother.
      * intros. rewrite Hl. by apply Hgrow.
      * rewrite Hp. apply lookup_insert_eq.
    + repeat split; try (apply Henv || done).
      * eexists. split; [rewrite Ht; trace_ext|].
        constructor; [apply Hc|]. constructor; [done|].
        apply Forall_app. split; [by apply Hfs_ok | by repeat constructor].
      * intros. rewrite Hp. by apply lookup_insert_ne.
      * intros. rewrite Hl. by apply Hother.
      * intros. rewrite Hl. by apply Hgrow.
      * rewrite Hp. apply lookup_insert_eq.
Qed.

(** The reactivation loop: a failure for one peer does not stop the loop,
    and, the keys of the peers being distinct, does not affect the others. *)
Lemma reactivate_loop_spec email l v :
  let '(r, v') := for_each l (reactivate_step email) v in
  r = Ok tt ∧ same_env v v' ∧ w_users v' = w_users v ∧
  (∃ evs, w_trace v' = w_trace v ++ evs ∧
          Forall (λ ev, is_user_create ev.1 = false ∧ is_remove ev.1 = false) evs) ∧
  (∀ k, k ∉ PublicKey <$> l → w_peers v' !! k = w_peers v !! k) ∧
  (∀ d k, k ∉ PublicKey <$> l → w_live v' !! (d, k) = w_live v !! (d, k)) ∧
  (∀ key, is_Some (w_live v !! key) → is_Some (w_live v' !! key)) ∧
  (NoDup (PublicKey <$> l) →
   ∀ q, q ∈ l → calls_succeed v (set_DeactivatedAt None q) →
        w_peers v' !! PublicKey q = Some (set_DeactivatedAt None q) ∧
        (row_matches v q →
         w_live v' !! (DeviceName q, PublicKey q) =
           Some (GetConfig (set_DeactivatedAt None q)))).
Proof.
  revert v. induction l as [|p l IH]; intros v.
  { simpl. split; [done|]. split; [apply same_env_refl|]. split; [done|].
    split; [exists []; by rewrite app_nil_r|].
    repeat split; try done; exfalso; eapply not_elem_of_nil; eassumption. }
  simpl. unfold mbind, M_bind.
  pose proof (reactivate_step_spec email p v) as Hs.
  destruct (reactivate_step email p v) as [r1 v1].
  destruct Hs as (-> & Henv1 & Hu1 & (evs1 & Ht1 & Hev1) & Hpe1 & Hli1 & Hgr1 & Hself).
  specialize (IH v1).
  destruct (for_each l (reactivate_step email) v1) as [r v'].
  destruct IH as (-> & Henv & Hu & (evs & Ht & Hev) & Hpe & Hli & Hgr & Hall).
  split; [done|]. split; [by eapply same_env_trans|].
  split; [congruence|]. split.
  { exists (evs1 ++ evs). split; [by rewrite Ht, Ht1, app_assoc|].
    by apply Forall_app. }
  split.
  { intros k Hk. rewrite ?fmap_cons in Hk. apply not_elem_of_cons in Hk as [Hk1 Hk2].
    rewrite Hpe by done. by apply Hpe1. }
  split.
  { intros d k Hk. rewrite ?fmap_cons in Hk. apply not_elem_of_cons in Hk as [Hk1 Hk2].
    rewrite Hli by done. by apply Hli1. }
  split; [by auto|].
  intros Hnd. rewrite ?fmap_cons in Hnd. apply NoDup_cons in Hnd as [Hp Hnd].
  intros q Hq Hcs. apply elem_of_cons in Hq as [->|Hq].
  - destruct (Hself Hcs) as [Hrow Hlive]. split.
    + by rewrite Hpe.
    + intros Hm. rewrite Hli by done. by apply Hlive.
  - assert (PublicKey q ≠ PublicKey p) as Hne.
    { intros Heq. apply Hp. rewrite <- Heq. apply list_elem_of_fmap. by exists q. }
    assert (calls_succeed v1 (set_DeactivatedAt None q)) as Hcs1.
    { intros n. destruct Henv1 as (_ & _ & -> & _). apply Hcs. }
    destruct (Hall Hnd q Hq Hcs1) as [Hrow Hlive]. split; [done|].
    intros Hm. apply Hlive. intros row Hr. apply Hm. by rewrite <- Hpe1.
Qed.

(** The peers of a user, as the repository returns them. *)
Lemma GetPeersByMail_elem w email p :
  p ∈ GetPeersByMail w email →
  Email p = email ∧
  ∃ k p0, w_peers w !! k = Some p0 ∧ p = populatePeerData w p0.
Proof.
  unfold GetPeersByMail. intros Hin.
  apply list_elem_of_fmap in Hin as (p0 & -> & Hin).
  apply list_elem_of_filter in Hin as [He Hin].
  apply list_elem_of_fmap in Hin as ([k p1] & -> & Hin).
  apply elem_of_map_to_list in Hin. simpl in *.
  split; [done|]. by exists k, p1.
Qed.

Lemma keyed_values_NoDup (peers : gmap string Peer) :
  keyed_by_PublicKey peers →
  NoDup (PublicKey <$> (snd <$> map_to_list peers)).
Proof.
  intros Hkey. rewrite <- list_fmap_compose.
  assert ((PublicKey ∘ snd) <$> map_to_list peers = fst <$> map_to_list peers) as ->.
  { apply list_fmap_ext. intros i [k p] Hi. simpl.
    apply Hkey. apply elem_of_map_to_list. by eapply list_elem_of_lookup_2. }
  apply NoDup_fst_map_to_list.
Qed.

(** In a repository keyed by public key, the peers of a user have distinct
    keys. *)
Lemma GetPeersByMail_NoDup w email :
  keyed_by_PublicKey (w_peers w) →
  NoDup (PublicKey <$> GetPeersByMail w email).
Proof.
  intros Hkey. unfold GetPeersByMail. rewrite <- list_fmap_compose.
  change (PublicKey ∘ populatePeerData w) with PublicKey.
  eapply sublist_NoDup; [by apply keyed_values_NoDup|].
  apply fmap_sublist, sublist_filter.
Qed.

Lemma GetPeersByMail_row_matches w email p :
  keyed_by_PublicKey (w_peers w) →
  p ∈ GetPeersByMail w email → row_matches w p.
Proof.
  intros Hkey (_ & k & p0 & Hk & ->)%GetPeersByMail_elem row Hrow.
  simpl in *. pose proof (Hkey _ _ Hk) as <-. by simplify_eq.
Qed.

(** [UpdateUser] of a user who was soft-deleted and no longer is: the record
    is written, then the peers of the user are reactivated one by one. *)
Lemma UpdateUser_reactivation_eq user cur w :
  del_Valid (usr_DeletedAt user) = false →
  GetUserUnscoped w (usr_Email user) = Some cur →
  del_Valid (usr_DeletedAt cur) = true →
  UpdateUser user w =
  (with_message "failed to update user in manager" (users_UpdateUser user);;
   peers ← query (λ w, GetPeersByMail w (usr_Email user));
   for_each peers (reactivate_step (usr_Email user));; skip) w.
Proof.
  intros Hu Hcur Hdel. unfold UpdateUser. rewrite Hu.
  unfold mbind at 1. unfold M_bind at 1. unfold query at 1.
  cbv beta iota zeta. rewrite Hcur.
  unfold mbind, M_bind. destruct (with_message _ _ w) as [[[]|e|msg] w1]; try done.
  rewrite Hdel. simpl. unfold query.
  change (λ peer : Peer, _) with (reactivate_step (usr_Email user)).
  by destruct (for_each _ _ w1) as [[[]|?|?] ?].
Qed.

Lemma UpdateUser_reactivation user cur w :
  del_Valid (usr_DeletedAt user) = false →
  GetUserUnscoped w (usr_Email user) = Some cur →
  del_Valid (usr_DeletedAt cur) = true →
  let '(r, w') := UpdateUser user w in
  same_env w w' ∧
  Forall (λ ev, is_user_create ev.1 = false ∧ is_remove ev.1 = false)
    (new_events w w') ∧
  (∀ key, is_Some (w_live w !! key) → is_Some (w_live w' !! key)) ∧
  match w_fault w (w_step w) (DbUpdateUser user) with
  | Some e =>
      r = Err (Wrap "failed to update user in manager" e) ∧
      w_users w' = w_users w ∧ w_peers w' = w_peers w ∧ w_live w' = w_live w
  | None =>
      r = Ok tt ∧ w_users w' = <[usr_Email user := user]> (w_users w) ∧
      (keyed_by_PublicKey (w_peers w) →
       ∀ p, p ∈ GetPeersByMail w (usr_Email user) →
            calls_succeed w (set_DeactivatedAt None p) →
            w_peers w' !! PublicKey p = Some (set_DeactivatedAt None p) ∧
            w_live w' !! (DeviceName p, PublicKey p) =
              Some (GetConfig (set_DeactivatedAt None p)))
  end.
Proof.
  intros Hu Hcur Hdel.
  rewrite (UpdateUser_reactivation_eq user cur w Hu Hcur Hdel).
  unfold mbind at 1. unfold M_bind at 1. unfold with_message, users_UpdateUser, call.
  destruct (w_fault w (w_step w) (DbUpdateUser user)) as [e|] eqn:E.
  { unfold new_events. simpl. rewrite drop_app_length.
    repeat split; try done. by repeat constructor. }
  set (w1 := set_users _ _).
  unfold mbind at 1. unfold M_bind at 1. unfold query. cbv beta iota zeta.
  change (GetPeersByMail w1 (usr_Email user)) with (GetPeersByMail w (usr_Email user)).
  unfold mbind, M_bind.
  pose proof (reactivate_loop_spec (usr_Email user)
                (GetPeersByMail w (usr_Email user)) w1) as Hl.
  destruct (for_each _ _ w1) as [r w'].
  destruct Hl as (-> & Henv & Husr & (evs & Ht & Hev) & _ & _ & Hgr & Hall).
  unfold skip, mret, M_ret. subst w1. simpl in *.
  split; [done|]. split.
  { unfold new_events. rewrite Ht, <- app_assoc, drop_app_length.
    constructor; [done|]. done. }
  split; [done|]. split; [done|]. split; [done|].
  intros Hkey p Hp Hcs.
  destruct (Hall (GetPeersByMail_NoDup w _ Hkey) p Hp) as [Hrow Hlive]; [done|].
  split; [done|]. apply Hlive. by eapply GetPeersByMail_row_matches.
Qed.

(** C6.  A user who was soft-deleted is updated with the deleted flag
    cleared, and the user repository accepts the update.  Then [UpdateUser]
    returns no error, whatever happens to the peers, and every peer of the
    user's email for which the interface controller and the peer repository
    do not fail ends up with [DeactivatedAt] cleared in the repository and
    live on its device, whatever happens to the other peers. *)
Theorem UpdateUser_reactivates_owned_peers user cur w :
  del_Valid (usr_DeletedAt user) = false →
  GetUserUnscoped w (usr_Email user) = Some cur →
  del_Valid (usr_DeletedAt cur) = true →
  w_fault w (w_step w) (DbUpdateUser user) = None →
  keyed_by_PublicKey (w_peers w) →
  let '(r, w') := UpdateUser user w in
  r = Ok tt ∧
  w_users w' !! usr_Email user = Some user ∧
  ∀ p, p ∈ GetPeersByMail w (usr_Email user) →
       calls_succeed w (set_DeactivatedAt None p) →
       (∃ p', w_peers w' !! PublicKey p = Some p' ∧ DeactivatedAt p' = None ∧
              p' = set_DeactivatedAt None p) ∧
       w_live w' !! (DeviceName p, PublicKey p) =
         Some (GetConfig (set_DeactivatedAt None p)).
Proof.
  intros Hu Hcur Hdel Hf Hkey.
  pose proof (UpdateUser_reactivation user cur w Hu Hcur Hdel) as Hs.
  destruct (UpdateUser user w) as [r w'].
  destruct Hs as (_ & _ & _ & Hs). rewrite Hf in Hs.
  destruct Hs as (-> & Husr & Hall).
  split; [done|]. split; [by rewrite Husr, lookup_insert_eq|].
  intros p Hp Hcs. destruct (Hall Hkey p Hp Hcs) as [Hrow Hlive].
  split; [|done]. by eexists.
Qed.

(** C8.  When a soft-deleted record exists for the email of the user handed
    to [CreateUser], no user record is created: the deleted flag of the
    input is cleared and the run is that of [UpdateUser], no call creates a
    user, and the emails of the user repository are those it had.  When the
    user repository accepts the update, the run returns no error, the
    record is the input with the flag cleared, and the peers of that email
    are reactivated as by [UpdateUser]. *)
Theorem CreateUser_resurrects_soft_deleted_user user cur device w :
  usr_Email user ≠ "" →
  GetUserUnscoped w (usr_Email user) = Some cur →
  del_Valid (usr_DeletedAt cur) = true →
  let user' := set_usr_DeletedAt DeletedAt_zero user in
  CreateUser user device w = UpdateUser user' w ∧
  let '(r, w') := CreateUser user device w in
  (∀ u o, (DbCreateUser u, o) ∉ new_events w w') ∧
  dom (w_users w') = dom (w_users w) ∧
  (w_fault w (w_step w) (DbUpdateUser user') = None →
   r = Ok tt ∧ w_users w' !! usr_Email user = Some user' ∧
   (keyed_by_PublicKey (w_peers w) →
    ∀ p, p ∈ GetPeersByMail w (usr_Email user) →
         calls_succeed w (set_DeactivatedAt None p) →
         w_peers w' !! PublicKey p = Some (set_DeactivatedAt None p) ∧
         w_live w' !! (DeviceName p, PublicKey p) =
           Some (GetConfig (set_DeactivatedAt None p)))).
Proof.
  intros Hne Hcur Hdel user'.
  assert (CreateUser user device w = UpdateUser user' w) as Heq.
  { unfold CreateUser. rewrite bool_decide_eq_false_2 by done.
    unfold mbind, M_bind, query. by rewrite Hcur. }
  split; [done|]. rewrite Heq.
  pose proof (UpdateUser_reactivation user' cur w eq_refl Hcur Hdel) as Hs.
  destruct (UpdateUser user' w) as [r w'].
  destruct Hs as (_ & Hev & _ & Hs).
  split.
  { intros u o Hin. apply (proj1 (Forall_forall _ _) Hev) in Hin as [Hin _]. done. }
  change (usr_Email user') with (usr_Email user) in Hs.
  destruct (w_fault w (w_step w) (DbUpdateUser user')) as [e|].
  - destruct Hs as (_ & -> & _). split; [done|]. by intros.
  - destruct Hs as (-> & Husr & Hall). split.
    + rewrite Husr, dom_insert_L.
      apply subseteq_union_1_L, singleton_subseteq_l, elem_of_dom. by eexists.
    + intros _. split; [done|]. split; [by rewrite Husr, lookup_insert_eq|].
      exact Hall.
Qed.

(** * Further properties *)

(** ** [WriteWireGuardConfigFile] *)

(** Writing is disabled by an empty [ConfigDirectoryPath].  Otherwise the
    directory is checked, the device is rendered with its active peers, and
    the rendering is written to [<dir>/<device>.conf]: the run succeeds when
    the three steps do, and a successful run has made exactly the two calls
    to the file system and left the rendering in the file.  A run that
    returns an error names the step that failed.  When the check or the
    rendering failed, no file changed.  When the write failed, no other file
    changed, and the file itself is as it was if it could not be opened, and
    otherwise holds the bytes of the rendering that were written. *)
Theorem WriteWireGuardConfigFile_spec device w :
  let dir := ConfigDirectoryPath (config w) in
  let dev := GetDevice w device in
  let path := path_Join dir (dev_DeviceName dev +:+ ".conf") in
  let rendered := GetConfigFile dev (GetActivePeers w device) in
  let '(r, w') := WriteWireGuardConfigFile device w in
  (dir = "" → r = Ok tt ∧ w' = w) ∧
  (dir ≠ "" → w_fault w (w_step w) (FsAccess dir) = None →
     ∀ cfg, rendered = inr cfg →
       w_fault w (S (w_step w)) (FsWriteFile path cfg) = None → r = Ok tt) ∧
  (r = Ok tt → dir ≠ "" →
     ∃ cfg, rendered = inr cfg ∧
            w_files w' = <[path := cfg]> (w_files w) ∧
            new_events w w' =
              [(FsAccess dir, None); (FsWriteFile path cfg, None)]) ∧
  (∀ e, r = Err e →
     (∃ cause,
        e = Wrap "failed to check WireGuard config access rights" cause ∧
        new_events w w' = [(FsAccess dir, Some cause)] ∧
        w_files w' = w_files w) ∨
     (∃ cause,
        e = Wrap "failed to get config file" cause ∧
        rendered = inl cause ∧
        new_events w w' = [(FsAccess dir, None)] ∧
        w_files w' = w_files w) ∨
     (∃ cause cfg,
        e = Wrap "failed to write WireGuard config file" cause ∧
        rendered = inr cfg ∧
        new_events w w' =
          [(FsAccess dir, None); (FsWriteFile path cfg, Some cause)] ∧
        (∀ other, other ≠ path → w_files w' !! other = w_files w !! other) ∧
        w_files w' !! path =
          match w_short w (S (w_step w)) with
          | None => w_files w !! path
          | Some k => Some (String.substring 0 k cfg)
          end)).
Proof.
  intros dir dev path rendered. subst dir dev path rendered.
  unfold WriteWireGuardConfigFile, syscall_Access, ioutil_WriteFile, new_events.
  unfold_monad. cbv beta iota zeta.
  case_bool_decide as Hdir; [by repeat split|].
  destruct (w_fault w (w_step w) (FsAccess _)) as [e|] eqn:E1; simpl.
  { split_and!; try done. intros e' [= <-]. left. exists e.
    split_and!; try done. by rewrite drop_app_length. }
  destruct (GetConfigFile _ _) as [e|cfg] eqn:E2; simpl.
  { split_and!; try done. intros e' [= <-]. right; left. exists e.
    split_and!; try done. by rewrite drop_app_length. }
  destruct (w_fault w (S (w_step w)) (FsWriteFile _ _)) as [e|] eqn:E3; simpl.
  { destruct (w_short w (S (w_step w))) as [k|]; simpl;
      (split_and!; try done;
       [ intros _ _ cfg' [= <-] Hn; unfold GetDevice in *; simpl in *; congruence
       | intros e' [= <-]; right; right; exists e, cfg;
         split_and!; try done;
         first [ by rewrite <- app_assoc, drop_app_length
               | intros other Hne; by rewrite lookup_insert_ne
               | by rewrite lookup_insert_eq ] ]). }
  split_and!; try done. intros _ _. exists cfg.
  split_and!; try done. by rewrite <- app_assoc, drop_app_length.
Qed.

(** ** [UpdatePeer] *)

Lemma UpdatePeer_call_deactivated peer updateTime w a :
  DeactivatedAt peer = Some a → ptr_addr a < w_next_addr w →
  UpdatePeer_call peer updateTime w = None.
Proof.
  intros Ha Hlt. unfold UpdatePeer_call. rewrite Ha. simpl.
  destruct (Nat.eqb_spec (ptr_addr a) (w_next_addr w)) as [Heq|_]; [lia|done].
Qed.

Lemma UpdatePeer_call_active peer updateTime w :
  DeactivatedAt peer = None →
  UpdatePeer_call peer updateTime w = Some (active_call peer w).
Proof.
  intros Ha. unfold UpdatePeer_call, active_call. rewrite Ha. simpl.
  by destruct (bool_decide _).
Qed.

(** Once the call of an active peer succeeded, the peer is on the interface
    of its device with the configuration pushed. *)
Lemma active_call_live peer w :
  row_matches w peer →
  wg_effect (active_call peer w) (w_live w) !! (DeviceName peer, PublicKey peer)
  = Some (GetConfig peer).
Proof.
  intros Hrow. unfold active_call. case_bool_decide as Hpres; simpl.
  - rewrite lookup_alter_eq.
    unfold GetPeerByKey, FindPeer in Hpres.
    destruct (w_peers w !! PublicKey peer) as [row|] eqn:Erow; [|done].
    simpl in Hpres. destruct (Hrow row Erow) as [Hd Hk].
    rewrite Hd, Hk in Hpres.
    by destruct (w_live w !! (DeviceName peer, PublicKey peer)).
  - apply lookup_insert_eq.
Qed.

Lemma active_call_other peer w live d k :
  k ≠ PublicKey peer →
  wg_effect (active_call peer w) live !! (d, k) = live !! (d, k).
Proof.
  intros Hk. apply wg_effect_other; unfold active_call;
    destruct (bool_decide _); intros; simplify_eq; simpl; congruence.
Qed.

(** A peer whose [DeactivatedAt] points to a variable taken before the call
    is never taken off the interface by [UpdatePeer], whatever the time in
    that variable and whatever [updateTime]: no call is made to the
    interface controller and the live peers are as before.  The first call
    of the run is the repository write of the peer; when it fails it is the
    only call, [UpdatePeer] returns the error wrapped and the repository is
    unchanged; when it succeeds the repository holds the record, only calls
    to the file system follow, and the run returns [nil] when the
    configuration file can be rewritten. *)
Theorem UpdatePeer_deactivated_makes_no_interface_call peer updateTime w a :
  DeactivatedAt peer = Some a → ptr_addr a < w_next_addr w →
  let o := w_fault w (w_step w) (DbUpdatePeer peer) in
  let '(r, w') := UpdatePeer peer updateTime w in
  w_live w' = w_live w ∧
  Forall (λ ev, is_wg_call ev.1 = false) (new_events w w') ∧
  ∃ fs,
    new_events w w' = (DbUpdatePeer peer, o) :: fs ∧
    Forall (λ ev, is_fs_call ev.1 = true) fs ∧
    match o with
    | Some e =>
        fs = [] ∧ r = Err (Wrap "failed to update peer" e) ∧
        w_peers w' = w_peers w
    | None =>
        w_peers w' = <[PublicKey peer := peer]> (w_peers w) ∧
        (config_file_writable (DeviceName peer) w → r = Ok tt)
    end.
Proof.
  intros Ha Hlt o. subst o.
  unfold UpdatePeer, new_var.
  unfold mbind at 1. unfold M_bind at 1. cbv beta iota zeta.
  unfold mbind at 1. unfold M_bind at 1. unfold query at 1. cbv beta iota zeta.
  rewrite Ha. simpl ptr_eqb.
  destruct (Nat.eqb_spec (ptr_addr a) (w_next_addr w)) as [Heq|_]; [lia|].
  rewrite (bool_decide_eq_false_2 (Some a = None)) by done. simpl andb.
  cbv iota.
  unfold mbind at 1. unfold M_bind at 1. unfold with_message at 1.
  unfold skip at 1. unfold mret, M_ret. cbv beta iota zeta.
  unfold peers_UpdatePeer.
  match goal with |- context [(?m ;; ?k) ?w2] =>
    pose proof (call_then_WriteWireGuardConfigFile
                  "failed to update peer" (DbUpdatePeer peer)
                  (λ w, set_peers (<[PublicKey peer := peer]> (w_peers w)) w)
                  (DeviceName peer) w2) as HT;
    destruct ((m ;; k) w2) as [r w'] end.
  cbv zeta in HT. simpl in HT.
  destruct (w_fault w (w_step w) (DbUpdatePeer peer)) as [e|] eqn:E2.
  - destruct HT as [-> ->]. simpl. split; [done|].
    assert (new_events w
              (set_trace (w_trace w ++ [(DbUpdatePeer peer, Some e)])
                 (set_step (S (w_step w))
                    (set_next_addr (S (w_next_addr w)) w)))
            = [(DbUpdatePeer peer, Some e)]) as ->.
    { unfold new_events. simpl. by rewrite drop_app_length. }
    split; [by repeat constructor|]. exists []. split_and!; done.
  - destruct HT as (Henv & HP & HL & _ & _ & (fs & Ht & Hfs) & _ & Hsucc).
    split; [done|].
    assert (new_events w w' = (DbUpdatePeer peer, None) :: fs) as ->.
    { unfold new_events. rewrite Ht. simpl.
      rewrite <- !app_assoc, drop_app_length. done. }
    split.
    { constructor; [done|]. eapply Forall_impl; [exact Hfs|].
      intros [[] o]; simpl; done. }
    exists fs. split_and!; done.
Qed.

(** For an active peer, [UpdatePeer] calls the interface controller first:
    an update in place when the repository's view of the peer is live, an
    add otherwise.  A failure of that call aborts the run before the
    repository write; a failure of the repository write leaves the
    interface changed. *)
Theorem UpdatePeer_interface_gates_repository peer updateTime w :
  DeactivatedAt peer = None →
  let c := active_call peer w in
  let '(r, w') := UpdatePeer peer updateTime w in
  (∃ o rest, new_events w w' = (c, o) :: rest) ∧
  (∀ e, (c, Some e) ∈ new_events w w' →
        r = Err (Wrap "failed to update WireGuard peer" e) ∧
        new_events w w' = [(c, Some e)] ∧
        w_peers w' = w_peers w ∧ w_live w' = w_live w) ∧
  (∀ q o, (DbUpdatePeer q, o) ∈ new_events w w' →
        q = peer ∧
        ∃ rest, new_events w w' = (c, None) :: (DbUpdatePeer peer, o) :: rest) ∧
  (∀ e, (DbUpdatePeer peer, Some e) ∈ new_events w w' →
        r = Err (Wrap "failed to update peer" e) ∧
        w_peers w' = w_peers w ∧ w_live w' = wg_effect c (w_live w)).
Proof.
  intros Ha c. pose proof (UpdatePeer_spec peer updateTime w) as Hs.
  destruct (UpdatePeer peer updateTime w) as [r w'].
  destruct Hs as (_ & _ & _ & _ & evs & Ht & Hout).
  rewrite (UpdatePeer_call_active _ _ _ Ha) in Hout.
  rewrite (new_events_app _ _ _ Ht).
  subst c. unfold active_call in *.
  destruct (bool_decide (Peer_live (GetPeerByKey w (PublicKey peer)) ≠ None));
    (destruct Hout as [(c0 & e & [= <-] & -> & -> & Hp & Hl & _)
                      | [(e & -> & -> & Hp & Hl & _)
                        | (fs & -> & Hfs & Hr & Hp & Hl)]];
     simpl in *;
     (split; [by eexists _, _|]);
     ((split; [|split]);
      [ intros e' Hin | intros q o Hin | intros e' Hin ]);
     elem_cases Hin; try done; split; try done; by eexists).
Qed.

(** Round trip: after a successful [UpdatePeer] of an active peer, the
    repository returns that peer under its key, with the configuration just
    pushed as its live view; the records and live peers of other keys are
    as before. *)
Theorem UpdatePeer_then_GetPeerByKey peer updateTime w :
  DeactivatedAt peer = None → row_matches w peer →
  let '(r, w') := UpdatePeer peer updateTime w in
  r = Ok tt →
  GetPeerByKey w' (PublicKey peer) = set_Peer_live (Some (GetConfig peer)) peer ∧
  (∀ k, k ≠ PublicKey peer → w_peers w' !! k = w_peers w !! k) ∧
  (∀ d k, k ≠ PublicKey peer → w_live w' !! (d, k) = w_live w !! (d, k)).
Proof.
  intros Ha Hrow. pose proof (UpdatePeer_spec peer updateTime w) as Hs.
  destruct (UpdatePeer peer updateTime w) as [r w'].
  destruct Hs as (_ & _ & _ & _ & evs & Ht & Hout).
  rewrite (UpdatePeer_call_active _ _ _ Ha) in Hout.
  intros ->.
  destruct Hout as [(c0 & e & _ & _ & [=] & _)
                   | [(e & _ & [=] & _) | (fs & _ & _ & _ & Hp & Hl)]].
  split; [|split].
  - unfold GetPeerByKey, FindPeer. rewrite Hp, lookup_insert_eq. simpl.
    unfold populatePeerData. by rewrite Hl, active_call_live.
  - intros k Hk. rewrite Hp. by apply lookup_insert_ne.
  - intros d k Hk. rewrite Hl. by apply active_call_other.
Qed.

(** ** [CreatePeer] *)

(** The errors of the second phase name the step that failed. *)
Lemma CreatePeer_commit_error device p w e :
  (CreatePeer_commit device p w).1 = Err e →
  ∃ cause,
    e = Wrap "failed to add WireGuard peer" cause ∨
    e = Wrap "failed to create peer" cause ∨
    e = Wrap "failed to check WireGuard config access rights" cause ∨
    e = Wrap "failed to get config file" cause ∨
    e = Wrap "failed to write WireGuard config file" cause.
Proof.
  unfold CreatePeer_commit, wg_AddPeer, peers_CreatePeer,
    WriteWireGuardConfigFile, syscall_Access, ioutil_WriteFile.
  unfold_monad.
  repeat (case_match; simplify_eq/=); intros; simplify_eq; eauto 10.
Qed.

(** A peer without addresses is not completed when the allocation fails for
    a pool of the device. *)
Lemma CreatePeer_draft_allocation_failure device peer w pool e :
  IPs peer = [] → pool ∈ dev_IPs (GetDevice w device) →
  GetAvailableIp (w_peers w) device pool = inl e →
  ∃ e', (CreatePeer_draft device peer w).1 =
        Err (Wrap "failed to get available IP addresses" e').
Proof.
  intros Hips Hin Hf. unfold CreatePeer_draft.
  pose proof (allocate_IPs_result device (dev_IPs (GetDevice w device)) w) as Hr.
  unfold_monad. cbv beta iota zeta.
  rewrite bool_decide_eq_true_2 by done.
  destruct (allocate_IPs device (dev_IPs (GetDevice w device)) w)
    as [[ips|e0|msg] wa]; simpl in *; [| |done].
  - destruct (allocated_pool _ _ _ _ _ Hr Hin) as [ip Hip]. congruence.
  - destruct Hr as (? & c & _ & _ & ->). by exists c.
Qed.

(** Allocation and key generation come before any mutation.  When the peer
    has no addresses and the allocation fails for a pool of the device,
    [CreatePeer] returns the allocation error; and whenever [CreatePeer]
    returns the error of an allocation or of a key generation, no
    collaborator was called and no store changed. *)
Theorem CreatePeer_preparation_failure_changes_nothing device peer w :
  let '(r, w') := CreatePeer device peer w in
  (IPs peer = [] →
   ∀ pool e, pool ∈ dev_IPs (GetDevice w device) →
             GetAvailableIp (w_peers w) device pool = inl e →
             ∃ e', r = Err (Wrap "failed to get available IP addresses" e')) ∧
  (∀ cause,
     r = Err (Wrap "failed to get available IP addresses" cause) ∨
     r = Err (Wrap "failed to generate key" cause) ∨
     r = Err (Wrap "failed to generate private key" cause) →
     new_events w w' = [] ∧ w_peers w' = w_peers w ∧ w_live w' = w_live w ∧
     w_users w' = w_users w ∧ w_files w' = w_files w).
Proof.
  rewrite CreatePeer_phases. unfold mbind, M_bind.
  pose proof (CreatePeer_draft_spec device peer w) as Hd.
  pose proof (CreatePeer_draft_allocation_failure device peer w) as Ha.
  destruct (CreatePeer_draft device peer w) as [[p|e|msg] w1];
    destruct Hd as [Hw1 Hd]; [| |done].
  - pose proof (CreatePeer_commit_error device p w1) as Hce.
    destruct (CreatePeer_commit device p w1) as [r w']. simpl in *. split.
    + intros Hips pool e Hin Hf.
      destruct (Ha pool e Hips Hin Hf) as [e' He']. discriminate He'.
    + intros cause Hr.
      assert (∃ e, r = Err e) as [e ->]
        by (destruct Hr as [-> | [-> | ->] ]; eauto).
      destruct (Hce e eq_refl) as (c & Hc).
      destruct Hr as [Hr | [Hr | Hr] ];
        destruct Hc as [-> | [-> | [-> | [-> | ->] ] ] ];
        discriminate Hr.
  - simpl in *. split.
    + intros Hips pool e0 Hin Hf.
      destruct (Ha pool e0 Hips Hin Hf) as [e' He']. simplify_eq. by eexists.
    + intros cause _. rewrite Hw1. unfold new_events. simpl.
      by rewrite drop_all.
Qed.

(** A peer that comes with addresses and a private key is completed without
    the allocator and without the random source. *)
Lemma CreatePeer_draft_supplied device peer w :
  IPs peer ≠ [] → PrivateKey peer ≠ "" →
  CreatePeer_draft device peer w =
  (Ok (set_UID ("u" +:+ md5_hex (PublicKey peer))
         (set_DeviceName (dev_DeviceName (GetDevice w device))
            (set_AllowedIPsStr (dev_AllowedIPsStr (GetDevice w device)) peer))),
   w).
Proof.
  intros Hips Hkey. unfold CreatePeer_draft. unfold_monad. cbv beta iota zeta.
  simpl. by rewrite !bool_decide_eq_false_2 by done.
Qed.

(** [CreatePeer] keeps the addresses and the keys of a peer that comes with
    them: it goes straight to the collaborators, and what it pushes and
    persists is the input with the device's name and allowed IPs and the UID
    of its public key. *)
Theorem CreatePeer_keeps_supplied_addresses_and_keys device peer w :
  IPs peer ≠ [] → PrivateKey peer ≠ "" →
  let dev := GetDevice w device in
  let p := set_UID ("u" +:+ md5_hex (PublicKey peer))
             (set_DeviceName (dev_DeviceName dev)
                (set_AllowedIPsStr (dev_AllowedIPsStr dev) peer)) in
  let '(r, w') := CreatePeer device peer w in
  (∃ c o rest, new_events w w' = (c, o) :: rest) ∧
  (∀ q o, (DbCreatePeer q, o) ∈ new_events w w' → q = p) ∧
  (∀ d c o, (WgAddPeer d c, o) ∈ new_events w w' → d = device ∧ c = GetConfig peer) ∧
  (r = Ok tt → w_peers w' !! PublicKey peer = Some p).
Proof.
  intros Hips Hkey dev p. rewrite CreatePeer_phases. unfold mbind, M_bind.
  rewrite CreatePeer_draft_supplied by done. fold dev. fold p.
  pose proof (CreatePeer_commit_spec device p w) as Hc.
  destruct (CreatePeer_commit device p w) as [r w'].
  destruct Hc as (_ & _ & _ & evs & Ht & Hc).
  rewrite (new_events_app _ _ _ Ht).
  destruct (commit_outcome_events _ _ _ _ _ _ Hc) as [Hdb Hwg].
  split; [|split; [|split]].
  - destruct Hc as [(_ & e & -> & _) | [(e & -> & _) | (fs & -> & _)]];
      try case_bool_decide; simpl; eauto.
  - intros q o Hin. by eapply Hdb.
  - intros d c o Hin. by eapply Hwg.
  - intros ->. rewrite (commit_outcome_ok _ _ _ _ _ Hc).
    change (PublicKey p) with (PublicKey peer). apply lookup_insert_eq.
Qed.

(** A deactivated peer is persisted without a call to the interface
    controller: the live peers are as before, and on success the repository
    holds the completed peer, still deactivated. *)
Theorem CreatePeer_deactivated_is_not_pushed device peer w a :
  DeactivatedAt peer = Some a →
  let '(r, w') := CreatePeer device peer w in
  w_live w' = w_live w ∧
  Forall (λ ev, is_wg_call ev.1 = false) (new_events w w') ∧
  (r = Ok tt →
   ∃ p, drafted device peer w p ∧ DeactivatedAt p = Some a ∧
        w_peers w' = <[PublicKey p := p]> (w_peers w)).
Proof.
  intros Ha. pose proof (CreatePeer_spec device peer w) as Hs.
  destruct (CreatePeer device peer w) as [r w'].
  destruct Hs as (_ & _ & _ & [([e ->] & -> & _ & Hl) | (p & Hd & Hc)]).
  { by repeat split. }
  assert (DeactivatedAt p = Some a) as Hp.
  { destruct Hd as (_ & _ & _ & -> & _). done. }
  unfold commit_outcome in Hc. rewrite bool_decide_eq_false_2 in Hc by congruence.
  destruct Hc as [(Hact & _) | [(e & -> & -> & _ & Hl & _)
                               | (fs & -> & Hfs & Hr & Hpe & Hl)]];
    [congruence| |]; simpl.
  - split; [done|]. split; [by repeat constructor | done].
  - split; [done|]. split.
    + constructor; [done|]. eapply Forall_impl; [exact Hfs|].
      intros [[] o]; simpl; done.
    + intros _. by exists p.
Qed.

(** No rollback: when the repository write of [CreatePeer] fails, the error
    is returned wrapped and the repository is unchanged, but a peer that was
    pushed stays on the interface. *)
Theorem CreatePeer_repository_failure_leaves_peer_live device peer w :
  let '(r, w') := CreatePeer device peer w in
  ∀ p e, (DbCreatePeer p, Some e) ∈ new_events w w' →
    r = Err (Wrap "failed to create peer" e) ∧
    w_peers w' = w_peers w ∧
    (DeactivatedAt peer = None →
     w_live w' !! (device, PublicKey p) = Some (GetConfig p)) ∧
    (DeactivatedAt peer ≠ None → w_live w' = w_live w).
Proof.
  pose proof (CreatePeer_spec device peer w) as Hs.
  destruct (CreatePeer device peer w) as [r w'].
  destruct Hs as (_ & _ & _ & [(_ & -> & _) | (p & Hd & Hc)]).
  { intros p e Hin. by apply not_elem_of_nil in Hin. }
  assert (DeactivatedAt p = DeactivatedAt peer) as Hp.
  { by destruct Hd as (_ & _ & _ & -> & _). }
  intros q e Hin. unfold commit_outcome in Hc. rewrite Hp in Hc.
  destruct Hc as [(_ & e0 & Hev & _) | [(e0 & Hev & -> & Hpe & Hl & _)
                                       | (fs & Hev & Hfs & _)]];
    rewrite Hev in Hin.
  - elem_cases Hin.
  - case_bool_decide as Hact; elem_cases Hin;
      repeat split; try done; intros _; rewrite Hl; apply lookup_insert_eq.
  - case_bool_decide as Hact; elem_cases Hin.
Qed.

(** Round trip: after a successful [CreatePeer] of an active peer on a
    device of the repository, [GetPeerByKey] returns the completed peer with
    the configuration just pushed as its live view, and the peer is among
    the active peers of the device. *)
Theorem CreatePeer_then_GetPeerByKey device peer w :
  DeactivatedAt peer = None →
  dev_DeviceName (GetDevice w device) = device →
  let '(r, w') := CreatePeer device peer w in
  r = Ok tt →
  ∃ p, drafted device peer w p ∧
       GetPeerByKey w' (PublicKey p) = set_Peer_live (Some (GetConfig p)) p ∧
       set_Peer_live (Some (GetConfig p)) p ∈ GetActivePeers w' device.
Proof.
  intros Hact Hdev. pose proof (CreatePeer_spec device peer w) as Hs.
  destruct (CreatePeer device peer w) as [r w'].
  destruct Hs as (_ & _ & _ & [([e ->] & _) | (p & Hd & Hc)]); [done|].
  intros ->. exists p. split; [done|].
  pose proof (commit_outcome_ok _ _ _ _ _ Hc) as Hpe.
  assert (DeactivatedAt p = None ∧ DeviceName p = device) as [Hp Hn].
  { destruct Hd as (_ & -> & _ & -> & _). done. }
  assert (w_live w' !! (device, PublicKey p) = Some (GetConfig p)) as Hl.
  { unfold commit_outcome in Hc. rewrite bool_decide_eq_true_2 in Hc by done.
    destruct Hc as [(_ & e & _ & [=] & _) | [(e & _ & [=] & _)
                                            | (fs & _ & _ & _ & _ & ->)]].
    apply lookup_insert_eq. }
  assert (populatePeerData w' p = set_Peer_live (Some (GetConfig p)) p) as Hpop.
  { unfold populatePeerData. by rewrite Hn, Hl. }
  split.
  - unfold GetPeerByKey, FindPeer. by rewrite Hpe, lookup_insert_eq.
  - rewrite <- Hpop. unfold GetActivePeers.
    apply list_elem_of_fmap. exists p. split; [done|].
    apply list_elem_of_filter. split; [done|].
    apply list_elem_of_fmap. exists (PublicKey p, p). split; [done|].
    apply elem_of_map_to_list. by rewrite Hpe, lookup_insert_eq.
Qed.

(** ** [DeleteUser] *)

(** Deactivating the peer [q] never returns an error and never calls the
    interface controller: [DeactivatedAt] points to the variable [now] of
    the loop body, which is not the variable [updateTime] of [UpdatePeer].
    The peer is written to the repository with the time of the clock. *)
Lemma deactivate_step_spec email q v :
  let q' := set_DeactivatedAt
              (Some (mkTimePtr (w_next_addr v) (w_clock v (w_step v)))) q in
  let '(r, v') := deactivate_step email q v in
  r = Ok tt ∧ same_env v v' ∧ w_users v' = w_users v ∧ w_live v' = w_live v ∧
  (∃ evs, w_trace v' = w_trace v ++ evs ∧
          Forall (λ ev, is_wg_call ev.1 = false ∧ is_user_create ev.1 = false) evs) ∧
  (∀ k, k ≠ PublicKey q → w_peers v' !! k = w_peers v !! k) ∧
  ((∀ n, w_fault v n (DbUpdatePeer q') = None) →
   w_peers v' !! PublicKey q = Some q').
Proof.
  intros q'. unfold deactivate_step, time_Now, new_var. unfold mbind, M_bind.
  cbv beta iota zeta. simpl w_next_addr. fold q'.
  set (v1 := set_next_addr _ _). set (t := w_clock v (w_step v)).
  pose proof (UpdatePeer_spec q' t v1) as Hs.
  unfold on_error, logrus_Errorf.
  destruct (UpdatePeer q' t v1) as [ru vu].
  destruct Hs as (Henv & Hu & Hnp & _ & evs & Ht & Hout).
  rewrite (UpdatePeer_call_deactivated q' t v1
             (mkTimePtr (w_next_addr v) t)) in Hout;
    [|done|subst v1; simpl; lia].
  assert (∀ fs : list Event,
            Forall (λ ev, is_fs_call ev.1 = true) fs →
            Forall (λ ev, is_wg_call ev.1 = false ∧ is_user_create ev.1 = false) fs)
    as Hfs_ok.
  { intros fs Hfs. eapply Forall_impl; [exact Hfs|].
    intros [[] o]; simpl; done. }
  destruct Hout as [(c0 & e & [=] & _)
                   | [(e & -> & -> & Hp & Hl & n & Hf)
                     | (fs & -> & Hfs & Hr & Hp & Hl)]];
    subst v1; simpl in *.
  - split_and!; try (apply Henv || done).
    + eexists. split; [rewrite Ht; trace_ext|]. by repeat constructor.
    + intros. by rewrite Hp.
    + intros Hcs. specialize (Hcs n). congruence.
  - destruct Hr as [->|[e ->]]; simpl;
      (split_and!; try (apply Henv || done);
       [ eexists; split; [rewrite Ht; trace_ext|];
         constructor; [done|];
         first [ by apply Hfs_ok
               | apply Forall_app; split; [by apply Hfs_ok | by repeat constructor] ]
       | intros; rewrite Hp; by apply lookup_insert_ne
       | intros _; rewrite Hp; apply lookup_insert_eq ]).
Qed.

(** The deactivation loop: no call to the interface controller, the live
    peers untouched, and every peer whose repository write cannot fail ends
    up deactivated in the repository. *)
Lemma deactivate_loop_spec email l v :
  let '(r, v') := for_each l (deactivate_step email) v in
  r = Ok tt ∧ same_env v v' ∧ w_users v' = w_users v ∧ w_live v' = w_live v ∧
  (∃ evs, w_trace v' = w_trace v ++ evs ∧
          Forall (λ ev, is_wg_call ev.1 = false ∧ is_user_create ev.1 = false) evs) ∧
  (∀ k, k ∉ PublicKey <$> l → w_peers v' !! k = w_peers v !! k) ∧
  (NoDup (PublicKey <$> l) →
   ∀ q, q ∈ l →
        (∀ n a, w_fault v n (DbUpdatePeer (set_DeactivatedAt (Some a) q)) = None) →
        ∃ a, w_peers v' !! PublicKey q = Some (set_DeactivatedAt (Some a) q)).
Proof.
  revert v. induction l as [|p l IH]; intros v.
  { simpl. split; [done|]. split; [apply same_env_refl|]. split; [done|].
    split; [done|]. split; [exists []; by rewrite app_nil_r|].
    split; [done|]. intros _ q Hq. by apply not_elem_of_nil in Hq. }
  simpl. unfold mbind, M_bind.
  pose proof (deactivate_step_spec email p v) as Hs.
  destruct (deactivate_step email p v) as [r1 v1].
  destruct Hs as (-> & Henv1 & Hu1 & Hl1 & (evs1 & Ht1 & Hev1) & Hpe1 & Hself).
  specialize (IH v1).
  destruct (for_each l (deactivate_step email) v1) as [r v'].
  destruct IH as (-> & Henv & Hu & Hl & (evs & Ht & Hev) & Hpe & Hall).
  split; [done|]. split; [by eapply same_env_trans|].
  split; [congruence|]. split; [congruence|]. split.
  { exists (evs1 ++ evs). split; [by rewrite Ht, Ht1, app_assoc|].
    by apply Forall_app. }
  split.
  { intros k Hk. rewrite ?fmap_cons in Hk. apply not_elem_of_cons in Hk as [Hk1 Hk2].
    rewrite Hpe by done. by apply Hpe1. }
  intros Hnd. rewrite ?fmap_cons in Hnd. apply NoDup_cons in Hnd as [Hp Hnd].
  intros q Hq Hcs. apply elem_of_cons in Hq as [->|Hq].
  - eexists. rewrite Hpe by done. apply Hself. intros n. apply Hcs.
  - apply (Hall Hnd q Hq). intros n a.
    destruct Henv1 as (_ & _ & -> & _). apply Hcs.
Qed.

(** [DeleteUser] soft-deletes the record and, when the user was active,
    deactivates the user's peers in the repository; it never calls the
    interface controller, so every peer that was live stays live. *)
Theorem DeleteUser_deactivates_in_repository_only user cur w :
  GetUserUnscoped w (usr_Email user) = Some cur →
  let '(r, w') := DeleteUser user w in
  w_live w' = w_live w ∧
  Forall (λ ev, is_wg_call ev.1 = false) (new_events w w') ∧
  match w_fault w (w_step w) (DbDeleteUser user) with
  | Some e =>
      r = Err (Wrap "failed to delete user in manager" e) ∧
      w_users w' = w_users w ∧ w_peers w' = w_peers w
  | None =>
      r = Ok tt ∧
      (∃ t, w_users w' !! usr_Email user =
            Some (set_usr_DeletedAt (mkDeletedAt t true) cur)) ∧
      (del_Valid (usr_DeletedAt cur) = true → w_peers w' = w_peers w) ∧
      (del_Valid (usr_DeletedAt cur) = false →
       keyed_by_PublicKey (w_peers w) →
       ∀ p, p ∈ GetPeersByMail w (usr_Email user) →
            (∀ n a, w_fault w n (DbUpdatePeer (set_DeactivatedAt (Some a) p)) = None) →
            ∃ a, w_peers w' !! PublicKey p = Some (set_DeactivatedAt (Some a) p))
  end.
Proof.
  intros Hcur. unfold DeleteUser.
  unfold mbind at 1. unfold M_bind at 1. unfold query at 1.
  cbv beta iota zeta. rewrite Hcur.
  unfold mbind at 1. unfold M_bind at 1.
  unfold with_message, users_DeleteUser, call.
  destruct (w_fault w (w_step w) (DbDeleteUser user)) as [e|] eqn:E.
  { unfold new_events. simpl. rewrite drop_app_length.
    repeat split; try done. by repeat constructor. }
  set (w1 := set_users _ _).
  assert (w_users w1 !! usr_Email user =
          Some (set_usr_DeletedAt (mkDeletedAt (w_clock w (S (w_step w))) true) cur))
    as Husr.
  { subst w1. simpl. rewrite lookup_alter_eq.
    unfold GetUserUnscoped in Hcur. by rewrite Hcur. }
  destruct (del_Valid (usr_DeletedAt cur)) eqn:Hdel; simpl.
  - unfold mbind, M_bind, skip, mret, M_ret. subst w1. simpl in *.
    unfold new_events. simpl. rewrite drop_app_length.
    repeat split; try done; [by repeat constructor | by eexists].
  - unfold mbind at 1. unfold M_bind at 1.
    unfold mbind at 1. unfold M_bind at 1. unfold query. cbv beta iota zeta.
    change (GetPeersByMail w1 (usr_Email user))
      with (GetPeersByMail w (usr_Email user)).
    change (λ peer : Peer, _) with (deactivate_step (usr_Email user)).
    pose proof (deactivate_loop_spec (usr_Email user)
                  (GetPeersByMail w (usr_Email user)) w1) as Hl.
    destruct (for_each _ _ w1) as [r w'].
    destruct Hl as (-> & Henv & Hu & Hlive & (evs & Ht & Hev) & _ & Hall).
    unfold skip, mret, M_ret. subst w1. simpl in *.
    split; [done|]. split.
    { unfold new_events. rewrite Ht, <- app_assoc, drop_app_length.
      constructor; [done|]. eapply Forall_impl; [exact Hev|]. by intros ? [? _]. }
    split; [done|]. split; [rewrite Hu; by eexists|]. split; [done|].
    intros _ Hkey p Hp Hf.
    exact (Hall (GetPeersByMail_NoDup w _ Hkey) p Hp Hf).
Qed.

(** ** [UpdateUser] and [CreateUser] *)

(** [UpdateUser] and [DeleteUser] read [currentUser.DeletedAt] after the
    repository write, without checking [currentUser] for nil: for an email
    without a record, the write happens and the dereference panics. *)
Theorem UpdateUser_unknown_user_panics user w :
  GetUserUnscoped w (usr_Email user) = None →
  (del_Valid (usr_DeletedAt user) = false →
   w_fault w (w_step w) (DbUpdateUser user) = None →
   let '(r, w') := UpdateUser user w in
   (∃ msg, r = Panic msg) ∧ w_users w' !! usr_Email user = Some user ∧
   new_events w w' = [(DbUpdateUser user, None)]) ∧
  (w_fault w (w_step w) (DbDeleteUser user) = None →
   let '(r, w') := DeleteUser user w in
   (∃ msg, r = Panic msg) ∧ w_users w' = w_users w ∧
   new_events w w' = [(DbDeleteUser user, None)]).
Proof.
  intros Hcur. split.
  - intros Hu Hf. unfold UpdateUser. rewrite Hu.
    unfold users_UpdateUser, new_events. unfold_monad. cbv beta iota zeta.
    rewrite Hcur, Hf. simpl. rewrite drop_app_length, lookup_insert_eq.
    repeat split; by eauto.
  - intros Hf. unfold DeleteUser.
    unfold users_DeleteUser, new_events. unfold_monad. cbv beta iota zeta.
    rewrite Hcur, Hf. simpl. rewrite drop_app_length.
    repeat split; eauto.
    apply map_eq. intros k. unfold GetUserUnscoped in Hcur.
    destruct (decide (k = usr_Email user)) as [->|Hne].
    + by rewrite lookup_alter_eq, Hcur.
    + by rewrite lookup_alter_ne.
Qed.

(** [UpdateUser] of a user who is not soft-deleted and was not: the record
    is written and nothing else happens; no peer and no interface is
    touched. *)
Theorem UpdateUser_active_user_touches_no_peer user cur w :
  del_Valid (usr_DeletedAt user) = false →
  GetUserUnscoped w (usr_Email user) = Some cur →
  del_Valid (usr_DeletedAt cur) = false →
  let '(r, w') := UpdateUser user w in
  w_peers w' = w_peers w ∧ w_live w' = w_live w ∧
  match w_fault w (w_step w) (DbUpdateUser user) with
  | Some e =>
      r = Err (Wrap "failed to update user in manager" e) ∧
      w_users w' = w_users w ∧
      new_events w w' = [(DbUpdateUser user, Some e)]
  | None =>
      r = Ok tt ∧ w_users w' = <[usr_Email user := user]> (w_users w) ∧
      new_events w w' = [(DbUpdateUser user, None)]
  end.
Proof.
  intros Hu Hcur Hdel. unfold UpdateUser. rewrite Hu.
  unfold users_UpdateUser, new_events. unfold_monad. cbv beta iota zeta.
  rewrite Hcur.
  destruct (w_fault w (w_step w) (DbUpdateUser user)) as [e|]; simpl.
  - by rewrite drop_app_length.
  - rewrite Hdel. simpl. by rewrite drop_app_length.
Qed.

(** ** [CreateUserDefaultPeer] *)




(** ** [CreateUser] *)

Lemma commit_outcome_no_user_create device p w w' r evs :
  commit_outcome device p w w' r evs →
  Forall (λ ev, is_user_create ev.1 = false) evs.
Proof.
  unfold commit_outcome.
  intros [(_ & e & -> & _) | [(e & -> & _) | (fs & -> & Hfs & _)]].
  - by repeat constructor.
  - case_bool_decide; by repeat constructor.
  - apply Forall_app. split; [case_bool_decide; by repeat constructor|].
    constructor; [done|]. eapply Forall_impl; [exact Hfs|].
    intros [[] o]; simpl; done.
Qed.

(** [CreatePeer] extends the trace by calls that create no user, writes no
    user record and does not panic. *)
Lemma CreatePeer_trace device peer w :
  let '(r, w') := CreatePeer device peer w in
  w_users w' = w_users w ∧ (∀ msg, r ≠ Panic msg) ∧
  ∃ evs, w_trace w' = w_trace w ++ evs ∧
         Forall (λ ev, is_user_create ev.1 = false) evs.
Proof.
  rewrite CreatePeer_phases. unfold mbind, M_bind.
  pose proof (CreatePeer_draft_spec device peer w) as Hd.
  destruct (CreatePeer_draft device peer w) as [[p|e|msg] w1];
    destruct Hd as [Hw1 Hd]; [| |done].
  - pose proof (CreatePeer_commit_spec device p w1) as Hc.
    destruct (CreatePeer_commit device p w1) as [r w'].
    destruct Hc as (_ & Hu & Hnp & evs & Ht & Hc).
    rewrite Hw1 in Hu, Ht. simpl in *. split; [done|]. split; [done|].
    exists evs. split; [done|]. by eapply commit_outcome_no_user_create.
  - rewrite Hw1. simpl. split; [done|]. split; [done|].
    exists []. by rewrite app_nil_r.
Qed.

(** [CreateUserDefaultPeer] writes no user record, creates no user and does
    not panic. *)
Lemma CreateUserDefaultPeer_frame email device w :
  let '(r, w') := CreateUserDefaultPeer email device w in
  w_users w' = w_users w ∧ (∀ msg, r ≠ Panic msg) ∧
  ∃ evs, w_trace w' = w_trace w ++ evs ∧
         Forall (λ ev, is_user_create ev.1 = false) evs.
Proof.
  unfold CreateUserDefaultPeer.
  unfold mbind at 1. unfold M_bind at 1. unfold query at 1. cbv beta iota zeta.
  assert (∀ v : World, w_users v = w_users v ∧ (∀ msg, Ok tt ≠ Panic msg) ∧
            ∃ evs, w_trace v = w_trace v ++ evs ∧
                   Forall (λ ev : Event, is_user_create ev.1 = false) evs) as Hskip.
  { intros v. repeat split; try done. exists []. by rewrite app_nil_r. }
  destruct (GetUser w email) as [u|]; [|exact (Hskip w)].
  unfold mbind at 1. unfold M_bind at 1. unfold get_world at 1. cbv beta iota zeta.
  destruct (CreateDefaultPeer (config w)); [|exact (Hskip w)].
  unfold mbind at 1. unfold M_bind at 1. unfold query at 1. cbv beta iota zeta.
  destruct (bool_decide _); [|exact (Hskip w)].
  unfold with_message.
  match goal with |- context [CreatePeer device ?dp w] =>
    pose proof (CreatePeer_trace device dp w) as Hs;
    destruct (CreatePeer device dp w) as [r0 w'] end.
  destruct Hs as (Hus & Hnp & Hev).
  destruct r0 as [[]|e|msg]; [by repeat split | by repeat split | by destruct (Hnp msg)].
Qed.

(** [CreateUser] rejects an empty email before anything else, never panics,
    and creates a user record only for the input user, whose email is not
    empty and has no record yet, soft-deleted records included. *)
Theorem CreateUser_creates_only_unknown_users user device w :
  (usr_Email user = "" →
   CreateUser user device w =
   (Err (Cause "cannot create user with empty email address"), w)) ∧
  let '(r, w') := CreateUser user device w in
  (∀ msg, r ≠ Panic msg) ∧
  (∀ u o, (DbCreateUser u, o) ∈ new_events w w' →
     u = user ∧ usr_Email user ≠ "" ∧
     GetUserUnscoped w (usr_Email user) = None).
Proof.
  split.
  { intros He. unfold CreateUser. by rewrite bool_decide_eq_true_2. }
  unfold CreateUser. case_bool_decide as He.
  { unfold fail. rewrite new_events_refl. split; [done|].
    intros u o Hin. by apply not_elem_of_nil in Hin. }
  unfold mbind at 1. unfold M_bind at 1. unfold query at 1. cbv beta iota zeta.
  destruct (GetUserUnscoped w (usr_Email user)) as [cur|] eqn:Hcur.
  - (* a record exists: the run is that of [UpdateUser] *)
    set (user' := set_usr_DeletedAt DeletedAt_zero user).
    destruct (del_Valid (usr_DeletedAt cur)) eqn:Hdel.
    + pose proof (UpdateUser_reactivation user' cur w eq_refl Hcur Hdel) as Hs.
      destruct (UpdateUser user' w) as [r w'].
      destruct Hs as (_ & Hev & _ & Hs). split.
      * destruct (w_fault w (w_step w) (DbUpdateUser user'));
          destruct Hs as (-> & _); done.
      * intros u o Hin.
        apply (proj1 (Forall_forall _ _) Hev) in Hin as [Hin _]. done.
    + unfold UpdateUser. simpl.
      unfold users_UpdateUser, new_events. unfold_monad. cbv beta iota zeta.
      change (usr_Email user') with (usr_Email user). rewrite Hcur.
      destruct (w_fault w (w_step w) (DbUpdateUser user')) as [e|]; simpl;
        [|rewrite Hdel; simpl]; rewrite drop_app_length;
        (split; [done|]; intros u o Hin; elem_cases Hin).
  - (* no record: the user is created, then the default peer *)
    unfold mbind at 1. unfold M_bind at 1.
    unfold with_message, users_CreateUser, call.
    destruct (w_fault w (w_step w) (DbCreateUser user)) as [e|] eqn:E.
    { unfold new_events. simpl. rewrite drop_app_length. split; [done|].
      intros u o Hin. elem_cases Hin. }
    match goal with |- context [CreateUserDefaultPeer ?m ?d ?w1] =>
      pose proof (CreateUserDefaultPeer_frame m d w1) as Hf;
      destruct (CreateUserDefaultPeer m d w1) as [r w'] end.
    destruct Hf as (_ & Hnp & evs & Ht & Hev). simpl in *.
    split; [done|]. intros u o Hin.
    unfold new_events in Hin. rewrite Ht, <- app_assoc, drop_app_length in Hin.
    apply elem_of_cons in Hin as [Hin|Hin]; [by simplify_eq|].
    apply (proj1 (Forall_forall _ _) Hev) in Hin. done.
Qed.

(** ** [RestoreWireGuardInterface], once more *)

Lemma live_with_other_key device l live key :
  (∀ q, q ∈ l → (device, PublicKey q) ≠ key) →
  live_with device l live !! key = live !! key.
Proof.
  revert live. induction l as [|q l IH]; intros live Hk; [done|].
  simpl. rewrite IH.
  - apply lookup_insert_ne. apply Hk. left.
  - intros q' Hq'. apply Hk. by right.
Qed.

(** [RestoreWireGuardInterface] only adds: it writes no repository, its
    calls are [AddPeer]s on the device for active peers that the interface
    did not know, and a peer that was on an interface keeps its
    configuration, whether the repository knows it or not.  When the
    interface knows every active peer, the run changes nothing. *)
Theorem RestoreWireGuardInterface_only_adds device w :
  let '(r, w') := RestoreWireGuardInterface device w in
  w_peers w' = w_peers w ∧ w_users w' = w_users w ∧
  (∀ key cfg, w_live w !! key = Some cfg → w_live w' !! key = Some cfg) ∧
  (∀ c o, (c, o) ∈ new_events w w' →
     ∃ p, p ∈ GetActivePeers w device ∧ Peer_live p = None ∧
          c = WgAddPeer device (GetConfig p)) ∧
  (Forall (λ p, Peer_live p ≠ None) (GetActivePeers w device) →
   r = Ok tt ∧ w' = w).
Proof.
  rewrite RestoreWireGuardInterface_loop. unfold mbind, M_bind.
  pose proof (restore_loop_spec device (GetActivePeers w device) w) as Hs.
  pose proof (restore_loop_present device (GetActivePeers w device) w) as Hpres.
  destruct (for_each (GetActivePeers w device) (restore_step device) w) as [r w1].
  destruct Hs as (_ & Hpe & Hu & Hs).
  assert (∀ l key cfg,
            (∀ q, q ∈ l → q ∈ GetActivePeers w device) →
            w_live w !! key = Some cfg →
            live_with device (absent l) (w_live w) !! key = Some cfg) as Hkeep.
  { intros l key cfg Hl Hk. rewrite live_with_other_key; [done|].
    intros q Hq Heq. unfold absent in Hq.
    apply list_elem_of_filter in Hq as [Hqa Hq].
    apply Hl, GetActivePeers_elem in Hq as (_ & _ & Hlive & _).
    rewrite Hqa in Hlive. rewrite <- Heq in Hk. congruence. }
  assert (∀ l c o,
            (∀ q, q ∈ l → q ∈ GetActivePeers w device) →
            (c, o) ∈ added device (absent l) →
            ∃ p, p ∈ GetActivePeers w device ∧ Peer_live p = None ∧
                 c = WgAddPeer device (GetConfig p)) as Hadd.
  { intros l c o Hl Hin. unfold added in Hin.
    apply list_elem_of_fmap in Hin as (q & [= -> ->] & Hq).
    apply list_elem_of_filter in Hq as [Hqa Hq]. exists q. auto. }
  destruct Hs as [(-> & Ht & Hl) | (l1 & p & l2 & e & Hl12 & Hp & -> & Ht & Hl)].
  - unfold skip, mret, M_ret. split; [done|]. split; [done|]. split; [|split].
    + intros key cfg Hk. rewrite Hl. by apply Hkeep.
    + intros c o Hin. rewrite (new_events_app _ _ _ Ht) in Hin.
      by apply (Hadd (GetActivePeers w device) c o).
    + intros Hall. by injection (Hpres Hall) as <-.
  - assert (∀ q, q ∈ l1 → q ∈ GetActivePeers w device) as Hl1.
    { intros q Hq. rewrite Hl12. apply elem_of_app. by left. }
    split; [done|]. split; [done|]. split; [|split].
    + intros key cfg Hk. rewrite Hl. by apply Hkeep.
    + intros c o Hin. rewrite (new_events_app _ _ _ Ht) in Hin.
      apply elem_of_app in Hin as [Hin|Hin]; [by apply (Hadd l1 c o)|].
      apply list_elem_of_singleton in Hin. simplify_eq.
      exists p. split; [|done]. rewrite Hl12. apply elem_of_app. right. left.
    + intros Hall. by specialize (Hpres Hall).
Qed.

(** ** The allocation loop, once more *)

Lemma allocate_IPs_first_failure device w l1 pool l2 e :
  Forall (λ q, ∃ ip, GetAvailableIp (w_peers w) device q = inr ip) l1 →
  GetAvailableIp (w_peers w) device pool = inl e →
  allocate_IPs device (l1 ++ pool :: l2) w =
  (Err (Wrap "failed to get available IP addresses" e), w).
Proof.
  induction 1 as [|q l1 [ip Hip] _ IH]; intros Hf; simpl.
  - unfold peers_GetAvailableIp. unfold_monad. by rewrite Hf.
  - unfold peers_GetAvailableIp in *. unfold_monad. rewrite Hip.
    by rewrite (IH Hf).
Qed.

(** The allocation stops at the first pool, in the order of the device's
    pools, for which the allocator fails: [PrepareNewPeer] returns that
    error wrapped, without reading the random source, and [CreatePeer] of a
    peer without addresses does the same, without calling a collaborator. *)
Theorem allocation_stops_at_first_exhausted_pool device w l1 pool l2 e :
  dev_IPs (GetDevice w device) = l1 ++ pool :: l2 →
  Forall (λ q, ∃ ip, GetAvailableIp (w_peers w) device q = inr ip) l1 →
  GetAvailableIp (w_peers w) device pool = inl e →
  PrepareNewPeer device w =
    (Err (Wrap "failed to get available IP addresses" e), w) ∧
  ∀ peer, IPs peer = [] →
    CreatePeer device peer w =
    (Err (Wrap "failed to get available IP addresses" e), w).
Proof.
  intros Hpools Hl1 Hf.
  pose proof (allocate_IPs_first_failure device w l1 pool l2 e Hl1 Hf) as Ha.
  split.
  - unfold PrepareNewPeer. unfold_monad. cbv beta iota zeta.
    by rewrite Hpools, Ha.
  - intros peer Hips. unfold CreatePeer. unfold_monad. cbv beta iota zeta.
    simpl. rewrite bool_decide_eq_true_2 by done. by rewrite Hpools, Ha.
Qed.

(** ** [CreatePeerByEmail] *)

(** [PrepareNewPeer] moves the step counter only, does not panic, and its
    draft is active. *)
Lemma PrepareNewPeer_frame device w :
  let '(r, w') := PrepareNewPeer device w in
  w' = set_step (w_step w') w ∧ (∀ msg, r ≠ Panic msg) ∧
  (∀ p, r = Ok p → DeactivatedAt p = None).
Proof.
  unfold PrepareNewPeer, wgtypes_GeneratePrivateKey, wgtypes_GenerateKey.
  pose proof (allocate_IPs_world device (dev_IPs (GetDevice w device)) w) as Hw.
  pose proof (allocate_IPs_result device (dev_IPs (GetDevice w device)) w) as Hr.
  unfold_monad. cbv beta iota zeta.
  destruct (allocate_IPs device (dev_IPs (GetDevice w device)) w)
    as [[ips|e|msg] wa]; simpl in Hw, Hr; subst wa; [| |done].
  - destruct (w_rand w (w_step w)); simpl; [|by destruct w].
    destruct (w_rand w (S (w_step w))); simpl; [|by destruct w].
    split; [by destruct w|]. split; [done|]. by intros p [= <-].
  - by destruct w.
Qed.

Lemma commit_outcome_deactivated device p w w' r evs :
  commit_outcome device p w w' r evs → DeactivatedAt p ≠ None →
  w_live w' = w_live w ∧ Forall (λ ev, is_wg_call ev.1 = false) evs.
Proof.
  unfold commit_outcome. intros Hc Hp.
  rewrite bool_decide_eq_false_2 in Hc by done.
  destruct Hc as [(? & _) | [(e & -> & _ & _ & Hl & _)
                            | (fs & -> & Hfs & _ & _ & Hl)]]; [done| |].
  - split; [done|]. by repeat constructor.
  - split; [done|]. constructor; [done|].
    eapply Forall_impl; [exact Hfs|]. intros [[] o]; simpl; done.
Qed.

(** Once the user is known, [CreatePeerByEmail] prepares a peer, labels it
    and hands it to [CreatePeer]. *)
Lemma CreatePeerByEmail_tail_spec device email suffix disabled u w :
  let '(r, w') := CreatePeerByEmail_tail device email suffix disabled u w in
  w_users w' = w_users w ∧ (∀ msg, r ≠ Panic msg) ∧
  ∃ evs, w_trace w' = w_trace w ++ evs ∧
    Forall (λ ev, is_user_create ev.1 = false) evs ∧
    (∀ p o, (DbCreatePeer p, o) ∈ evs →
       Email p = email ∧
       Identifier p = usr_Firstname u +:+ " " +:+ usr_Lastname u +:+
                      " (" +:+ suffix +:+ ")" ∧
       (disabled = true → ∃ a, DeactivatedAt p = Some a) ∧
       (disabled = false → DeactivatedAt p = None)) ∧
    (disabled = true →
     w_live w' = w_live w ∧ Forall (λ ev, is_wg_call ev.1 = false) evs).
Proof.
  unfold CreatePeerByEmail_tail.
  unfold mbind at 1. unfold M_bind at 1. unfold with_message.
  pose proof (PrepareNewPeer_frame device w) as Hp.
  destruct (PrepareNewPeer device w) as [[peer|e|msg] w1];
    destruct Hp as (Hw1 & Hnp & Hact); [| |by destruct (Hnp msg)].
  2:{ rewrite Hw1. simpl. split; [done|]. split; [done|].
      exists []. rewrite app_nil_r. split_and!; try done.
      intros q o Hin. by apply not_elem_of_nil in Hin. }
  specialize (Hact peer eq_refl).
  unfold time_Now, new_var. unfold mbind, M_bind. cbv beta iota zeta.
  match goal with |- context [CreatePeer device ?pe ?v] =>
    set (peer' := pe); set (w3 := v) end.
  pose proof (CreatePeer_spec device peer' w3) as Hs.
  pose proof (CreatePeer_trace device peer' w3) as Htr.
  destruct (CreatePeer device peer' w3) as [r w'].
  destruct Hs as (_ & _ & _ & Hs). destruct Htr as (Hu & Hnp' & evs & Ht & Hev).
  rewrite (new_events_app _ _ _ Ht) in Hs.
  assert (w_users w3 = w_users w ∧ w_trace w3 = w_trace w ∧ w_live w3 = w_live w)
    as (Hu3 & Ht3 & Hl3).
  { subst w3. simpl. by rewrite Hw1. }
  split; [congruence|]. split; [done|].
  exists evs. split; [congruence|]. split; [done|].
  assert (Email peer' = email ∧
          Identifier peer' = usr_Firstname u +:+ " " +:+ usr_Lastname u +:+
                             " (" +:+ suffix +:+ ")" ∧
          (disabled = true → ∃ a, DeactivatedAt peer' = Some a) ∧
          (disabled = false → DeactivatedAt peer' = None)) as Hpeer.
  { subst peer'. destruct disabled; simpl; repeat split; try done.
    intros _. by eexists. }
  destruct Hs as [(_ & -> & _ & Hl) | (p & Hd & Hc)].
  { split.
    - intros p o Hin. by apply not_elem_of_nil in Hin.
    - intros _. split; [congruence | done]. }
  destruct (commit_outcome_events _ _ _ _ _ _ Hc) as [Hdb _].
  destruct Hd as (_ & _ & _ & Hda & Hmail & Hid & _).
  destruct Hpeer as (Hpm & Hpi & Hpd & Hpa).
  split.
  - intros q o Hin. apply Hdb in Hin as ->. split; [congruence|].
    split; [congruence|]. split.
    + intros Hdis. destruct (Hpd Hdis) as [a Ha]. exists a. congruence.
    + intros Hdis. rewrite Hda. by apply Hpa.
  - intros Hdis. destruct (Hpd Hdis) as [a Ha].
    destruct (commit_outcome_deactivated _ _ _ _ _ _ Hc) as [Hl Hwg];
      [congruence|]. split; [congruence | done].
Qed.

Lemma CreatePeerByEmail_eq device email suffix disabled w :
  CreatePeerByEmail device email suffix disabled w =
  (user ← with_message ("failed to load/create related user " +:+ email)
            (users_GetOrCreateUser email);
   CreatePeerByEmail_tail device email suffix disabled user) w.
Proof. reflexivity. Qed.

(** [CreatePeerByEmail] loads the user of the email or creates one, and a
    failure to create the user ends the run before anything else.  Every
    peer the run persists carries the email and the label
    ["<First> <Last> (<suffix>)"] of that user; it is deactivated exactly
    when [disabled] is set, and then the interface controller is not called
    and the live peers are as before.  The run does not panic. *)
Theorem CreatePeerByEmail_spec device email suffix disabled w :
  let '(r, w') := CreatePeerByEmail device email suffix disabled w in
  (∀ msg, r ≠ Panic msg) ∧
  (∀ u e, (DbCreateUser u, Some e) ∈ new_events w w' →
     r = Err (Wrap ("failed to load/create related user " +:+ email) e) ∧
     new_events w w' = [(DbCreateUser u, Some e)] ∧
     w_peers w' = w_peers w ∧ w_live w' = w_live w ∧ w_users w' = w_users w) ∧
  (∀ p o, (DbCreatePeer p, o) ∈ new_events w w' →
     Email p = email ∧
     (∃ u, (GetUserUnscoped w email = Some u ∨
            GetUserUnscoped w email = None ∧
            u = mkUser email "" "" DeletedAt_zero) ∧
           Identifier p = usr_Firstname u +:+ " " +:+ usr_Lastname u +:+
                          " (" +:+ suffix +:+ ")") ∧
     (disabled = true → ∃ a, DeactivatedAt p = Some a) ∧
     (disabled = false → DeactivatedAt p = None)) ∧
  (disabled = true →
   w_live w' = w_live w ∧
   Forall (λ ev, is_wg_call ev.1 = false) (new_events w w')).
Proof.
  rewrite CreatePeerByEmail_eq.
  unfold mbind at 1. unfold M_bind at 1.
  unfold with_message, users_GetOrCreateUser.
  destruct (GetUserUnscoped w email) as [u|] eqn:Hcur.
  - (* the user exists *)
    pose proof (CreatePeerByEmail_tail_spec device email suffix disabled u w) as Hs.
    destruct (CreatePeerByEmail_tail device email suffix disabled u w) as [r w'].
    destruct Hs as (_ & Hnp & evs & Ht & Hev & Hdb & Hdis).
    rewrite (new_events_app _ _ _ Ht).
    split; [done|]. split; [|split].
    + intros u' e Hin. apply (proj1 (Forall_forall _ _) Hev) in Hin. done.
    + intros p o Hin. destruct (Hdb p o Hin) as (Hm & Hid & Hd1 & Hd2).
      split; [done|]. split; [|by split]. exists u. split; [by left | done].
    + exact Hdis.
  - (* the user is created *)
    set (u0 := mkUser email "" "" DeletedAt_zero).
    unfold users_CreateUser, call. unfold mbind at 1. unfold M_bind at 1.
    destruct (w_fault w (w_step w) (DbCreateUser u0)) as [e|] eqn:E.
    { unfold new_events. simpl. rewrite drop_app_length.
      split; [done|]. split; [|split].
      - intros u e' Hin. elem_cases Hin.
      - intros p o Hin. elem_cases Hin.
      - intros _. split; [done|]. by repeat constructor. }
    unfold mret, M_ret. cbv beta iota zeta.
    match goal with |- context [CreatePeerByEmail_tail _ _ _ _ _ ?v] =>
      set (w1 := v) end.
    pose proof (CreatePeerByEmail_tail_spec device email suffix disabled u0 w1) as Hs.
    destruct (CreatePeerByEmail_tail device email suffix disabled u0 w1) as [r w'].
    destruct Hs as (_ & Hnp & evs & Ht & Hev & Hdb & Hdis).
    assert (new_events w w' = (DbCreateUser u0, None) :: evs) as Hnew.
    { unfold new_events. rewrite Ht. subst w1. simpl.
      by rewrite <- app_assoc, drop_app_length. }
    rewrite Hnew. split; [done|]. split; [|split].
    + intros u e Hin. apply elem_of_cons in Hin as [Hin|Hin]; [done|].
      apply (proj1 (Forall_forall _ _) Hev) in Hin. done.
    + intros p o Hin. apply elem_of_cons in Hin as [Hin|Hin]; [done|].
      destruct (Hdb p o Hin) as (Hm & Hid & Hd1 & Hd2).
      split; [done|]. split; [|by split]. exists u0. split; [by right | done].
    + intros Hd. destruct (Hdis Hd) as [Hl Hwg]. split.
      * rewrite Hl. by subst w1.
      * by constructor.
Qed.

End Properties.

(** * The statements at sample inputs *)

Lemma demo_world_writable device w :
  w_fault w = (λ _ _, None) → config_file_writable device w.
Proof.
  intros Hf. right. split.
  - intros n c _. by rewrite Hf.
  - intros peers. by eexists.
Defined.

Lemma alice_preparation_succeeds w :
  ¬ preparation_fails "wg0" alice w.
Proof. intros [(_ & pool & e & _ & Hf) | (Hk & _)]; discriminate. Defined.

Lemma CreatePeer_interface_gates_repository_witness :
  let w := set_fault AddPeer_fails demo_world in
  let e := Cause "operation not permitted" in
  DeactivatedAt alice = None ∧
  (let '(r, w') := CreatePeer "wg0" alice w in
   r = Err (Wrap "failed to add WireGuard peer" e) ∧
   (∃ p, new_events w w' = [(WgAddPeer "wg0" (GetConfig p), Some e)]) ∧
   w_peers w' = w_peers w ∧ w_live w' = w_live w) ∧
  (let '(r, w') := CreatePeer "wg0" alice demo_world in
   r = Ok tt ∧
   ∃ p fs, new_events demo_world w' =
             (WgAddPeer "wg0" (GetConfig p), None) :: (DbCreatePeer p, None) :: fs ∧
           w_peers w' = <[PublicKey p := p]> (w_peers demo_world) ∧
           w_live w' = <[("wg0", PublicKey p) := GetConfig p]> (w_live demo_world)).
Proof.
  intros w e. split; [reflexivity|]. split.
  - pose proof (CreatePeer_interface_gates_repository "wg0" alice w eq_refl)
      as Hthm.
    cbv zeta in Hthm. destruct (CreatePeer "wg0" alice w) as [r w'].
    destruct Hthm as (_ & Hpush & _).
    destruct (Hpush (alice_preparation_succeeds w))
      as (p & rest & _ & Hev & -> & -> & Hp & Hl).
    split; [reflexivity|]. split; [by exists p|]. by split.
  - pose proof (CreatePeer_interface_gates_repository "wg0" alice demo_world
                  eq_refl) as Hthm.
    cbv zeta in Hthm. destruct (CreatePeer "wg0" alice demo_world) as [r w'].
    destruct Hthm as (_ & Hpush & _).
    destruct (Hpush (alice_preparation_succeeds demo_world))
      as (p & rest & _ & Hev & Hl & fs & -> & _ & Hp & Hok).
    split; [exact (Hok (demo_world_writable "wg0" demo_world eq_refl))|].
    exists p, fs. by split.
Defined.

Lemma DeletePeer_interface_then_repository_witness :
  let w := set_fault RemovePeer_fails world_alice_live in
  let e := Cause "operation not permitted" in
  (let '(r, w') := DeletePeer alice w in
   r = Err (Wrap "failed to remove WireGuard peer" e) ∧
   new_events w w' = [(WgRemovePeer "wg0" "pub-alice", Some e)] ∧
   w_peers w' = w_peers w ∧ w_live w' = w_live w) ∧
  (let '(r, w') := DeletePeer alice world_alice_live in
   r = Ok tt ∧
   (∃ fs, new_events world_alice_live w' =
            (WgRemovePeer "wg0" "pub-alice", None) ::
            (DbDeletePeer alice, None) :: fs) ∧
   w_live w' !! ("wg0", "pub-alice") = None ∧
   w_peers w' !! "pub-alice" = None ∧
   GetPeerByKey w' "pub-alice" = Peer_zero).
Proof.
  intros w e. split.
  - pose proof (DeletePeer_interface_then_repository alice w) as Hthm.
    cbv zeta in Hthm. destruct (DeletePeer alice w) as [r w'].
    destruct Hthm as ((rest & Hev & -> & -> & Hp & Hl) & _).
    split; [reflexivity|]. split; [exact Hev|]. by split.
  - pose proof (DeletePeer_interface_then_repository alice world_alice_live)
      as Hthm.
    cbv zeta in Hthm. destruct (DeletePeer alice world_alice_live) as [r w'].
    destruct Hthm as ((rest & Hev & _ & fs & -> & _ & _ & Hok) & _ & _ & Habsent).
    pose proof (Hok (demo_world_writable "wg0" world_alice_live eq_refl)) as Hr.
    destruct (Habsent Hr) as (Hl & Hp & _ & Hg).
    split; [exact Hr|]. split; [by exists fs|]. by split_and!.
Defined.

(** C4, as first stated: a peer that comes with the public key
    ["pub-foreign"] and no private key is pushed and persisted under the
    generated key ["pub(K1)"]. *)
Lemma CreatePeer_replaces_supplied_key :
  ¬ keeps_supplied_key "wg0" foreign_peer demo_world.
Proof.
  unfold keeps_supplied_key.
  destruct (CreatePeer "wg0" foreign_peer demo_world) as [r w'] eqn:E.
  vm_compute in E. injection E as <- <-.
  intros [Hdb _].
  specialize (Hdb _ None (list_elem_of_further _ _ _ (list_elem_of_here _ _))).
  vm_compute in Hdb. discriminate Hdb.
Qed.

Lemma CreatePeer_generated_key_identifies_peer_witness :
  PrivateKey foreign_peer = "" ∧
  ∃ p, w_peers (CreatePeer "wg0" foreign_peer demo_world).2 !! "pub(K1)" = Some p ∧
       PrivateKey p = "K1".
Proof.
  split; [reflexivity|].
  pose proof (CreatePeer_generated_key_identifies_peer "wg0" foreign_peer
                demo_world eq_refl) as Hthm.
  destruct (CreatePeer "wg0" foreign_peer demo_world) as [r w'] eqn:E.
  destruct Hthm as (_ & _ & Hok).
  assert (r = Ok tt) as Hr.
  { apply (f_equal fst) in E. vm_compute in E. by symmetry. }
  destruct (Hok Hr) as (key & p & Hkey & Hpriv & Hp).
  vm_compute in Hkey. injection Hkey as <-.
  exists p. split; [exact Hp | exact Hpriv].
Defined.

(** C1.  [alice] is live on [wg0].  The caller takes the time 5000 in a
    variable [now] (at address 0), sets [DeactivatedAt] to [&now] and hands
    the peer and [now] to [UpdatePeer].  Inside [UpdatePeer], [updateTime] is
    a variable of its own, so [peer.DeactivatedAt == &updateTime] is false:
    no [RemovePeer] is issued, the repository records the deactivation, and
    the peer stays on the interface. *)
Theorem UpdatePeer_deactivation_keeps_peer_live :
  let now := mkTimePtr 0 5000%Z in
  let peer := set_DeactivatedAt (Some now) alice in
  let w := set_next_addr 1 world_alice_live in
  let '(r, w') := UpdatePeer peer 5000%Z w in
  r = Ok tt ∧
  w_live w' !! ("wg0", "pub-alice") = Some (GetConfig alice) ∧
  (DeactivatedAt <$> w_peers w' !! "pub-alice") = Some (Some now) ∧
  (fst <$> new_events w w') =
    [DbUpdatePeer peer; FsAccess "/etc/wireguard";
     FsWriteFile "/etc/wireguard/wg0.conf" "[Interface] wg0"].
Proof. vm_compute. repeat split; reflexivity. Qed.

(** C5, as first stated: the interface controller refuses the first call
    and accepts the next.  The first run returns the error and adds nothing;
    the second adds [alice]. *)
Lemma RestoreWireGuardInterface_not_idempotent_under_failure :
  ¬ restore_idempotent "wg0" (set_fault fails_once world_alice_offline).
Proof.
  unfold restore_idempotent. intros [_ Habs].
  specialize (Habs (populatePeerData world_alice_offline alice)).
  assert (GetActivePeers (set_fault fails_once world_alice_offline) "wg0" =
          [populatePeerData world_alice_offline alice]) as Hact.
  { vm_compute. reflexivity. }
  rewrite Hact in Habs. specialize (Habs (list_elem_of_here _ _)).
  assert (Peer_live (populatePeerData world_alice_offline alice) = None) as Hl.
  { vm_compute. reflexivity. }
  destruct (Habs Hl) as [cfg Hcfg]. vm_compute in Hcfg. discriminate Hcfg.
Qed.

Lemma RestoreWireGuardInterface_idempotent_on_success_witness :
  (RestoreWireGuardInterface "wg0" world_alice_offline).1 = Ok tt ∧
  let '(r, w') := RestoreWireGuardInterface "wg0" world_alice_offline in
  (∀ p, p ∈ GetActivePeers world_alice_offline "wg0" →
        is_Some (w_live w' !! ("wg0", PublicKey p))) ∧
  RestoreWireGuardInterface "wg0" w' = (Ok tt, w').
Proof.
  split; [vm_compute; reflexivity|].
  pose proof (RestoreWireGuardInterface_idempotent_on_success
                "wg0" world_alice_offline) as Hthm.
  destruct (RestoreWireGuardInterface "wg0" world_alice_offline) as [r w'] eqn:E.
  apply Hthm. apply (f_equal fst) in E. vm_compute in E. by symmetry.
Defined.

Lemma RestoreWireGuardInterface_stops_at_first_failure_witness :
  let w := set_fault fails_once world_alice_offline in
  let cfg := GetConfig alice in
  let e := Cause "device or resource busy" in
  (WgAddPeer "wg0" cfg, Some e) ∈ new_events w (RestoreWireGuardInterface "wg0" w).2 ∧
  (RestoreWireGuardInterface "wg0" w).1 = Err (Wrap "failed to add WireGuard peer" e) ∧
  w_live (RestoreWireGuardInterface "wg0" w).2 = ∅.
Proof.
  intros w cfg e.
  assert ((WgAddPeer "wg0" cfg, Some e) ∈
          new_events w (RestoreWireGuardInterface "wg0" w).2) as Hin.
  { vm_compute. apply list_elem_of_here. }
  split; [exact Hin|].
  pose proof (RestoreWireGuardInterface_stops_at_first_failure "wg0" w) as Hthm.
  destruct (RestoreWireGuardInterface "wg0" w) as [r w'] eqn:E.
  destruct (Hthm "wg0" cfg e Hin) as (-> & l1 & p & l2 & Hsplit & _ & _ & _ & _ & Hlive & _).
  split; [reflexivity|].
  assert (l1 = []) as ->.
  { assert (GetActivePeers w "wg0" = [populatePeerData w alice]) as Hact
      by (vm_compute; reflexivity).
    rewrite Hact in Hsplit. destruct l1 as [|? [|? ?]]; [done| |]; discriminate Hsplit. }
  exact Hlive.
Defined.

Lemma world_bob_deleted_keyed : keyed_by_PublicKey (w_peers world_bob_deleted).
Proof.
  intros k p Hk.
  change (w_peers world_bob_deleted)
    with ({[ "pub-bob" := bob_peer ]} : gmap string Peer) in Hk.
  apply lookup_singleton_Some in Hk as [<- <-]. reflexivity.
Defined.

Lemma UpdateUser_reactivates_owned_peers_witness :
  del_Valid (usr_DeletedAt bob) = false ∧
  GetUserUnscoped world_bob_deleted (usr_Email bob) = Some bob_deleted ∧
  del_Valid (usr_DeletedAt bob_deleted) = true ∧
  w_fault world_bob_deleted (w_step world_bob_deleted) (DbUpdateUser bob) = None ∧
  keyed_by_PublicKey (w_peers world_bob_deleted) ∧
  let '(r, w') := UpdateUser bob world_bob_deleted in
  r = Ok tt ∧
  w_users w' !! usr_Email bob = Some bob ∧
  ∀ p, p ∈ GetPeersByMail world_bob_deleted (usr_Email bob) →
       calls_succeed world_bob_deleted (set_DeactivatedAt None p) →
       (∃ p', w_peers w' !! PublicKey p = Some p' ∧ DeactivatedAt p' = None ∧
              p' = set_DeactivatedAt None p) ∧
       w_live w' !! (DeviceName p, PublicKey p) =
         Some (GetConfig (set_DeactivatedAt None p)).
Proof.
  split; [reflexivity|]. split; [vm_compute; reflexivity|].
  split; [reflexivity|]. split; [reflexivity|].
  split; [exact world_bob_deleted_keyed|].
  apply (UpdateUser_reactivates_owned_peers bob bob_deleted world_bob_deleted).
  - reflexivity.
  - vm_compute; reflexivity.
  - reflexivity.
  - reflexivity.
  - exact world_bob_deleted_keyed.
Defined.

Lemma CreateUser_resurrects_soft_deleted_user_witness :
  usr_Email bob ≠ "" ∧
  GetUserUnscoped world_bob_deleted (usr_Email bob) = Some bob_deleted ∧
  del_Valid (usr_DeletedAt bob_deleted) = true ∧
  CreateUser bob "wg0" world_bob_deleted =
    UpdateUser (set_usr_DeletedAt DeletedAt_zero bob) world_bob_deleted ∧
  dom (w_users (CreateUser bob "wg0" world_bob_deleted).2) =
    dom (w_users world_bob_deleted).
Proof.
  split; [discriminate|]. split; [vm_compute; reflexivity|].
  split; [reflexivity|].
  pose proof (CreateUser_resurrects_soft_deleted_user bob bob_deleted "wg0"
                world_bob_deleted) as Hthm.
  destruct Hthm as [Heq Hrest].
  - discriminate.
  - vm_compute; reflexivity.
  - reflexivity.
  - split; [exact Heq|].
    destruct (CreateUser bob "wg0" world_bob_deleted) as [r w'].
    destruct Hrest as (_ & Hdom & _). exact Hdom.
Defined.

(** ** Further properties at sample inputs *)

Lemma WriteWireGuardConfigFile_spec_witness :
  let e := Cause "no space left on device" in
  let '(r, w') := WriteWireGuardConfigFile "wg0" world_disk_full in
  r = Err (Wrap "failed to write WireGuard config file" e) ∧
  w_files world_disk_full !! "/etc/wireguard/wg0.conf" = Some "[Interface] old" ∧
  w_files w' !! "/etc/wireguard/wg0.conf" = Some "[Inte".
Proof.
  intros e.
  pose proof (WriteWireGuardConfigFile_spec "wg0" world_disk_full) as Hthm.
  cbv zeta in Hthm.
  destruct (WriteWireGuardConfigFile "wg0" world_disk_full) as [r w'] eqn:E.
  assert (r = Err (Wrap "failed to write WireGuard config file" e)) as Hr.
  { apply (f_equal fst) in E. vm_compute in E. by symmetry. }
  split; [exact Hr|]. split; [vm_compute; reflexivity|].
  destruct Hthm as (_ & _ & _ & Herr).
  destruct (Herr _ Hr) as [(c & [=] & _) | [(c & [=] & _) | (c & cfg & _ & Hcfg & _ & _ & Hfile)]].
  vm_compute in Hcfg. injection Hcfg as <-.
  vm_compute in Hfile. vm_compute. exact Hfile.
Defined.

Lemma UpdatePeer_deactivated_makes_no_interface_call_witness :
  let now := mkTimePtr 0 5000%Z in
  let peer := set_DeactivatedAt (Some now) alice in
  let w := set_next_addr 1 world_alice_live in
  DeactivatedAt peer = Some now ∧ ptr_addr now < w_next_addr w ∧
  let '(r, w') := UpdatePeer peer 5000%Z w in
  r = Ok tt ∧ w_live w' = w_live w ∧
  (∃ fs, new_events w w' = (DbUpdatePeer peer, None) :: fs) ∧
  w_peers w' = <[PublicKey peer := peer]> (w_peers w).
Proof.
  intros now peer w. split; [reflexivity|].
  assert (ptr_addr now < w_next_addr w) as Hlt by (vm_compute; lia).
  split; [exact Hlt|].
  pose proof (UpdatePeer_deactivated_makes_no_interface_call peer 5000%Z w now
                eq_refl Hlt) as Hthm.
  cbv zeta in Hthm. destruct (UpdatePeer peer 5000%Z w) as [r w'].
  destruct Hthm as (Hl & _ & fs & Hev & _ & Hp & Hok).
  split; [exact (Hok (demo_world_writable "wg0" w eq_refl))|].
  split; [exact Hl|]. split; [by exists fs|]. exact Hp.
Defined.

Lemma UpdatePeer_interface_gates_repository_witness :
  DeactivatedAt alice = None ∧
  ∃ o rest,
    new_events world_alice_offline (UpdatePeer alice 5000%Z world_alice_offline).2 =
    (active_call alice world_alice_offline, o) :: rest.
Proof.
  split; [reflexivity|].
  pose proof (UpdatePeer_interface_gates_repository alice 5000%Z
                world_alice_offline eq_refl) as Hthm.
  destruct (UpdatePeer alice 5000%Z world_alice_offline) as [r w'].
  apply Hthm.
Defined.

Lemma world_alice_offline_row_matches : row_matches world_alice_offline alice.
Proof.
  intros row Hrow.
  change (w_peers world_alice_offline)
    with ({[ "pub-alice" := alice ]} : gmap string Peer) in Hrow.
  change (PublicKey alice) with "pub-alice" in Hrow.
  apply lookup_singleton_Some in Hrow as [_ <-]. split; reflexivity.
Defined.

Lemma UpdatePeer_then_GetPeerByKey_witness :
  DeactivatedAt alice = None ∧ row_matches world_alice_offline alice ∧
  (UpdatePeer alice 5000%Z world_alice_offline).1 = Ok tt ∧
  GetPeerByKey (UpdatePeer alice 5000%Z world_alice_offline).2 (PublicKey alice) =
    set_Peer_live (Some (GetConfig alice)) alice.
Proof.
  split; [reflexivity|]. split; [exact world_alice_offline_row_matches|].
  assert ((UpdatePeer alice 5000%Z world_alice_offline).1 = Ok tt) as Hr
    by (vm_compute; reflexivity).
  split; [exact Hr|].
  pose proof (UpdatePeer_then_GetPeerByKey alice 5000%Z world_alice_offline
                eq_refl world_alice_offline_row_matches) as Hthm.
  destruct (UpdatePeer alice 5000%Z world_alice_offline) as [r w'].
  apply Hthm. exact Hr.
Defined.

Lemma CreatePeer_keeps_supplied_addresses_and_keys_witness :
  IPs carol ≠ [] ∧ PrivateKey carol ≠ "" ∧
  ∀ d c o, (WgAddPeer d c, o) ∈ new_events demo_world (CreatePeer "wg0" carol demo_world).2 →
           d = "wg0" ∧ c = GetConfig carol.
Proof.
  split; [discriminate|]. split; [discriminate|].
  pose proof (CreatePeer_keeps_supplied_addresses_and_keys "wg0" carol demo_world)
    as Hthm.
  destruct (CreatePeer "wg0" carol demo_world) as [r w'].
  apply Hthm; discriminate.
Defined.

Lemma CreatePeer_deactivated_is_not_pushed_witness :
  DeactivatedAt bob_peer = Some (mkTimePtr 0 900%Z) ∧
  w_live (CreatePeer "wg0" bob_peer demo_world).2 = w_live demo_world.
Proof.
  split; [reflexivity|].
  pose proof (CreatePeer_deactivated_is_not_pushed "wg0" bob_peer demo_world
                (mkTimePtr 0 900%Z) eq_refl) as Hthm.
  destruct (CreatePeer "wg0" bob_peer demo_world) as [r w'].
  apply Hthm.
Defined.

Lemma CreatePeer_repository_failure_leaves_peer_live_witness :
  let w := set_fault DbCreatePeer_fails demo_world in
  let p := set_UID "umd5(pub-alice)"
             (set_IPsStr "10.0.0.0/24#0;"
                (set_IPs ["10.0.0.0/24#0"] (set_AllowedIPsStr "10.0.0.0/24" alice))) in
  (DbCreatePeer p, Some (Cause "database is locked"))
    ∈ new_events w (CreatePeer "wg0" alice w).2 ∧
  w_live (CreatePeer "wg0" alice w).2 !! ("wg0", PublicKey p) = Some (GetConfig p) ∧
  w_peers (CreatePeer "wg0" alice w).2 = w_peers w.
Proof.
  intros w p.
  assert ((DbCreatePeer p, Some (Cause "database is locked"))
            ∈ new_events w (CreatePeer "wg0" alice w).2) as Hin.
  { vm_compute. apply list_elem_of_further, list_elem_of_here. }
  split; [exact Hin|].
  pose proof (CreatePeer_repository_failure_leaves_peer_live "wg0" alice w) as Hthm.
  destruct (CreatePeer "wg0" alice w) as [r w'].
  destruct (Hthm p _ Hin) as (_ & Hpe & Hlive & _).
  split; [by apply Hlive | exact Hpe].
Defined.

Lemma CreatePeer_then_GetPeerByKey_witness :
  DeactivatedAt alice = None ∧
  dev_DeviceName (GetDevice demo_world "wg0") = "wg0" ∧
  (CreatePeer "wg0" alice demo_world).1 = Ok tt ∧
  ∃ p, GetPeerByKey (CreatePeer "wg0" alice demo_world).2 (PublicKey p) =
         set_Peer_live (Some (GetConfig p)) p ∧
       set_Peer_live (Some (GetConfig p)) p
         ∈ GetActivePeers (CreatePeer "wg0" alice demo_world).2 "wg0".
Proof.
  split; [reflexivity|]. split; [reflexivity|].
  assert ((CreatePeer "wg0" alice demo_world).1 = Ok tt) as Hr
    by (vm_compute; reflexivity).
  split; [exact Hr|].
  pose proof (CreatePeer_then_GetPeerByKey "wg0" alice demo_world
                eq_refl eq_refl) as Hthm.
  destruct (CreatePeer "wg0" alice demo_world) as [r w'].
  destruct (Hthm Hr) as (p & _ & Hget & Hin). by exists p.
Defined.

Lemma DeleteUser_deactivates_in_repository_only_witness :
  GetUserUnscoped world_bob_active (usr_Email bob) = Some bob ∧
  w_live (DeleteUser bob world_bob_active).2 = w_live world_bob_active.
Proof.
  assert (GetUserUnscoped world_bob_active (usr_Email bob) = Some bob) as Hcur
    by (vm_compute; reflexivity).
  split; [exact Hcur|].
  pose proof (DeleteUser_deactivates_in_repository_only bob bob world_bob_active
                Hcur) as Hthm.
  destruct (DeleteUser bob world_bob_active) as [r w'].
  apply Hthm.
Defined.

Lemma UpdateUser_unknown_user_panics_witness :
  GetUserUnscoped demo_world (usr_Email bob) = None ∧
  del_Valid (usr_DeletedAt bob) = false ∧
  w_fault demo_world (w_step demo_world) (DbUpdateUser bob) = None ∧
  ∃ msg, (UpdateUser bob demo_world).1 = Panic msg.
Proof.
  assert (GetUserUnscoped demo_world (usr_Email bob) = None) as Hcur
    by (vm_compute; reflexivity).
  split; [exact Hcur|]. split; [reflexivity|]. split; [reflexivity|].
  destruct (UpdateUser_unknown_user_panics bob demo_world Hcur) as [Hup _].
  specialize (Hup eq_refl eq_refl).
  destruct (UpdateUser bob demo_world) as [r w'].
  apply Hup.
Defined.

Lemma UpdateUser_active_user_touches_no_peer_witness :
  del_Valid (usr_DeletedAt bob) = false ∧
  GetUserUnscoped world_bob_active (usr_Email bob) = Some bob ∧
  w_peers (UpdateUser bob world_bob_active).2 = w_peers world_bob_active ∧
  w_live (UpdateUser bob world_bob_active).2 = w_live world_bob_active.
Proof.
  assert (GetUserUnscoped world_bob_active (usr_Email bob) = Some bob) as Hcur
    by (vm_compute; reflexivity).
  split; [reflexivity|]. split; [exact Hcur|].
  pose proof (UpdateUser_active_user_touches_no_peer bob bob world_bob_active
                eq_refl Hcur eq_refl) as Hthm.
  destruct (UpdateUser bob world_bob_active) as [r w'].
  destruct Hthm as (Hpe & Hl & _). by split.
Defined.

Lemma allocation_stops_at_first_exhausted_pool_witness :
  let e := Cause "no more available ip addresses" in
  dev_IPs (GetDevice demo_world "wg0") = [] ++ "10.0.0.0/24" :: [] ∧
  @GetAvailableIp demo_exhausted (w_peers demo_world) "wg0" "10.0.0.0/24" = inl e ∧
  @PrepareNewPeer demo_exhausted "wg0" demo_world =
    (Err (Wrap "failed to get available IP addresses" e), demo_world).
Proof.
  intros e. split; [reflexivity|]. split; [reflexivity|].
  apply (@allocation_stops_at_first_exhausted_pool demo_exhausted
           "wg0" demo_world [] "10.0.0.0/24" [] e);
    [reflexivity | constructor | reflexivity].
Defined.
